(** * UltraGrid PipeWire screen capture (video_capture/pipewire.cpp)

    A shallow embedding of the capture pipeline: the row converter
    [pw_frame_to_uv_frame_memcpy], the buffer-delivery handler [on_process],
    the pull entry point [vidcap_screen_pw_grab], the option parser
    [parse_params], the rate advertised by [start_pipewire] and the
    destructor of [screen_cast_session::pw_]; then the format negotiation
    [on_stream_param_changed], both inits and [vidcap_screen_pw_done], and
    of debug.cpp [set_log_level], [debug_dump] and [debug_file_dump].

    Integers are [Z] with the 32-bit wrap-around of the C++ types written
    out; pixel memory is a list of bytes; the two threads are an
    interleaving of the steps of the handler and of grab, in which the
    [push_back] of grab, which takes no lock, can overlap the handler. *)

From Stdlib Require Import String Ascii ZArith List Bool Lia Permutation.
From Stdlib Require DecimalString HexadecimalString DecimalN DecimalPos DecimalFacts.
From Stdlib Require Floats Uint63.
From coqutil Require Import Byte Z.bitblast Word.LittleEndianList.
From coqutil Require Map.Interface Map.Properties Map.SortedListString.
Import ListNotations.
Local Open Scope Z_scope.

(** ** Machine integers *)

Module Int.

Definition u32 (z : Z) : Z := z mod 2 ^ 32.

Definition s32 (z : Z) : Z := (z + 2 ^ 31) mod 2 ^ 32 - 2 ^ 31.

Definition UINT32_MAX : Z := 2 ^ 32 - 1.

End Int.
Import Int.

(** ** Floating point

    [double] is the binary64 format of the processor, with its rounding,
    its infinities and its NaN. *)

Definition double : Type := PrimFloat.float.

(** The conversion of a [uint32_t] or of an [int] constant that is not
    negative: every such value is a [double]. *)
Definition double_of_uint32 (z : Z) : double := PrimFloat.of_uint63 (Uint63.of_Z z).

(** The two values are the same [double]. *)
Definition double_same (a b : double) : bool := PrimFloat.Leibniz.eqb a b.

(** ** Outcomes of the C++ code

    [Abort]: an [assert] failed.  [Undefined]: a memory access outside a
    buffer, or a division by zero.  [Blocked]: a push on a full hand-off
    queue, which waits for the consumer. *)

Inductive result (A : Type) : Type :=
| Ok (a : A)
| Abort
| Undefined
| Blocked.
Arguments Ok {A} a.
Arguments Abort {A}.
Arguments Undefined {A}.
Arguments Blocked {A}.

Definition bind {A B : Type} (r : result A) (k : A -> result B) : result B :=
  match r with
  | Ok a => k a
  | Abort => Abort
  | Undefined => Undefined
  | Blocked => Blocked
  end.

Notation "'do' x <- r ; k" := (bind r (fun x => k))
  (at level 10, x name, r at level 100, k at level 200).

Definition assert (b : bool) : result unit := if b then Ok tt else Abort.

(** ** Pixel memory *)

Module Mem.

Definition bytes := list byte.

(** [len] elements from index [pos] on. *)
Definition slice {A : Type} (buf : list A) (pos len : nat) : list A :=
  firstn len (skipn pos buf).

(** [buf] with [bs] written over it from index [pos] on. *)
Definition splice {A : Type} (buf : list A) (pos : nat) (bs : list A) : list A :=
  firstn pos buf ++ bs ++ skipn (pos + List.length bs) buf.

Definition in_bounds (buf : bytes) (pos len : Z) : bool :=
  (0 <=? pos) && (0 <=? len) && (pos + len <=? Z.of_nat (List.length buf)).

(** [len] bytes starting at [pos]. *)
Definition read_bytes (buf : bytes) (pos len : Z) : result (list byte) :=
  if in_bounds buf pos len
  then Ok (slice buf (Z.to_nat pos) (Z.to_nat len))
  else Undefined.

(** Overwrite the bytes starting at [pos] with [bs]. *)
Definition write_bytes (buf : bytes) (pos : Z) (bs : list byte) : result bytes :=
  if in_bounds buf pos (Z.of_nat (List.length bs))
  then Ok (splice buf (Z.to_nat pos) bs)
  else Undefined.

Definition zeroes (n : Z) : bytes := repeat (byte.of_Z 0) (Z.to_nat n).

End Mem.
Import Mem.

(** ** Data model *)

(** [enum spa_video_format] (spa/param/video/raw.h), first members. *)
Inductive spa_video_format : Type :=
| SPA_VIDEO_FORMAT_UNKNOWN | SPA_VIDEO_FORMAT_ENCODED
| SPA_VIDEO_FORMAT_I420 | SPA_VIDEO_FORMAT_YV12
| SPA_VIDEO_FORMAT_YUY2 | SPA_VIDEO_FORMAT_UYVY | SPA_VIDEO_FORMAT_AYUV
| SPA_VIDEO_FORMAT_RGBx | SPA_VIDEO_FORMAT_BGRx
| SPA_VIDEO_FORMAT_xRGB | SPA_VIDEO_FORMAT_xBGR
| SPA_VIDEO_FORMAT_RGBA | SPA_VIDEO_FORMAT_BGRA
| SPA_VIDEO_FORMAT_ARGB | SPA_VIDEO_FORMAT_ABGR
| SPA_VIDEO_FORMAT_RGB | SPA_VIDEO_FORMAT_BGR.

Definition spa_video_format_eqb (a b : spa_video_format) : bool :=
  match a, b with
  | SPA_VIDEO_FORMAT_UNKNOWN, SPA_VIDEO_FORMAT_UNKNOWN
  | SPA_VIDEO_FORMAT_ENCODED, SPA_VIDEO_FORMAT_ENCODED
  | SPA_VIDEO_FORMAT_I420, SPA_VIDEO_FORMAT_I420
  | SPA_VIDEO_FORMAT_YV12, SPA_VIDEO_FORMAT_YV12
  | SPA_VIDEO_FORMAT_YUY2, SPA_VIDEO_FORMAT_YUY2
  | SPA_VIDEO_FORMAT_UYVY, SPA_VIDEO_FORMAT_UYVY
  | SPA_VIDEO_FORMAT_AYUV, SPA_VIDEO_FORMAT_AYUV
  | SPA_VIDEO_FORMAT_RGBx, SPA_VIDEO_FORMAT_RGBx
  | SPA_VIDEO_FORMAT_BGRx, SPA_VIDEO_FORMAT_BGRx
  | SPA_VIDEO_FORMAT_xRGB, SPA_VIDEO_FORMAT_xRGB
  | SPA_VIDEO_FORMAT_xBGR, SPA_VIDEO_FORMAT_xBGR
  | SPA_VIDEO_FORMAT_RGBA, SPA_VIDEO_FORMAT_RGBA
  | SPA_VIDEO_FORMAT_BGRA, SPA_VIDEO_FORMAT_BGRA
  | SPA_VIDEO_FORMAT_ARGB, SPA_VIDEO_FORMAT_ARGB
  | SPA_VIDEO_FORMAT_ABGR, SPA_VIDEO_FORMAT_ABGR
  | SPA_VIDEO_FORMAT_RGB, SPA_VIDEO_FORMAT_RGB
  | SPA_VIDEO_FORMAT_BGR, SPA_VIDEO_FORMAT_BGR => true
  | _, _ => false
  end.

(** [codec_t] is a C enum; [VIDEO_CODEC_NONE] is its zero. *)
Definition codec_t : Type := Z.
Definition VIDEO_CODEC_NONE : codec_t := 0.
Definition PROGRESSIVE : Z := 0.

Record spa_point : Type := { pt_x : Z; pt_y : Z }.
Record spa_rectangle : Type := { rect_width : Z; rect_height : Z }.
Record spa_region : Type := { region_position : spa_point; region_size : spa_rectangle }.
Record spa_meta_region : Type := { region : spa_region }.

Record spa_chunk : Type := {
  chunk_offset : Z;   (* uint32_t *)
  chunk_size : Z;     (* uint32_t *)
  chunk_stride : Z    (* int32_t *)
}.

Record spa_data : Type := {
  data : option bytes;        (* the mapped memory, or nullptr *)
  chunk : option spa_chunk    (* or nullptr *)
}.

Record spa_buffer : Type := {
  video_crop_meta : option spa_meta_region;  (* spa_buffer_find_meta_data(.., SPA_META_VideoCrop, ..) *)
  datas : list spa_data                      (* n_datas = length datas *)
}.

Record pw_buffer : Type := {
  pw_buffer_id : nat;             (* which buffer of the external service *)
  buffer : option spa_buffer      (* or nullptr *)
}.

Record video_desc : Type := {
  desc_width : Z;
  desc_height : Z;
  desc_color_spec : codec_t;
  desc_fps : double;
  desc_interlacing : Z;
  desc_tile_count : Z
}.

Record tile : Type := {
  tile_width : Z;
  tile_height : Z;
  tile_data : bytes;
  tile_data_len : Z
}.

(** A heap-allocated [video_frame]; [frame_id] is its identity (address). *)
Record video_frame : Type := {
  frame_id : nat;
  color_spec : codec_t;
  frame_fps : double;
  interlacing : Z;
  tile_count : Z;
  tiles0 : tile
}.

Definition unique_frame : Type := option video_frame.

Definition set_tiles0 (f : video_frame) (t : tile) : video_frame :=
  {| frame_id := frame_id f; color_spec := color_spec f; frame_fps := frame_fps f;
     interlacing := interlacing f; tile_count := tile_count f; tiles0 := t |}.

(** spa/buffer/meta.h: a region is valid when its size is not empty. *)
Definition spa_meta_region_is_valid (m : spa_meta_region) : bool :=
  negb (rect_width (region_size (region m)) =? 0) && negb (rect_height (region_size (region m)) =? 0).

(** The codec table of video_codec.c ([vc_get_linesize]) and the format map
    of pipewire_common.hpp ([uv_codec_from_pw_fmt]) live outside the capture
    module: the development is parametric in them. *)
Class codec_info : Type := {
  vc_get_linesize : Z -> codec_t -> Z;
  uv_codec_from_pw_fmt : spa_video_format -> codec_t
}.

(** ** The converter *)

(** Modelled from the spec: the reordering [vc_copylineRGBA] applies to one
    pixel.  Section 4.3: "perform channel reordering per pixel"; section 8:
    "output[0]=input[2], output[2]=input[0] for every pixel".  A pixel is a
    little-endian 32-bit word; its red, green and blue bytes (bits 0-7, 8-15
    and 16-23) move to the bit positions [rshift], [gshift] and [bshift], the
    fourth byte stays where it is. *)
Definition copyline_word (w rshift gshift bshift : Z) : Z :=
  let r := Z.land w 255 in
  let g := Z.land (Z.shiftr w 8) 255 in
  let b := Z.land (Z.shiftr w 16) 255 in
  Z.lor (Z.land w (Z.shiftl 255 24))
        (Z.lor (Z.shiftl r rshift) (Z.lor (Z.shiftl g gshift) (Z.shiftl b bshift))).

(** Modelled from the spec: [vc_copylineRGBA], declared in pixfmt_conv.h,
    is missing.  Section 4.3: the reordering is done pixel by pixel along the
    line; bytes left over at the end, short of a pixel, are copied. *)
Fixpoint vc_copylineRGBA (src : list byte) (rshift gshift bshift : Z) : list byte :=
  match src with
  | b0 :: b1 :: b2 :: b3 :: rest =>
      le_split 4 (copyline_word (le_combine [b0; b1; b2; b3]) rshift gshift bshift)
        ++ vc_copylineRGBA rest rshift gshift bshift
  | tail => tail
  end.

Definition swap_red_blue (fmt : spa_video_format) : bool :=
  spa_video_format_eqb fmt SPA_VIDEO_FORMAT_BGRA
  || spa_video_format_eqb fmt SPA_VIDEO_FORMAT_BGRx.

(** What one row goes through on its way to the frame. *)
Definition convert_line (swap : bool) (line : list byte) : list byte :=
  if swap then vc_copylineRGBA line 16 8 0 else line.

(** [if(stride == 0) stride = chunk_size / size.height;] with unsigned
    operands and an [int32_t] destination. *)
Definition row_stride (c : spa_chunk) (size : spa_rectangle) : result Z :=
  if chunk_stride c =? 0
  then if rect_height size =? 0 then Undefined
       else Ok (s32 (chunk_size c / rect_height size))
  else Ok (chunk_stride c).

(** Where row [i] of the output is read from:
    [data + offset + skip + stride * (i + start_y)], the product in
    unsigned 32-bit arithmetic. *)
Definition src_row_pos (offset skip stride start_y i : Z) : Z :=
  offset + skip + u32 (stride * u32 (i + start_y)).

(** Where it is written: [data + linesize * i]. *)
Definition dst_row_pos (linesize i : Z) : Z := u32 (linesize * i).

(** The loop [for(unsigned i = 0; i < height; i++)], [n] rows still to do. *)
Fixpoint copy_rows (n : nat) (i : Z) (src : bytes)
    (offset skip stride start_y linesize : Z) (swap : bool) (dst : bytes)
  : result bytes :=
  match n with
  | O => Ok dst
  | S n' =>
      do line <- read_bytes src (src_row_pos offset skip stride start_y i) linesize;
      do dst' <- write_bytes dst (dst_row_pos linesize i) (convert_line swap line);
      copy_rows n' (i + 1) src offset skip stride start_y linesize swap dst'
  end.

(** [width], [height], [start_x], [start_y] after [if(crop){...}]. *)
Definition out_width (size : spa_rectangle) (crop : option spa_region) : Z :=
  match crop with Some cr => rect_width (region_size cr) | None => rect_width size end.
Definition out_height (size : spa_rectangle) (crop : option spa_region) : Z :=
  match crop with Some cr => rect_height (region_size cr) | None => rect_height size end.
Definition start_x (crop : option spa_region) : Z :=
  match crop with Some cr => u32 (pt_x (region_position cr)) | None => 0 end.
Definition start_y (crop : option spa_region) : Z :=
  match crop with Some cr => u32 (pt_y (region_position cr)) | None => 0 end.

Section Converter.
Context {CI : codec_info}.

Definition pw_frame_to_uv_frame_memcpy (dst : video_frame) (src : spa_buffer)
    (fmt : spa_video_format) (size : spa_rectangle) (crop : option spa_region)
  : result video_frame :=
  match datas src with
  | {| data := Some mem; chunk := Some c |} :: _ =>
      let offset := chunk_offset c in
      let width := out_width size crop in
      let height := out_height size crop in
      do stride <- row_stride c size;
      let linesize := vc_get_linesize width (color_spec dst) in
      let skip := vc_get_linesize (start_x crop) (color_spec dst) in
      let swap := swap_red_blue fmt in
      do out <- copy_rows (Z.to_nat height) 0 mem offset skip stride (start_y crop)
                  linesize swap (tile_data (tiles0 dst));
      Ok (set_tiles0 dst {| tile_width := width; tile_height := height;
                            tile_data := out;
                            tile_data_len := u32 (linesize * height) |})
  | _ => Undefined
  end.

End Converter.

(** ** Images in memory

    Pixels and rows of the source image and of the frame. *)

(** Pixel ([col], [row]) of an image that starts at [offset] in [mem], with
    [stride] bytes from one row to the next and [bpp] bytes per pixel. *)
Definition image_pixel (mem : bytes) (offset stride bpp col row : Z) : result (list byte) :=
  read_bytes mem (offset + row * stride + col * bpp) bpp.

(** The [n] pixels of row [row] from column [col] on. *)
Definition image_row_segment (mem : bytes) (offset stride bpp col row n : Z)
  : result (list byte) :=
  read_bytes mem (offset + row * stride + col * bpp) (bpp * n).

(** Pixel ([col], [row]) and row [row] of the tile of a frame, whose rows
    follow one another without padding. *)
Definition frame_pixel (f : video_frame) (bpp col row : Z) : result (list byte) :=
  read_bytes (tile_data (tiles0 f)) ((row * tile_width (tiles0 f) + col) * bpp) bpp.

Definition frame_row (f : video_frame) (bpp row : Z) : result (list byte) :=
  read_bytes (tile_data (tiles0 f)) (row * tile_width (tiles0 f) * bpp)
             (bpp * tile_width (tiles0 f)).

(** The memory [mem] with chunk [c] holds an image of size [size], [bpp]
    bytes per pixel, its rows [stride] bytes apart. *)
Definition holds_image (mem : bytes) (c : spa_chunk) (size : spa_rectangle)
    (stride bpp : Z) : Prop :=
  0 < bpp
  /\ 0 <= rect_width size < 2 ^ 32
  /\ 0 <= rect_height size < 2 ^ 32
  /\ 0 <= chunk_offset c
  /\ bpp * rect_width size <= stride
  /\ chunk_offset c + stride * rect_height size <= Z.of_nat (List.length mem)
  /\ Z.of_nat (List.length mem) < 2 ^ 32.

(** The rectangle ([x], [y], [w], [h]) lies within an image of size [size]. *)
Definition crop_within (size : spa_rectangle) (x y w h : Z) : Prop :=
  0 <= x /\ 0 <= y /\ 0 <= w /\ 0 <= h
  /\ x + w <= rect_width size /\ y + h <= rect_height size.

Definition crop_rectangle (x y w h : Z) : spa_region :=
  {| region_position := {| pt_x := x; pt_y := y |};
     region_size := {| rect_width := w; rect_height := h |} |}.

(** A buffer with one data block. *)
Definition buffer_of (meta : option spa_meta_region) (mem : bytes) (c : spa_chunk)
  : spa_buffer :=
  {| video_crop_meta := meta; datas := [{| data := Some mem; chunk := Some c |}] |}.

(** The bytes of a pixel in the order of the frame (red, green, blue,
    fourth): a source in a BGR format has blue first. *)
Definition rgb_order (fmt : spa_video_format) (p : list byte) : list byte :=
  match fmt, p with
  | SPA_VIDEO_FORMAT_BGRA, [b; g; r; a] => [r; g; b; a]
  | SPA_VIDEO_FORMAT_BGRx, [b; g; r; a] => [r; g; b; a]
  | _, _ => p
  end.

(** ** Frames and their descriptors *)

(** Modelled from the spec: [video_desc_from_frame], declared in
    video_frame.h, is missing.  Section 3: a Frame carries per-tile metadata (width,
    height, byte length, data) and its shape is compared with the
    FrameDescriptor. *)
Definition video_desc_from_frame (f : video_frame) : video_desc :=
  {| desc_width := tile_width (tiles0 f);
     desc_height := tile_height (tiles0 f);
     desc_color_spec := color_spec f;
     desc_fps := frame_fps f;
     desc_interlacing := interlacing f;
     desc_tile_count := tile_count f |}.

(** Modelled from the spec: [video_desc_eq], declared in video.h, is
    missing.  Section 3: "two descriptors are equal iff all fields match";
    two rates match when they are the same [double]. *)
Definition video_desc_eq (a b : video_desc) : bool :=
  (desc_width a =? desc_width b)
  && (desc_height a =? desc_height b)
  && (desc_color_spec a =? desc_color_spec b)
  && double_same (desc_fps a) (desc_fps b)
  && (desc_interlacing a =? desc_interlacing b)
  && (desc_tile_count a =? desc_tile_count b).

(** Modelled from the spec: [vf_alloc], declared in video_frame.h, is
    missing.  Section 2: the pool holds pre-allocated frames; a frame from
    [vf_alloc] has its tiles but no pixel buffer yet. *)
Definition vf_alloc (id : nat) (count : Z) : video_frame :=
  {| frame_id := id; color_spec := VIDEO_CODEC_NONE; frame_fps := double_of_uint32 0;
     interlacing := PROGRESSIVE; tile_count := count;
     tiles0 := {| tile_width := 0; tile_height := 0; tile_data := [];
                  tile_data_len := 0 |} |}.

Section Frames.
Context {CI : codec_info}.

(** Modelled from the spec: [vf_alloc_desc_data], declared in
    video_frame.h, is missing.  Section 4.4 (4): the buffer of the frame is reallocated to
    match the FrameDescriptor, its size "computed from width/height/format":
    one line size per row. *)
Definition vf_alloc_desc_data (id : nat) (d : video_desc) : video_frame :=
  let len := vc_get_linesize (desc_width d) (desc_color_spec d) * desc_height d in
  {| frame_id := id; color_spec := desc_color_spec d; frame_fps := desc_fps d;
     interlacing := desc_interlacing d; tile_count := desc_tile_count d;
     tiles0 := {| tile_width := desc_width d; tile_height := desc_height d;
                  tile_data := zeroes len; tile_data_len := len |} |}.

End Frames.

(** ** The session *)

Definition DEFAULT_BUFFERS_PW : Z := 2.
Definition MIN_BUFFERS_PW : Z := 2.
Definition MAX_BUFFERS_PW : Z := 10.
Definition QUEUE_SIZE : Z := 3.
Definition DEFAULT_EXPECTING_FPS : Z := 30.

Record user_options_t : Type := {
  show_cursor : bool;
  restore_file : string;
  fps : Z;                      (* uint32_t *)
  crop : bool
}.

Record spa_fraction : Type := { num : Z; denom : Z }.

Record spa_video_info_raw : Type := {
  info_format : spa_video_format;
  info_size : spa_rectangle;
  info_framerate : spa_fraction;
  info_max_framerate : spa_fraction
}.

Record spa_video_info : Type := {
  media_type : Z;
  media_subtype : Z;
  info_raw : spa_video_info_raw
}.

(** Pointers to objects of the external service: [None] is nullptr. *)
Definition handle : Type := option nat.

Record pw_ : Type := {
  fd : Z;
  node : Z;
  loop : handle;
  context : handle;
  stream : handle;
  format : spa_video_info
}.

Record screen_cast_session : Type := {
  in_flight_frame : unique_frame;
  blank_frames : list video_frame;      (* std::vector, back = last *)
  sending_frames : list video_frame;    (* synchronized_queue, front = head *)
  desc : video_desc;
  user_options : user_options_t;
  pw : pw_
}.

Definition default_user_options : user_options_t :=
  {| show_cursor := false; restore_file := EmptyString; fps := 0; crop := true |}.

Definition zero_fraction : spa_fraction := {| num := 0; denom := 0 |}.

Definition zero_video_info : spa_video_info :=
  {| media_type := 0; media_subtype := 0;
     info_raw := {| info_format := SPA_VIDEO_FORMAT_UNKNOWN;
                    info_size := {| rect_width := 0; rect_height := 0 |};
                    info_framerate := zero_fraction;
                    info_max_framerate := zero_fraction |} |}.

Definition zero_desc : video_desc :=
  {| desc_width := 0; desc_height := 0; desc_color_spec := VIDEO_CODEC_NONE;
     desc_fps := double_of_uint32 0; desc_interlacing := 0; desc_tile_count := 0 |}.

(** [new screen_cast_session()]: the default member initialisers. *)
Definition new_screen_cast_session : screen_cast_session :=
  {| in_flight_frame := None; blank_frames := []; sending_frames := [];
     desc := zero_desc; user_options := default_user_options;
     pw := {| fd := -1; node := u32 (-1); loop := None; context := None;
              stream := None; format := zero_video_info |} |}.

Definition set_in_flight_frame (v : unique_frame) (s : screen_cast_session) :=
  {| in_flight_frame := v; blank_frames := blank_frames s;
     sending_frames := sending_frames s; desc := desc s;
     user_options := user_options s; pw := pw s |}.

Definition set_blank_frames (v : list video_frame) (s : screen_cast_session) :=
  {| in_flight_frame := in_flight_frame s; blank_frames := v;
     sending_frames := sending_frames s; desc := desc s;
     user_options := user_options s; pw := pw s |}.

Definition set_sending_frames (v : list video_frame) (s : screen_cast_session) :=
  {| in_flight_frame := in_flight_frame s; blank_frames := blank_frames s;
     sending_frames := v; desc := desc s;
     user_options := user_options s; pw := pw s |}.

Definition set_desc (v : video_desc) (s : screen_cast_session) :=
  {| in_flight_frame := in_flight_frame s; blank_frames := blank_frames s;
     sending_frames := sending_frames s; desc := v;
     user_options := user_options s; pw := pw s |}.

Definition set_user_options (v : user_options_t) (s : screen_cast_session) :=
  {| in_flight_frame := in_flight_frame s; blank_frames := blank_frames s;
     sending_frames := sending_frames s; desc := desc s;
     user_options := v; pw := pw s |}.

Definition set_pw (v : pw_) (s : screen_cast_session) :=
  {| in_flight_frame := in_flight_frame s; blank_frames := blank_frames s;
     sending_frames := sending_frames s; desc := desc s;
     user_options := user_options s; pw := v |}.

Definition set_format (v : spa_video_info) (p : pw_) : pw_ :=
  {| fd := fd p; node := node p; loop := loop p; context := context p;
     stream := stream p; format := v |}.

(** ** The world around the session

    The calls into the frame allocator and into the external stream, and
    what grab hands to its caller, are recorded in the order they happen. *)

Inductive event : Type :=
| EvAlloc (id : nat)                    (* vf_alloc / vf_alloc_desc_data *)
| EvFree (id : nat)                     (* vf_free *)
| EvDequeue (b : pw_buffer)             (* pw_stream_dequeue_buffer returned b *)
| EvQueueBuffer (b : pw_buffer)         (* pw_stream_queue_buffer(stream, b) *)
| EvPush (f : video_frame)              (* sending_frames.push(f) returned *)
| EvGrab (f : unique_frame)             (* grab returned f *)
| EvUpdateParams (buffers_def buffers_min buffers_max blocks size stride : Z)
                 (crop_meta : bool).    (* pw_stream_update_params *)

Record world : Type := {
  session : screen_cast_session;
  next_frame_id : nat;                  (* frames allocated so far *)
  stream_ready : list pw_buffer;        (* what dequeue_buffer hands out next *)
  trace : list event                    (* oldest first *)
}.

Definition set_session (s : screen_cast_session) (w : world) : world :=
  {| session := s; next_frame_id := next_frame_id w;
     stream_ready := stream_ready w; trace := trace w |}.

Definition emit (e : event) (w : world) : world :=
  {| session := session w; next_frame_id := next_frame_id w;
     stream_ready := stream_ready w; trace := trace w ++ [e] |}.

Definition fresh_frame_id (w : world) : nat * world :=
  (next_frame_id w,
   emit (EvAlloc (next_frame_id w))
     {| session := session w; next_frame_id := S (next_frame_id w);
        stream_ready := stream_ready w; trace := trace w |}).

Definition vf_free (f : video_frame) (w : world) : world := emit (EvFree (frame_id f)) w.

Definition pw_stream_dequeue_buffer (w : world) : option pw_buffer * world :=
  match stream_ready w with
  | [] => (None, w)
  | b :: rest =>
      (Some b, emit (EvDequeue b)
                 {| session := session w; next_frame_id := next_frame_id w;
                    stream_ready := rest; trace := trace w |})
  end.

Definition pw_stream_queue_buffer (b : pw_buffer) (w : world) : world :=
  emit (EvQueueBuffer b) w.

(** ** The hand-off queue *)

(** Modelled from the spec: [synchronized_queue::push], declared in
    utils/synchronized_queue.h, is missing.  Section 3: "bounded FIFO of
    capacity 3"; section 4.2: a push on a queue at capacity waits (the other
    policy the spec allows, dropping the oldest item, is never needed: see
    [push_never_blocks]). *)
Definition synchronized_queue_push (max_len : Z) (q : list video_frame) (f : video_frame)
  : result (list video_frame) :=
  if Z.of_nat (List.length q) <? max_len then Ok (q ++ [f]) else Blocked.

(** Modelled from the spec: [synchronized_queue::timed_pop], declared in
    utils/synchronized_queue.h, is missing.  Section 4.2: it "blocks up to
    [duration]; returns the next frame in FIFO order or a timed out result".
    The time spent blocked comes with the outcome: nothing when an item is
    there, the whole timeout when none comes; a push that lands during the
    wait is an earlier step of the interleaving. *)
Definition synchronized_queue_timed_pop (q : list video_frame) (timeout_ms : Z)
  : option video_frame * list video_frame * Z :=
  match q with
  | f :: rest => (Some f, rest, 0)
  | [] => (None, [], timeout_ms)
  end.

(** ** Options: [parse_params] *)

Inductive vidcap_init_status : Type :=
| VIDCAP_INIT_OK
| VIDCAP_INIT_NOERR
| VIDCAP_INIT_FAIL
| VIDCAP_INIT_AUDIO_NOT_SUPPORTED.

(** What [parse_params] writes besides the options. *)
Inductive log_entry : Type :=
| LogHelp                                   (* show_help() *)
| LogInvalidOption (param : string). (* LOG_LEVEL_ERROR: invalid option *)

Module Str.

(** [std::getline(stream, param, delim)]: [None] when nothing is left to
    extract; otherwise the characters up to the delimiter, and what follows
    the delimiter. *)
Fixpoint getline_from (s : string) (delim : ascii) : string * string :=
  match s with
  | EmptyString => (EmptyString, EmptyString)
  | String c rest =>
      if Ascii.eqb c delim then (EmptyString, rest)
      else let '(tok, rem) := getline_from rest delim in (String c tok, rem)
  end.

Definition getline (s : string) (delim : ascii) : option (string * string) :=
  match s with
  | EmptyString => None
  | _ => Some (getline_from s delim)
  end.

(** [std::string::find(c)]: the index of the first [c], [None] for npos. *)
Fixpoint find (s : string) (c : ascii) : option nat :=
  match s with
  | EmptyString => None
  | String a rest =>
      if Ascii.eqb a c then Some O
      else match find rest c with Some n => Some (S n) | None => None end
  end.

(** [s.substr(pos)] *)
Fixpoint substr_from (s : string) (pos : nat) {struct pos} : string :=
  match pos with
  | O => s
  | S p =>
      match s with
      | String _ rest => substr_from rest p
      | EmptyString => EmptyString
      end
  end.

(** [s.substr(0, n)] *)
Fixpoint substr_to (s : string) (n : nat) : string :=
  match n, s with
  | S p, String c rest => String c (substr_to rest p)
  | _, _ => EmptyString
  end.

Definition isspace (c : ascii) : bool :=
  let n := nat_of_ascii c in
  Nat.eqb n 32 || (Nat.leb 9 n && Nat.leb n 13).

Definition digit_value (c : ascii) : option Z :=
  let n := nat_of_ascii c in
  if Nat.leb 48 n && Nat.leb n 57 then Some (Z.of_nat n - 48) else None.

Fixpoint skipws (s : string) : string :=
  match s with
  | String c rest => if isspace c then skipws rest else s
  | EmptyString => s
  end.

(** The decimal digits at the head of [s]: their count and their value
    after [acc]. *)
Fixpoint digits (s : string) (count : nat) (acc : Z) : nat * Z :=
  match s with
  | String c rest =>
      match digit_value c with
      | Some d => digits rest (S count) (10 * acc + d)
      | None => (count, acc)
      end
  | EmptyString => (count, acc)
  end.

(** [is >> v] for a [uint32_t] whose value was [old] (decimal, skipws).
    White space is skipped first; when nothing follows, the stream fails
    before anything is converted and [v] keeps its value.  Otherwise an
    optional sign and digits are converted.  No digit: the extraction fails
    and stores 0.  Too large: it fails and stores the maximum.  A minus sign
    negates in unsigned arithmetic.  The flag tells whether the extraction
    succeeded. *)
Definition extract_uint32 (s : string) (old : Z) : bool * Z :=
  match skipws s with
  | EmptyString => (false, old)
  | String c rest =>
      let '(negative, s) :=
        if Ascii.eqb c "-"%char then (true, rest)
        else if Ascii.eqb c "+"%char then (false, rest)
        else (false, String c rest) in
      let '(count, value) := digits s O 0 in
      if Nat.eqb count 0 then (false, 0)
      else if UINT32_MAX <? value then (false, UINT32_MAX)
      else (true, if negative then u32 (- value) else value)
  end.

(** The text reads as a number: after white space and an optional sign
    comes a decimal digit. *)
Definition parses_as_number (s : string) : bool :=
  match skipws s with
  | String c rest =>
      if Ascii.eqb c "-"%char || Ascii.eqb c "+"%char
      then match rest with
           | String d _ => match digit_value d with Some _ => true | None => false end
           | EmptyString => false
           end
      else match digit_value c with Some _ => true | None => false end
  | EmptyString => false
  end.

End Str.

Definition set_show_cursor (v : bool) (o : user_options_t) : user_options_t :=
  {| show_cursor := v; restore_file := restore_file o; fps := fps o; crop := crop o |}.
Definition set_crop (v : bool) (o : user_options_t) : user_options_t :=
  {| show_cursor := show_cursor o; restore_file := restore_file o; fps := fps o; crop := v |}.
Definition set_fps (v : Z) (o : user_options_t) : user_options_t :=
  {| show_cursor := show_cursor o; restore_file := restore_file o; fps := v; crop := crop o |}.
Definition set_restore_file (v : string) (o : user_options_t) : user_options_t :=
  {| show_cursor := show_cursor o; restore_file := v; fps := fps o; crop := crop o |}.

(** What one option does: go on with the next one, or return. *)
Inductive param_outcome : Type :=
| Continue (o : user_options_t)
| Return (status : vidcap_init_status) (entry : log_entry).

(** The body of the [while (std::getline(params_stream, param, ':'))] loop. *)
Definition parse_param (param : string) (o : user_options_t) : param_outcome :=
  if String.eqb param "help" then Return VIDCAP_INIT_NOERR LogHelp
  else if String.eqb param "cursor" then Continue (set_show_cursor true o)
  else if String.eqb param "nocrop" then Continue (set_crop false o)
  else
    let invalid := Return VIDCAP_INIT_FAIL (LogInvalidOption param) in
    match Str.find param "="%char with
    | Some split_index =>
        if Nat.eqb split_index 0 then invalid
        else
          let name := Str.substr_to param split_index in
          let value := Str.substr_from param (S split_index) in
          if String.eqb name "fps" || String.eqb name "FPS"
          then Continue (set_fps (snd (Str.extract_uint32 value (fps o))) o)
          else if String.eqb name "restore"
          then Continue (set_restore_file value o)
          else invalid
    | None => invalid
    end.

Fixpoint parse_params_loop (fuel : nat) (stream : string) (o : user_options_t)
  : vidcap_init_status * user_options_t * list log_entry :=
  match fuel with
  | O => (VIDCAP_INIT_OK, o, [])
  | S fuel' =>
      match Str.getline stream ":"%char with
      | None => (VIDCAP_INIT_OK, o, [])
      | Some (param, rest) =>
          match parse_param param o with
          | Continue o' => parse_params_loop fuel' rest o'
          | Return status entry => (status, o, [entry])
          end
      end
  end.

(** [fmt] is what [vidcap_params_get_fmt] returns, [None] for a null
    pointer.  Every [getline] that succeeds consumes a character, so the
    length of the text is fuel enough. *)
Definition parse_params (fmt : option string) (s : screen_cast_session)
  : vidcap_init_status * screen_cast_session * list log_entry :=
  match fmt with
  | Some text =>
      let '(status, o, logs) :=
        parse_params_loop (String.length text) text (user_options s) in
      (status, set_user_options o s, logs)
  | None => (VIDCAP_INIT_OK, s, [])
  end.

(** The options one after the other, as long as none of them returns. *)
Fixpoint apply_options (ps : list string) (o : user_options_t) : option user_options_t :=
  match ps with
  | [] => Some o
  | p :: rest =>
      match parse_param p o with
      | Continue o' => apply_options rest o'
      | Return _ _ => None
      end
  end.

(** ** Session start: [start_pipewire], [vidcap_screen_pw_init] *)

(** The [SPA_PARAM_EnumFormat] object handed to [pw_stream_connect]. *)
Record enum_format : Type := {
  ef_formats : list spa_video_format;
  ef_size_def : spa_rectangle;
  ef_size_min : spa_rectangle;
  ef_size_max : spa_rectangle;
  ef_framerate_def : spa_fraction;
  ef_framerate_min : spa_fraction;
  ef_framerate_max : spa_fraction
}.

Definition SPA_RECTANGLE (w h : Z) : spa_rectangle := {| rect_width := w; rect_height := h |}.
Definition SPA_FRACTION (n d : Z) : spa_fraction := {| num := n; denom := d |}.

Definition framerate_def (s : screen_cast_session) : spa_fraction :=
  SPA_FRACTION (if fps (user_options s) >? 0 then fps (user_options s)
                else DEFAULT_EXPECTING_FPS) 1.

(** [connect_res] is what [pw_stream_connect] returns.  The loop, the
    context and the stream are created before (their asserts hold). *)
Definition start_pipewire (s : screen_cast_session) (connect_res : Z)
  : Z * screen_cast_session * enum_format :=
  let p := pw s in
  let s' := set_pw {| fd := fd p; node := node p; loop := Some 0%nat;
                      context := Some 1%nat; stream := Some 2%nat;
                      format := format p |} s in
  let params :=
    {| ef_formats := [SPA_VIDEO_FORMAT_UYVY; SPA_VIDEO_FORMAT_RGB;
                      SPA_VIDEO_FORMAT_RGBA; SPA_VIDEO_FORMAT_RGBx;
                      SPA_VIDEO_FORMAT_YUY2; SPA_VIDEO_FORMAT_BGRA;
                      SPA_VIDEO_FORMAT_BGRx];
       ef_size_def := SPA_RECTANGLE 1920 1080;
       ef_size_min := SPA_RECTANGLE 1 1;
       ef_size_max := SPA_RECTANGLE 3840 2160;
       ef_framerate_def := framerate_def s;
       ef_framerate_min := SPA_FRACTION 0 1;
       ef_framerate_max := SPA_FRACTION 600 1 |} in
  (if connect_res <? 0 then -1 else 0, s', params).

Definition new_world : world :=
  {| session := new_screen_cast_session; next_frame_id := 0;
     stream_ready := []; trace := [] |}.

(** [for(int i = 0; i < QUEUE_SIZE; i++)
       session.blank_frames.emplace_back(vf_alloc(1));] *)
Fixpoint alloc_blank_frames (n : nat) (w : world) : world :=
  match n with
  | O => w
  | S n' =>
      let '(id, w1) := fresh_frame_id w in
      let s := session w1 in
      alloc_blank_frames n'
        (set_session (set_blank_frames (blank_frames s ++ [vf_alloc id 1]) s) w1)
  end.

Record init_result : Type := {
  init_status : vidcap_init_status;
  init_state : option world;              (* what *state points to *)
  init_logs : list log_entry;
  init_advertised : option enum_format    (* what the stream was connected with *)
}.

(** [audio]: VIDCAP_FLAG_AUDIO_ANY is set.  [portal_fd], [portal_node]:
    the result of the portal.  [connect_res]: as in [start_pipewire]. *)
Definition vidcap_screen_pw_init (audio : bool) (fmt : option string)
    (portal_fd portal_node connect_res : Z) : init_result :=
  if audio then
    {| init_status := VIDCAP_INIT_AUDIO_NOT_SUPPORTED; init_state := None;
       init_logs := []; init_advertised := None |}
  else
    let '(params_ok, s, logs) := parse_params fmt new_screen_cast_session in
    let w := set_session s new_world in
    match params_ok with
    | VIDCAP_INIT_OK =>
        let w := alloc_blank_frames (Z.to_nat QUEUE_SIZE) w in
        if portal_fd =? -1 then
          {| init_status := VIDCAP_INIT_FAIL; init_state := Some w;
             init_logs := logs; init_advertised := None |}
        else
          let s := session w in
          let p := pw s in
          let s := set_pw {| fd := portal_fd; node := portal_node; loop := loop p;
                             context := context p; stream := stream p;
                             format := format p |} s in
          let '(_, s, params) := start_pipewire s connect_res in
          {| init_status := VIDCAP_INIT_OK; init_state := Some (set_session s w);
             init_logs := logs; init_advertised := Some params |}
    | _ =>
        {| init_status := params_ok; init_state := Some w;
           init_logs := logs; init_advertised := None |}
    end.

(** ** Format negotiation: [on_stream_param_changed] *)

Definition SPA_PARAM_Format : Z := 4.
Definition SPA_MEDIA_TYPE_video : Z := 2.
Definition SPA_MEDIA_SUBTYPE_raw : Z := 1.

(** What [spa_format_parse] and [spa_format_video_raw_parse] read from the
    pod. *)
Record spa_pod : Type := {
  pod_media_type : Z;
  pod_media_subtype : Z;
  pod_raw : spa_video_info_raw
}.

(** [static_cast<double>(num) / denom], [num] and [denom] being [uint32_t]:
    the division of binary64, rounded to the nearest [double]; a
    denominator of 0 gives infinity (NaN when the numerator is 0 too). *)
Definition fps_of_fraction (f : spa_fraction) : double :=
  PrimFloat.div (double_of_uint32 (num f)) (double_of_uint32 (denom f)).

Section Negotiation.
Context {CI : codec_info}.

Definition on_stream_param_changed (w : world) (id : Z) (param : option spa_pod) : world :=
  match param with
  | None => w
  | Some pod =>
      if negb (id =? SPA_PARAM_Format) then w
      else
        let s := session w in
        let parsed := {| media_type := pod_media_type pod;
                         media_subtype := pod_media_subtype pod;
                         info_raw := info_raw (format (pw s)) |} in
        let s := set_pw (set_format parsed (pw s)) s in
        if negb (media_type parsed =? SPA_MEDIA_TYPE_video)
           || negb (media_subtype parsed =? SPA_MEDIA_SUBTYPE_raw)
        then set_session s w
        else
          let raw_format := pod_raw pod in
          let s := set_pw (set_format {| media_type := media_type parsed;
                                         media_subtype := media_subtype parsed;
                                         info_raw := raw_format |} (pw s)) s in
          let rate :=
            if negb (num (info_framerate raw_format) =? 0)
            then fps_of_fraction (info_framerate raw_format)
            else if negb (num (info_max_framerate raw_format) =? 0)
            then fps_of_fraction (info_max_framerate raw_format)
            else double_of_uint32 60 in
          let d := {| desc_width := rect_width (info_size raw_format);
                      desc_height := rect_height (info_size raw_format);
                      desc_color_spec := uv_codec_from_pw_fmt (info_format raw_format);
                      desc_fps := rate;
                      desc_interlacing := PROGRESSIVE;
                      desc_tile_count := 1 |} in
          let linesize := vc_get_linesize (desc_width d) (desc_color_spec d) in
          let size := s32 (linesize * desc_height d) in
          emit (EvUpdateParams DEFAULT_BUFFERS_PW MIN_BUFFERS_PW MAX_BUFFERS_PW 1
                  size linesize (crop (user_options s)))
               (set_session (set_desc d s) w)
  end.

End Negotiation.

(** ** Buffer delivery: [on_process] *)

(** [v.back()] and [v.pop_back()] of a vector that is not empty. *)
Fixpoint pop_back {A : Type} (v : list A) : option (A * list A) :=
  match v with
  | [] => None
  | x :: rest =>
      match pop_back rest with
      | None => Some (x, [])
      | Some (y, rest') => Some (y, x :: rest')
      end
  end.

(** How the first part of a loop iteration ends. *)
Inductive acquired : Type :=
| NoBuffer                  (* dequeue_buffer returned nullptr: the loop ends *)
| Dropped                   (* the buffer went back to the service: continue *)
| Got (buffer : pw_buffer) (sb : spa_buffer) (next_frame : video_frame).

Definition empty_payload (d : spa_data) : bool :=
  match chunk d with
  | None => true
  | Some c => chunk_size c =? 0
  end.

(** From [pw_stream_dequeue_buffer] to the frame taken from the pool under
    the mutex, or to one of the two [continue]s. *)
Definition on_process_acquire (w : world) : result (acquired * world) :=
  match pw_stream_dequeue_buffer w with
  | (None, w) => Ok (NoBuffer, w)
  | (Some b, w) =>
      match buffer b with
      | None => Abort
      | Some sb =>
          match datas sb with
          | [d] =>
              do _ <- assert (match data d with Some _ => true | None => false end);
              if empty_payload d
              then Ok (Dropped, pw_stream_queue_buffer b w)
              else
                match pop_back (blank_frames (session w)) with
                | Some (next_frame, rest) =>
                    Ok (Got b sb next_frame,
                        set_session (set_blank_frames rest (session w)) w)
                | None => Ok (Dropped, pw_stream_queue_buffer b w)
                end
          | _ => Abort
          end
      end
  end.

Definition crop_region_of (s : screen_cast_session) (sb : spa_buffer) : option spa_region :=
  if crop (user_options s)
  then match video_crop_meta sb with
       | Some meta_crop_region =>
           if spa_meta_region_is_valid meta_crop_region
           then Some (region meta_crop_region) else None
       | None => None
       end
  else None.

Definition set_desc_size (width height : Z) (d : video_desc) : video_desc :=
  {| desc_width := width; desc_height := height;
     desc_color_spec := desc_color_spec d; desc_fps := desc_fps d;
     desc_interlacing := desc_interlacing d; desc_tile_count := desc_tile_count d |}.

Section Delivery.
Context {CI : codec_info}.

(** [next_frame.reset(vf_alloc_desc_data(session.desc))]: the new frame is
    allocated, then the old one goes to the deleter. *)
Definition reset_frame (next_frame : video_frame) (w : world) : video_frame * world :=
  let '(id, w) := fresh_frame_id w in
  (vf_alloc_desc_data id (desc (session w)), vf_free next_frame w).

(** [if(crop_region){ session.desc.width = ...; session.desc.height = ...; }] *)
Definition desc_for_crop (crop_region : option spa_region) (d : video_desc) : video_desc :=
  match crop_region with
  | Some cr => set_desc_size (rect_width (region_size cr)) (rect_height (region_size cr)) d
  | None => d
  end.

(** From the crop rectangle to the converted frame. *)
Definition on_process_fill (sb : spa_buffer) (next_frame : video_frame) (w : world)
  : result (video_frame * world) :=
  let crop_region := crop_region_of (session w) sb in
  let s := set_desc (desc_for_crop crop_region (desc (session w))) (session w) in
  let w := set_session s w in
  let '(next_frame, w) :=
    if negb (video_desc_eq (video_desc_from_frame next_frame) (desc s))
    then reset_frame next_frame w
    else (next_frame, w) in
  let raw_format := info_raw (format (pw s)) in
  do filled <- pw_frame_to_uv_frame_memcpy next_frame sb (info_format raw_format)
                 (info_size raw_format) crop_region;
  Ok (filled, w).

(** [sending_frames.push] and the return of the external buffer. *)
Definition on_process_push (buffer : pw_buffer) (next_frame : video_frame) (w : world)
  : result world :=
  do q <- synchronized_queue_push QUEUE_SIZE (sending_frames (session w)) next_frame;
  Ok (pw_stream_queue_buffer buffer
        (emit (EvPush next_frame)
           (set_session (set_sending_frames q (session w)) w))).

(** One turn of the [while] loop; the flag tells whether the loop goes on. *)
Definition on_process_iteration (w : world) : result (bool * world) :=
  do aw <- on_process_acquire w;
  match fst aw with
  | NoBuffer => Ok (false, snd aw)
  | Dropped => Ok (true, snd aw)
  | Got buffer sb next_frame =>
      do fw <- on_process_fill sb next_frame (snd aw);
      do w' <- on_process_push buffer (fst fw) (snd fw);
      Ok (true, w')
  end.

Fixpoint on_process_loop (fuel : nat) (w : world) : result world :=
  match fuel with
  | O => Ok w
  | S fuel' =>
      do r <- on_process_iteration w;
      if fst r then on_process_loop fuel' (snd r) else Ok (snd r)
  end.

(** Every turn takes one buffer from the stream and the last one finds
    none: one more turn than there are buffers. *)
Definition on_process (w : world) : result world :=
  on_process_loop (S (List.length (stream_ready w))) w.

End Delivery.



(** ** The pull side: [vidcap_screen_pw_grab] *)

Definition GRAB_TIMEOUT_MS : Z := 500.

(** [if(session.in_flight_frame.get() != nullptr)
       session.blank_frames.push_back(std::move(session.in_flight_frame));] *)
Definition grab_return_in_flight (w : world) : world :=
  let s := session w in
  match in_flight_frame s with
  | Some f =>
      set_session (set_in_flight_frame None (set_blank_frames (blank_frames s ++ [f]) s)) w
  | None => w
  end.

(** [timed_pop(session.in_flight_frame, 500ms)] and the return.  On success
    the move assignment into [in_flight_frame] gives what it held, if
    anything, to the deleter; on a timeout it is left as it is.  The result
    is the returned pointer and the time spent blocked. *)
Definition grab_timed_pop (w : world) : (unique_frame * Z) * world :=
  let s := session w in
  let '(popped, rest, waited) :=
    synchronized_queue_timed_pop (sending_frames s) GRAB_TIMEOUT_MS in
  let w' :=
    match popped with
    | Some f =>
        let w1 := match in_flight_frame s with
                  | Some old => vf_free old w
                  | None => w
                  end in
        set_session (set_in_flight_frame (Some f) (set_sending_frames rest s)) w1
    | None => w
    end in
  let ret := in_flight_frame (session w') in
  ((ret, waited), emit (EvGrab ret) w').

Definition vidcap_screen_pw_grab (w : world) : (unique_frame * Z) * world :=
  grab_timed_pop (grab_return_in_flight w).

(** ** The two threads

    The handler runs on the thread of the external loop, grab on the thread
    of the caller.  The handler takes a frame from the pool under
    [session.mut]; grab gives its frame back to the pool with a [push_back]
    that takes no lock.  So the [push_back] is not one step: it begins
    ([GrabEnter]) and it ends ([GrabReturn]), and the handler can run in
    between.  When the handler comes to the pool in between, the two
    threads are in [blank_frames] at once and one of them writes: a data
    race, after which the program has no defined behaviour. *)

Inductive handler_pc : Type :=
| Idle
| Acquired (buffer : pw_buffer) (sb : spa_buffer) (next_frame : video_frame)
| Filled (buffer : pw_buffer) (next_frame : video_frame).

Inductive grab_pc : Type :=
| Outside
| Returning     (* in the push_back of the in-flight frame, when there is one *)
| Waiting.      (* between the return of the in-flight frame and timed_pop *)

Record system : Type := {
  sys_world : world;
  handler : handler_pc;
  grabber : grab_pc
}.

Inductive label : Type :=
| Deliver (b : pw_buffer)                          (* the service has a buffer ready *)
| ParamChanged (id : Z) (param : option spa_pod)   (* on_stream_param_changed *)
| Acquire | Fill | Push                            (* on_process *)
| GrabEnter | GrabReturn | GrabPop.                (* vidcap_screen_pw_grab *)

Definition deliver (b : pw_buffer) (w : world) : world :=
  {| session := session w; next_frame_id := next_frame_id w;
     stream_ready := stream_ready w ++ [b]; trace := trace w |}.

(** grab is in its [push_back]: it has begun to give a frame back. *)
Definition pushing_back (s : system) : bool :=
  match grabber s, in_flight_frame (session (sys_world s)) with
  | Returning, Some _ => true
  | _, _ => false
  end.

(** The turn of the loop that begins now comes to the pool, that is to the
    [lock_guard] and [blank_frames.empty()]: a buffer is ready, it passes
    the asserts and its payload is not empty. *)
Definition comes_to_pool (w : world) : bool :=
  match stream_ready w with
  | b :: _ =>
      match buffer b with
      | Some sb =>
          match datas sb with
          | [d] =>
              match data d with
              | Some _ => negb (empty_payload d)
              | None => false
              end
          | _ => false
          end
      | None => false
      end
  | [] => false
  end.

Section Interleaving.
Context {CI : codec_info}.

(** [Blocked] also stands for a step its thread cannot take now;
    [Undefined] for the handler in the pool while grab writes to it. *)
Definition step (l : label) (s : system) : result system :=
  let w := sys_world s in
  match l with
  | Deliver b =>
      Ok {| sys_world := deliver b w; handler := handler s; grabber := grabber s |}
  | ParamChanged id param =>
      match handler s with
      | Idle => Ok {| sys_world := on_stream_param_changed w id param;
                      handler := Idle; grabber := grabber s |}
      | _ => Blocked
      end
  | Acquire =>
      match handler s with
      | Idle =>
          if pushing_back s && comes_to_pool w then Undefined
          else
          do aw <- on_process_acquire w;
          Ok {| sys_world := snd aw;
                handler := match fst aw with
                           | Got buffer sb next_frame => Acquired buffer sb next_frame
                           | _ => Idle
                           end;
                grabber := grabber s |}
      | _ => Blocked
      end
  | Fill =>
      match handler s with
      | Acquired buffer sb next_frame =>
          do fw <- on_process_fill sb next_frame w;
          Ok {| sys_world := snd fw; handler := Filled buffer (fst fw);
                grabber := grabber s |}
      | _ => Blocked
      end
  | Push =>
      match handler s with
      | Filled buffer next_frame =>
          do w' <- on_process_push buffer next_frame w;
          Ok {| sys_world := w'; handler := Idle; grabber := grabber s |}
      | _ => Blocked
      end
  | GrabEnter =>
      match grabber s with
      | Outside => Ok {| sys_world := w; handler := handler s; grabber := Returning |}
      | _ => Blocked
      end
  | GrabReturn =>
      match grabber s with
      | Returning => Ok {| sys_world := grab_return_in_flight w; handler := handler s;
                           grabber := Waiting |}
      | _ => Blocked
      end
  | GrabPop =>
      match grabber s with
      | Waiting => Ok {| sys_world := snd (grab_timed_pop w); handler := handler s;
                         grabber := Outside |}
      | _ => Blocked
      end
  end.

Fixpoint run (sched : list label) (s : system) : result system :=
  match sched with
  | [] => Ok s
  | l :: rest => do s' <- step l s; run rest s'
  end.

End Interleaving.

(** The session as [vidcap_screen_pw_init] leaves it when it succeeds. *)
Definition started (fmt : option string) (portal_fd portal_node : Z) : option system :=
  let r := vidcap_screen_pw_init false fmt portal_fd portal_node 0 in
  match init_status r, init_state r with
  | VIDCAP_INIT_OK, Some w => Some {| sys_world := w; handler := Idle; grabber := Outside |}
  | _, _ => None
  end.

(** ** Observations on a trace *)

Definition freed_ids (t : list event) : list nat :=
  flat_map (fun e => match e with EvFree id => [id] | _ => [] end) t.

Definition allocated_ids (t : list event) : list nat :=
  flat_map (fun e => match e with EvAlloc id => [id] | _ => [] end) t.

Definition pushed_frames (t : list event) : list video_frame :=
  flat_map (fun e => match e with EvPush f => [f] | _ => [] end) t.

Definition grabbed_frames (t : list event) : list video_frame :=
  flat_map (fun e => match e with EvGrab (Some f) => [f] | _ => [] end) t.

(** The traffic with the external stream: dequeues and returns. *)
Definition stream_calls (t : list event) : list event :=
  filter (fun e => match e with EvDequeue _ | EvQueueBuffer _ => true | _ => false end) t.

Definition handler_frames (h : handler_pc) : list video_frame :=
  match h with
  | Idle => []
  | Acquired _ _ f => [f]
  | Filled _ f => [f]
  end.

Definition in_flight_frames (s : screen_cast_session) : list video_frame :=
  match in_flight_frame s with Some f => [f] | None => [] end.

(** Every frame some part of the program holds, place by place: the pool,
    the hand-off queue, the in-flight slot, the handler. *)
Definition owned (s : system) : list video_frame :=
  blank_frames (session (sys_world s))
  ++ sending_frames (session (sys_world s))
  ++ in_flight_frames (session (sys_world s))
  ++ handler_frames (handler s).

(** ** Who holds which frame

    What the steps of the two threads do to the frames, without the pixels:
    the pool, the queue, the in-flight slot, the frame in the hands of the
    handler, the frames freed so far, the number allocated so far, the
    frames pushed and grabbed so far, where grab is, the descriptor. *)

Inductive holdings : Type :=
| Hold (pool queue in_flight filling : list video_frame) (freed : list nat)
       (allocated : nat) (pushed grabbed : list video_frame) (g : grab_pc)
       (d : video_desc).

Definition holdings_of (s : system) : holdings :=
  Hold (blank_frames (session (sys_world s)))
       (sending_frames (session (sys_world s)))
       (in_flight_frames (session (sys_world s)))
       (handler_frames (handler s))
       (freed_ids (trace (sys_world s)))
       (next_frame_id (sys_world s))
       (pushed_frames (trace (sys_world s)))
       (grabbed_frames (trace (sys_world s)))
       (grabber s)
       (desc (session (sys_world s))).

Inductive moves : label -> holdings -> holdings -> Prop :=
| Move_deliver b h :
    moves (Deliver b) h h
| Move_param_changed id param bl sn fl hd fr nx pu gr g d d' :
    moves (ParamChanged id param)
          (Hold bl sn fl hd fr nx pu gr g d) (Hold bl sn fl hd fr nx pu gr g d')
| Move_acquire_nothing h :
    moves Acquire h h
| Move_acquire f bl sn fl fr nx pu gr g d :
    moves Acquire
          (Hold (bl ++ [f]) sn fl [] fr nx pu gr g d)
          (Hold bl sn fl [f] fr nx pu gr g d)
| Move_fill_keep f f' bl sn fl fr nx pu gr g d d' :
    video_desc_eq (video_desc_from_frame f) d' = true ->
    frame_id f' = frame_id f ->
    moves Fill
          (Hold bl sn fl [f] fr nx pu gr g d)
          (Hold bl sn fl [f'] fr nx pu gr g d')
| Move_fill_realloc f f' bl sn fl fr nx pu gr g d d' :
    video_desc_eq (video_desc_from_frame f) d' = false ->
    frame_id f' = nx ->
    moves Fill
          (Hold bl sn fl [f] fr nx pu gr g d)
          (Hold bl sn fl [f'] (fr ++ [frame_id f]) (S nx) pu gr g d')
| Move_push f bl sn fl fr nx pu gr g d :
    (List.length sn < 3)%nat ->
    moves Push
          (Hold bl sn fl [f] fr nx pu gr g d)
          (Hold bl (sn ++ [f]) fl [] fr nx (pu ++ [f]) gr g d)
| Move_grab_enter bl sn fl hd fr nx pu gr d :
    moves GrabEnter
          (Hold bl sn fl hd fr nx pu gr Outside d)
          (Hold bl sn fl hd fr nx pu gr Returning d)
| Move_grab_return bl sn fl hd fr nx pu gr d :
    moves GrabReturn
          (Hold bl sn fl hd fr nx pu gr Returning d)
          (Hold (bl ++ fl) sn [] hd fr nx pu gr Waiting d)
| Move_grab_pop f bl sn hd fr nx pu gr d :
    moves GrabPop
          (Hold bl (f :: sn) [] hd fr nx pu gr Waiting d)
          (Hold bl sn [f] hd fr nx pu (gr ++ [f]) Outside d)
| Move_grab_timeout bl hd fr nx pu gr d :
    moves GrabPop
          (Hold bl [] [] hd fr nx pu gr Waiting d)
          (Hold bl [] [] hd fr nx pu gr Outside d).

(** Nothing is in flight while grab waits on the queue. *)
Definition grab_ready (s : system) : Prop :=
  grabber s = Waiting -> in_flight_frame (session (sys_world s)) = None.

(** Every frame allocated so far is held in exactly one place or was freed,
    once; exactly [QUEUE_SIZE] frames are held; every frame pushed was
    grabbed, in the order of the pushes, or waits in the queue. *)
Definition accounted (h : holdings) : Prop :=
  match h with
  | Hold bl sn fl hd fr nx pu gr g d =>
      (forall id,
          count_occ Nat.eq_dec (map frame_id (bl ++ sn ++ fl ++ hd) ++ fr) id
          = if (id <? nx)%nat then 1%nat else 0%nat)
      /\ List.length (bl ++ sn ++ fl ++ hd) = Z.to_nat QUEUE_SIZE
      /\ nx = (Z.to_nat QUEUE_SIZE + List.length fr)%nat
      /\ (g = Waiting -> fl = [])
      /\ (List.length fl <= 1)%nat
      /\ pu = gr ++ sn
  end.

(** The frames held whose shape is not the descriptor's: those the handler
    would reallocate if it pulled them now. *)
Definition mismatches (d : video_desc) (f : video_frame) : bool :=
  negb (video_desc_eq (video_desc_from_frame f) d).

Definition stale_of (h : holdings) : nat :=
  match h with
  | Hold bl sn fl hd _ _ _ _ _ d =>
      List.length (filter (mismatches d) (bl ++ sn ++ fl ++ hd))
  end.

Definition freed_of (h : holdings) : list nat :=
  match h with Hold _ _ _ _ fr _ _ _ _ _ => fr end.

Definition desc_of (h : holdings) : video_desc :=
  match h with Hold _ _ _ _ _ _ _ _ _ d => d end.

Definition filling_of (h : holdings) : list video_frame :=
  match h with Hold _ _ _ hd _ _ _ _ _ _ => hd end.

(** The frame a step gives to the deleter: the one the handler pulled,
    when the step is the conversion and the shape of the frame is not the
    descriptor's. *)
Definition reallocated (l : label) (h h' : holdings) : list nat :=
  match l, filling_of h with
  | Fill, [f] =>
      if video_desc_eq (video_desc_from_frame f) (desc_of h') then []
      else [frame_id f]
  | _, _ => []
  end.

Definition stale (s : system) : nat := stale_of (holdings_of s).

(** A step under which the negotiated shape stays what it is: no format
    negotiation, and a conversion whose output size (the crop of the buffer,
    or the negotiated size without one) is the size of the descriptor. *)
Definition steady (l : label) (s : system) : Prop :=
  match l with
  | ParamChanged _ _ => False
  | Fill =>
      match handler s with
      | Acquired _ sb _ =>
          let ss := session (sys_world s) in
          let size := info_size (info_raw (format (pw ss))) in
          let crop_region := crop_region_of ss sb in
          out_width size crop_region = desc_width (desc ss)
          /\ out_height size crop_region = desc_height (desc ss)
      | _ => True
      end
  | _ => True
  end.

Section Reachable.
Context {CI : codec_info}.

Fixpoint steady_run (sched : list label) (s : system) : Prop :=
  match sched with
  | [] => True
  | l :: rest =>
      steady l s
      /\ match step l s with
         | Ok s' => steady_run rest s'
         | _ => True
         end
  end.

(** The states the two threads can bring a started session to. *)
Definition reachable (s : system) : Prop :=
  exists fmt portal_fd portal_node s0 sched,
    started fmt portal_fd portal_node = Some s0 /\ run sched s0 = Ok s.

End Reachable.

(** ** Teardown: [~pw_] *)

Inductive pw_call : Type :=
| Call_pw_thread_loop_stop
| Call_pw_stream_destroy
| Call_pw_context_destroy
| Call_pw_thread_loop_destroy
| Call_close (fd : Z).

Definition is_set (h : handle) : bool := match h with Some _ => true | None => false end.

(** The calls the destructor makes, in order. *)
Definition pw_destructor (p : pw_) : list pw_call :=
  (if is_set (loop p)
   then [Call_pw_thread_loop_stop]
        ++ (if is_set (stream p) then [Call_pw_stream_destroy] else [])
        ++ (if is_set (context p) then [Call_pw_context_destroy] else [])
        ++ (if is_set (loop p) then [Call_pw_thread_loop_destroy] else [])
   else [])
  ++ (if fd p >? 0 then [Call_close (fd p)] else []).

(** Modelled from the spec: the thread loop of the external service.
    Section 5: stopping the external event loop guarantees that no further
    callbacks fire.  The loop thread invokes a handler only while the loop
    runs and the stream exists. *)
Record service : Type := {
  loop_running : bool;
  stream_exists : bool;
  context_exists : bool;
  loop_exists : bool;
  handlers_invoked : nat
}.

(** Modelled from the spec: what the calls of the destructor do to the
    external service (section 3, Session lifecycle). *)
Definition service_call (c : pw_call) (v : service) : service :=
  match c with
  | Call_pw_thread_loop_stop =>
      {| loop_running := false; stream_exists := stream_exists v;
         context_exists := context_exists v; loop_exists := loop_exists v;
         handlers_invoked := handlers_invoked v |}
  | Call_pw_stream_destroy =>
      {| loop_running := loop_running v; stream_exists := false;
         context_exists := context_exists v; loop_exists := loop_exists v;
         handlers_invoked := handlers_invoked v |}
  | Call_pw_context_destroy =>
      {| loop_running := loop_running v; stream_exists := stream_exists v;
         context_exists := false; loop_exists := loop_exists v;
         handlers_invoked := handlers_invoked v |}
  | Call_pw_thread_loop_destroy =>
      {| loop_running := false; stream_exists := stream_exists v;
         context_exists := context_exists v; loop_exists := false;
         handlers_invoked := handlers_invoked v |}
  | Call_close _ => v
  end.

(** Modelled from the spec: the loop thread tries to invoke a stream event
    handler; it can while the loop runs (section 5). *)
Definition dispatch (v : service) : service :=
  if loop_running v && stream_exists v
  then {| loop_running := loop_running v; stream_exists := stream_exists v;
          context_exists := context_exists v; loop_exists := loop_exists v;
          handlers_invoked := S (handlers_invoked v) |}
  else v.

(** A timeline: calls of the destructor, and attempts of the loop thread
    in between. *)
Inductive moment : Type :=
| Call (c : pw_call)
| Attempt.

Definition moment_step (v : service) (m : moment) : service :=
  match m with
  | Call c => service_call c v
  | Attempt => dispatch v
  end.

Definition timeline_run (tl : list moment) (v : service) : service :=
  fold_left moment_step tl v.

Definition calls_of (tl : list moment) : list pw_call :=
  flat_map (fun m => match m with Call c => [c] | Attempt => [] end) tl.

(** The position of the first occurrence of a call. *)
Fixpoint index_of (c : pw_call) (l : list pw_call) : option nat :=
  match l with
  | [] => None
  | x :: rest =>
      if match x, c with
         | Call_pw_thread_loop_stop, Call_pw_thread_loop_stop
         | Call_pw_stream_destroy, Call_pw_stream_destroy
         | Call_pw_context_destroy, Call_pw_context_destroy
         | Call_pw_thread_loop_destroy, Call_pw_thread_loop_destroy => true
         | Call_close a, Call_close b => a =? b
         | _, _ => false
         end
      then Some O
      else option_map S (index_of c rest)
  end.

(** Where both are called, [a] is called before [b]. *)
Definition in_order (a b : pw_call) (l : list pw_call) : Prop :=
  forall i j, index_of a l = Some i -> index_of b l = Some j -> (i < j)%nat.

Definition called (a : pw_call) (l : list pw_call) : Prop :=
  exists i, index_of a l = Some i.

(** The service while the session captures. *)
Definition capturing (p : pw_) (invoked : nat) : service :=
  {| loop_running := is_set (loop p); stream_exists := is_set (stream p);
     context_exists := is_set (context p); loop_exists := is_set (loop p);
     handlers_invoked := invoked |}.

(** ** Concrete inputs *)

Module Ex.

(** A codec table with four bytes per pixel whatever the codec, every
    format mapped to codec 1. *)
Definition four_bytes : codec_info :=
  {| vc_get_linesize := fun w _ => 4 * w; uv_codec_from_pw_fmt := fun _ => 1 |}.

Definition bytes_of (l : list Z) : bytes := map byte.of_Z l.

(** An image of 3 x 2 pixels, 12 bytes per row. *)
Definition image : bytes :=
  bytes_of [ 1;  2;  3;  4;    5;  6;  7;  8;    9; 10; 11; 12;
            13; 14; 15; 16;   17; 18; 19; 20;   21; 22; 23; 24].

Definition chunk_with_stride (stride : Z) : spa_chunk :=
  {| chunk_offset := 0; chunk_size := 24; chunk_stride := stride |}.

Definition image_size : spa_rectangle := SPA_RECTANGLE 3 2.

Definition desc_of (w h : Z) : video_desc :=
  {| desc_width := w; desc_height := h; desc_color_spec := 1; desc_fps := double_of_uint32 60;
     desc_interlacing := PROGRESSIVE; desc_tile_count := 1 |}.

(** A frame of 2 x 1 pixels. *)
Definition frame_2x1 : video_frame := @vf_alloc_desc_data four_bytes 7 (desc_of 2 1).

(** The negotiated format: RGBA, 3 x 2, 60 frames per second. *)
Definition pod_rgba : spa_pod :=
  {| pod_media_type := SPA_MEDIA_TYPE_video;
     pod_media_subtype := SPA_MEDIA_SUBTYPE_raw;
     pod_raw := {| info_format := SPA_VIDEO_FORMAT_RGBA;
                   info_size := image_size;
                   info_framerate := SPA_FRACTION 60 1;
                   info_max_framerate := SPA_FRACTION 0 1 |} |}.

(** Buffer [n] of the service, holding the image, without crop metadata. *)
Definition full_buffer (n : nat) : pw_buffer :=
  {| pw_buffer_id := n;
     buffer := Some (buffer_of None image (chunk_with_stride 12)) |}.

(** A buffer whose chunk is empty. *)
Definition empty_buffer (n : nat) : pw_buffer :=
  {| pw_buffer_id := n;
     buffer := Some (buffer_of None image
                       {| chunk_offset := 0; chunk_size := 0; chunk_stride := 12 |}) |}.

(** The session right after init, without options. *)
Definition init : system :=
  match started None 5 6 with
  | Some s => s
  | None => {| sys_world := new_world; handler := Idle; grabber := Outside |}
  end.

(** The session after the format negotiation. *)
Definition negotiated : system :=
  match @run four_bytes [ParamChanged SPA_PARAM_Format (Some pod_rgba)] init with
  | Ok s => s
  | _ => init
  end.

(** Negotiation, then one buffer delivered and converted. *)
Definition one_delivery : list label :=
  [ParamChanged SPA_PARAM_Format (Some pod_rgba); Deliver (full_buffer 0);
   Acquire; Fill].

(** Negotiation, then two buffers delivered one after the other and
    both converted and pushed. *)
Definition two_deliveries : list label :=
  [ParamChanged SPA_PARAM_Format (Some pod_rgba);
   Deliver (full_buffer 0); Deliver (full_buffer 1);
   Acquire; Fill; Push; Acquire; Fill; Push].

(** The two deliveries, for a session already negotiated. *)
Definition next_two_deliveries : list label :=
  [Deliver (full_buffer 0); Deliver (full_buffer 1);
   Acquire; Fill; Push; Acquire; Fill; Push].

(** Two deliveries with two grabs in between and after. *)
Definition capture : list label :=
  [ParamChanged SPA_PARAM_Format (Some pod_rgba);
   Deliver (full_buffer 0); Deliver (full_buffer 1);
   Acquire; Fill; Push; GrabEnter; Acquire; GrabReturn; Fill; GrabPop; Push;
   GrabEnter; GrabReturn; GrabPop].

(** A world whose pool is empty: one frame in flight, two in the queue. *)
Definition exhausted (ready : list pw_buffer) : world :=
  {| session :=
       set_in_flight_frame (Some (vf_alloc 0 1))
         (set_sending_frames [vf_alloc 1 1; vf_alloc 2 1] new_screen_cast_session);
     next_frame_id := 3; stream_ready := ready; trace := [] |}.

End Ex.

(** * Logging and memory dumps (debug.cpp) *)

(** debug.h (the log levels), utils/color_out.h ([BOLD]) and the C library
    of the platform (the range of [long], the text [%p] gives a pointer) are
    outside debug.cpp: the development is parametric in them. *)
Class host : Type := {
  LOG_LEVEL_QUIET : Z;
  LOG_LEVEL_FATAL : Z;
  LOG_LEVEL_ERROR : Z;
  LOG_LEVEL_WARNING : Z;
  LOG_LEVEL_NOTICE : Z;
  LOG_LEVEL_INFO : Z;
  LOG_LEVEL_VERBOSE : Z;
  LOG_LEVEL_DEBUG : Z;
  LOG_LEVEL_DEBUG2 : Z;
  LOG_LEVEL_MAX : Z;
  BOLD : string -> string;
  LONG_MIN : Z;
  LONG_MAX : Z;
  pointer_text : Z -> string
}.

(** [enum log_timestamp_mode], the members debug.cpp names. *)
Inductive log_timestamp_mode : Type :=
| LOG_TIMESTAMP_DISABLED
| LOG_TIMESTAMP_ENABLED
| LOG_TIMESTAMP_AUTO.

(** What the functions of debug.cpp write, and where. *)
Inductive written : Type :=
| Cout (text : string)                  (* std::cout *)
| Clog (text : string)                  (* std::clog *)
| Stderr (text : string)                (* vfprintf(stderr, ..) *)
| Log (level : Z) (text : string).      (* LOG(level) << text *)

(** ** The C library on strings *)

Module CStr.

Definition INT_MIN : Z := - 2 ^ 31.
Definition INT_MAX : Z := 2 ^ 31 - 1.

(** [strstr(haystack, needle)]: where the first occurrence starts. *)
Definition strstr (haystack needle : string) : option nat :=
  String.index 0 needle haystack.

Fixpoint strchr (s : string) (c : ascii) : option nat :=
  match s with
  | EmptyString => None
  | String a rest =>
      if Ascii.eqb a c then Some O
      else option_map S (strchr rest c)
  end.

(** [strpbrk(s, accept)]: where the first character that is in [accept]
    stands. *)
Fixpoint strpbrk (s accept : string) : option nat :=
  match s with
  | EmptyString => None
  | String a rest =>
      match strchr accept a with
      | Some _ => Some O
      | None => option_map S (strpbrk rest accept)
      end
  end.

Definition isdigit (c : ascii) : bool :=
  let n := nat_of_ascii c in Nat.leb 48 n && Nat.leb n 57.

(** [s[i]]: a character of the text, the terminator right after it;
    anything further is outside the array. *)
Definition char_at (s : string) (i : nat) : result ascii :=
  match String.get i s with
  | Some c => Ok c
  | None => if Nat.eqb i (String.length s) then Ok zero else Undefined
  end.

(** The value of a digit or letter in [base], as [strtol] reads it. *)
Definition digit_in (base : Z) (c : ascii) : option Z :=
  let n := Z.of_nat (nat_of_ascii c) in
  let v := if (48 <=? n) && (n <=? 57) then Some (n - 48)
           else if (97 <=? n) && (n <=? 122) then Some (n - 87)
           else if (65 <=? n) && (n <=? 90) then Some (n - 55)
           else None in
  match v with
  | Some d => if d <? base then Some d else None
  | None => None
  end.

(** The digits at the head of [s]: how many, and their value after [acc]. *)
Fixpoint digits_in (base : Z) (s : string) (count : nat) (acc : Z) : nat * Z :=
  match s with
  | String c rest =>
      match digit_in base c with
      | Some d => digits_in base rest (S count) (base * acc + d)
      | None => (count, acc)
      end
  | EmptyString => (count, acc)
  end.

(** White space, then an optional sign: the sign and what follows. *)
Definition sign_of (s : string) : bool * string :=
  match Str.skipws s with
  | String c rest =>
      if Ascii.eqb c "-"%char then (true, rest)
      else if Ascii.eqb c "+"%char then (false, rest)
      else (false, String c rest)
  | EmptyString => (false, EmptyString)
  end.

(** [strtol(s, nullptr, 0)]: the base comes from the prefix (0x: 16, 0: 8,
    otherwise 10); a value out of the range of [long] is clamped. *)
Definition strtol0 (long_min long_max : Z) (s : string) : Z :=
  let '(negative, body) := sign_of s in
  let '(base, body) :=
    match body with
    | String z (String x (String h rest)) =>
        if Ascii.eqb z "0"%char
           && (Ascii.eqb x "x"%char || Ascii.eqb x "X"%char)
           && match digit_in 16 h with Some _ => true | None => false end
        then (16, String h rest)
        else if Ascii.eqb z "0"%char then (8, body) else (10, body)
    | String z _ => if Ascii.eqb z "0"%char then (8, body) else (10, body)
    | EmptyString => (10, body)
    end in
  let value := snd (digits_in base body O 0) in
  let value := if negative then - value else value in
  Z.max long_min (Z.min long_max value).

(** [atoi(s)]: decimal; a value an [int] cannot hold is undefined. *)
Definition atoi (s : string) : result Z :=
  let '(negative, body) := sign_of s in
  let value := snd (Str.digits body O 0) in
  let value := if negative then - value else value in
  if (INT_MIN <=? value) && (value <=? INT_MAX) then Ok value else Undefined.

(** [strcat(dst, src)] into an array of [cap] characters. *)
Definition strcat (cap : nat) (dst src : string) : result string :=
  if Nat.leb (String.length dst + String.length src + 1) cap
  then Ok (String.append dst src)
  else Undefined.

End CStr.

(** The decimal text of an integer, as [<<] and [%d] write it. *)
Definition decimal (z : Z) : string :=
  DecimalString.NilZero.string_of_int (Z.to_int z).

(** The text that follows a number does not go on with a digit. *)
Definition ends_number (rest : string) : Prop :=
  match rest with
  | String c _ => Str.digit_value c = None
  | EmptyString => True
  end.

(** ** [set_log_level] *)

Record logger : Type := {
  log_level : Z;                          (* volatile int log_level *)
  logger_repeat_msgs : bool;              (* *logger_repeat_msgs *)
  show_timestamps : log_timestamp_mode    (* *show_timestamps *)
}.

Definition set_level (v : Z) (l : logger) : logger :=
  {| log_level := v; logger_repeat_msgs := logger_repeat_msgs l;
     show_timestamps := show_timestamps l |}.

Definition set_repeat_msgs (v : bool) (l : logger) : logger :=
  {| log_level := log_level l; logger_repeat_msgs := v;
     show_timestamps := show_timestamps l |}.

Definition set_timestamps (v : log_timestamp_mode) (l : logger) : logger :=
  {| log_level := log_level l; logger_repeat_msgs := logger_repeat_msgs l;
     show_timestamps := v |}.

Section SetLogLevel.
Context {HO : host}.
Local Open Scope string_scope.

Definition mapping : list (string * Z) :=
  [ ("quiet", LOG_LEVEL_QUIET);
    ("fatal", LOG_LEVEL_FATAL);
    ("error", LOG_LEVEL_ERROR);
    ("warning", LOG_LEVEL_WARNING);
    ("notice", LOG_LEVEL_NOTICE);
    ("info", LOG_LEVEL_INFO);
    ("verbose", LOG_LEVEL_VERBOSE);
    ("debug", LOG_LEVEL_DEBUG);
    ("debug2", LOG_LEVEL_DEBUG2) ]%list.

(** What the "help" branch writes to [cout]. *)
Definition log_level_usage : list written :=
  ([Cout ("log level: [0-" ++ decimal LOG_LEVEL_MAX)]
   ++ List.map (fun m => Cout ("|" ++ fst m)) mapping
   ++ [Cout ("][+repeat][+/-timestamps]" ++ String "010" "");
       Cout (BOLD (String "009" "repeat")
             ++ " - print repeating log messages" ++ String "010" "");
       Cout (BOLD (String "009" "timestamps")
             ++ " - enable/disable timestamps" ++ String "010" "")])%list.

(** The statements on the flags, between the "help" branch and the level:
    [+repeat], [+timestamps] or [-timestamps], and the environment variable
    ULTRAGRID_VERBOSE ([ULTRAGRID_VERBOSE] tells whether it is set). *)
Definition log_flags (optarg : string) (ULTRAGRID_VERBOSE : bool) (l : logger) : logger :=
  let l := match CStr.strstr optarg "+repeat" with
           | Some _ => set_repeat_msgs true l
           | None => l
           end in
  let l := match CStr.strstr optarg "timestamps" with
           | Some (S before) =>
               match String.get before optarg with
               | Some c =>
                   if Ascii.eqb c "+"%char
                   then set_timestamps LOG_TIMESTAMP_ENABLED l
                   else set_timestamps LOG_TIMESTAMP_DISABLED l
               | None => l
               end
           | _ => l
           end in
  if ULTRAGRID_VERBOSE then set_level LOG_LEVEL_VERBOSE l else l.

(** [log_level_str]: the text up to the first + or -. *)
Definition log_level_str (optarg : string) : string :=
  match CStr.strpbrk optarg "+-" with
  | Some delim => Str.substr_to optarg delim
  | None => optarg
  end.

(** The result is the value returned, the logger after the call and what
    was written. *)
Definition set_log_level (optarg : string) (ULTRAGRID_VERBOSE : bool) (l : logger)
  : bool * logger * list written :=
  if String.eqb "help" optarg then (false, l, log_level_usage)
  else
    let l := log_flags optarg ULTRAGRID_VERBOSE l in
    let c0 := match optarg with String c _ => c | EmptyString => zero end in
    if Ascii.eqb c0 "+"%char || Ascii.eqb c0 "-"%char then (true, l, []%list)
    else if CStr.isdigit c0 then
      let val := CStr.strtol0 LONG_MIN LONG_MAX optarg in
      if (val <? 0)%Z || (LOG_LEVEL_MAX <? val)%Z
      then (false, l,
            [Clog ("Log: wrong value: " ++ optarg ++ " (allowed range [0.."
                   ++ decimal LOG_LEVEL_MAX ++ "])" ++ String "010" "")]%list)
      else (true, set_level val l, []%list)
    else
      match List.find (fun m => String.eqb (log_level_str optarg) (fst m)) mapping with
      | Some m => (true, set_level (snd m) l, []%list)
      | None =>
          (false, l,
           [Log LOG_LEVEL_ERROR ("Wrong log level specification: " ++ optarg
                                 ++ String "010" "")]%list)
      end.

End SetLogLevel.

(** ** [debug_dump] *)

Section DebugDump.
Context {HO : host}.
Local Open Scope string_scope.

(** [_dprintf], the branch that is not for WIN32: the text goes to stderr
    unless the level is below debug. *)
Definition _dprintf (level : Z) (text : string) : list written :=
  if (level <? LOG_LEVEL_DEBUG)%Z then []%list else [Stderr text]%list.

(** The hexadecimal digit of a value below 16, in capitals as [%X] writes
    it. *)
Definition hex_digit (n : Z) : ascii :=
  ascii_of_nat (Z.to_nat (if (n <? 10)%Z then 48 + n else 55 + n)).

(** [sprintf(tmpBuf, "%X", v)] for a value up to 255. *)
Definition sprintf_X (v : Z) : string :=
  if (v <? 16)%Z then String (hex_digit v) ""
  else String (hex_digit (v / 16)) (String (hex_digit (v mod 16)) "").

(** [stuffBuff]: two digits and a space. *)
Definition stuffBuff (b : byte) : string :=
  let tmpBuf := sprintf_X (Z.land (byte.unsigned b) 255) in
  match tmpBuf with
  | String d0 (String d1 _) => String d0 (String d1 " ")
  | String d0 EmptyString => String "0" (String d0 " ")
  | EmptyString => "0"
  end.

(** The length of [Buff]. *)
Definition BUFF_SIZE : nat := 81.

(** [*p], for [p = lp + i]. *)
Definition peek (mem : bytes) (i : Z) : result byte :=
  if (i <? 0)%Z then Undefined
  else match nth_error mem (Z.to_nat i) with
       | Some b => Ok b
       | None => Undefined
       end.

(** [for (i = start, j = 0; j < 16; p++, i++, j++)], from [j] on. *)
Fixpoint hex_columns (fuel : nat) (mem : bytes) (len i j : Z) (Buff : string)
  : result string :=
  match fuel with
  | O => Ok Buff
  | S fuel' =>
      if (j <? 16)%Z then
        do Buff <- (if (i <? len)%Z
                    then do b <- peek mem i;
                         CStr.strcat BUFF_SIZE Buff (stuffBuff b)
                    else CStr.strcat BUFF_SIZE Buff " ");
        do Buff <- (if (j =? 7)%Z then CStr.strcat BUFF_SIZE Buff " " else Ok Buff);
        hex_columns fuel' mem len (i + 1) (j + 1) Buff
      else Ok Buff
  end.

(** The character shown for a byte: itself from ' ' to '~', a dot
    otherwise. *)
Definition shown (b : byte) : ascii :=
  let v := byte.unsigned b in
  if (32 <=? v)%Z && (v <=? 126)%Z then ascii_of_nat (Z.to_nat v) else "."%char.

(** [for (i = start, j = 0, ..; (i < len && j < 16); p++, i++, j++)], from
    [j] on; the result is the line and the last value of [i]. *)
Fixpoint char_columns (fuel : nat) (mem : bytes) (len i j : Z) (Buff : string)
  : result (string * Z) :=
  match fuel with
  | O => Ok (Buff, i)
  | S fuel' =>
      if (i <? len)%Z && (j <? 16)%Z then
        do b <- peek mem i;
        do Buff <- CStr.strcat BUFF_SIZE Buff (String (shown b) "");
        do Buff <- (if (j =? 7)%Z then CStr.strcat BUFF_SIZE Buff " " else Ok Buff);
        char_columns fuel' mem len (i + 1) (j + 1) Buff
      else Ok (Buff, i)
  end.

(** What the first loop adds to the line for the bytes [bs] that are left,
    from column [j] on with [n] columns to go: two digits and a space for a
    byte, a space for a column past the end, one more space after column
    7. *)
Fixpoint hex_cells (n : nat) (j : Z) (bs : list byte) : string :=
  match n with
  | O => ""
  | S n' =>
      (match bs with b :: _ => stuffBuff b | []%list => " " end)
      ++ (if (j =? 7)%Z then " " else "")
      ++ hex_cells n' (j + 1) (List.tl bs)
  end.

(** What the second loop adds: the character shown for each byte, a space
    after column 7. *)
Fixpoint char_cells (j : Z) (bs : list byte) : string :=
  match bs with
  | []%list => ""
  | (b :: rest)%list =>
      String (shown b) ((if (j =? 7)%Z then " " else "") ++ char_cells (j + 1) rest)
  end.

(** The bytes [bs] are those of the region [mem] of [len] bytes from [i] on,
    as far as a line with [room] columns left goes. *)
Definition line_bytes (mem : bytes) (len i : Z) (room : nat) (bs : list byte) : Prop :=
  Z.of_nat (List.length bs) = Z.max 0 (Z.min (Z.of_nat room) (len - i))
  /\ forall m, (m < List.length bs)%nat ->
       nth_error mem (Z.to_nat i + m) = nth_error bs m.

(** One turn of [while (start < len)]: the line, and where the next one
    starts.  [lp] is the address of the region, [mem] what it holds. *)
Definition dump_line (lp : Z) (mem : bytes) (len start : Z) : result (string * Z) :=
  do Buff <- CStr.strcat BUFF_SIZE "" (pointer_text (lp + start) ++ ": ");
  do Buff <- hex_columns 16 mem len start 0 Buff;
  do Buff <- CStr.strcat BUFF_SIZE Buff "  ";
  char_columns 16 mem len start 0 Buff.

Fixpoint dump_lines (fuel : nat) (level lp : Z) (mem : bytes) (len start : Z)
  : result (list written) :=
  match fuel with
  | O => Ok []%list
  | S fuel' =>
      if (start <? len)%Z then
        do line <- dump_line lp mem len start;
        do rest <- dump_lines fuel' level lp mem len (snd line);
        Ok (_dprintf level (fst line ++ String "010" "") ++ rest)%list
      else Ok []%list
  end.

(** The text of [%x] for an [int]. *)
Definition hexadecimal (z : Z) : string :=
  HexadecimalString.NilZero.string_of_uint (N.to_hex_uint (Z.to_N (u32 z))).

(** [level] is [log_level].  Every line takes at least one byte, so [len]
    turns are enough. *)
Definition debug_dump (level lp : Z) (mem : bytes) (len : Z) : result (list written) :=
  do lines <- dump_lines (Z.to_nat len) level lp mem len 0;
  Ok (_dprintf level ("Dump of " ++ decimal len ++ "=" ++ hexadecimal len
                      ++ " bytes" ++ String "010" "") ++ lines)%list.

End DebugDump.

(** ** [debug_file_dump] *)

(** [skip_map]: how many more calls to skip for a key, -1 once exported. *)
Definition skip_map_t : Type := @Interface.map.rep string Z (SortedListString.map Z).

Inductive dump_outcome : Type :=
| NotDumped                         (* returned before the export *)
| OpenFailed (name : string)        (* perror("debug_file_dump fopen") *)
| Dumped (name : string).           (* serialize(data, out) into the file *)

Section DebugFileDump.
Local Open Scope string_scope.

(** The number after [key] in the parameter, [None] when the function
    returns because the key is not there. *)
Definition skip_count (key dump_file_val : string) : result (option Z) :=
  let not_first := "," in   (* [not_first + key;] has no effect *)
  match CStr.strstr dump_file_val key with
  | Some O =>
      do c <- CStr.char_at dump_file_val (String.length key);
      if Ascii.eqb c "="%char
      then do n <- CStr.atoi (Str.substr_from dump_file_val (String.length key + 1)); Ok (Some n)
      else Ok (Some 0%Z)
  | _ =>
      match CStr.strstr dump_file_val not_first with
      | Some comma =>
          do c <- CStr.char_at dump_file_val (comma + String.length key);
          if Ascii.eqb c "="%char
          then do n <- CStr.atoi (Str.substr_from dump_file_val (comma + String.length key + 1));
               Ok (Some n)
          else Ok (Some 0%Z)
      | None => Ok None
      end
  end.

(** [dump_file_val]: the value of the parameter debug-dump, if given.
    [fopen_ok]: the file can be opened. *)
Definition debug_file_dump (key : string) (dump_file_val : option string)
    (fopen_ok : bool) (skip_map : skip_map_t) : result (dump_outcome * skip_map_t) :=
  match dump_file_val with
  | None => Ok (NotDumped, skip_map)
  | Some val =>
      do found <- skip_count key val;
      match found with
      | None => Ok (NotDumped, skip_map)
      | Some skip_n =>
          let skip_map :=
            match Interface.map.get skip_map key with
            | None => Interface.map.put skip_map key skip_n
            | Some _ => skip_map
            end in
          let to_skip := match Interface.map.get skip_map key with
                         | Some n => n
                         | None => 0%Z
                         end in
          if (to_skip =? -1)%Z then Ok (NotDumped, skip_map)
          else if (0 <? to_skip)%Z
          then Ok (NotDumped, Interface.map.put skip_map key (to_skip - 1)%Z)
          else
            let name := key ++ ".dump" in
            if fopen_ok
            then Ok (Dumped name, Interface.map.put skip_map key (-1)%Z)
            else Ok (OpenFailed name, skip_map)
      end
  end.

(** The function called [n] times in a row. *)
Fixpoint debug_file_dump_calls (n : nat) (key : string) (dump_file_val : option string)
    (fopen_ok : bool) (skip_map : skip_map_t)
  : result (list dump_outcome * skip_map_t) :=
  match n with
  | O => Ok ([]%list, skip_map)
  | S n' =>
      do r <- debug_file_dump key dump_file_val fopen_ok skip_map;
      do rs <- debug_file_dump_calls n' key dump_file_val fopen_ok (snd r);
      Ok ((fst r :: fst rs)%list, snd rs)
  end.

End DebugFileDump.

(** Concrete inputs for debug.cpp. *)
Module ExDbg.
Definition linux : host :=
  {| LOG_LEVEL_QUIET := 0; LOG_LEVEL_FATAL := 1; LOG_LEVEL_ERROR := 2;
     LOG_LEVEL_WARNING := 3; LOG_LEVEL_NOTICE := 4; LOG_LEVEL_INFO := 5;
     LOG_LEVEL_VERBOSE := 6; LOG_LEVEL_DEBUG := 7; LOG_LEVEL_DEBUG2 := 8;
     LOG_LEVEL_MAX := 8; BOLD := fun s => s;
     LONG_MIN := - 2 ^ 63; LONG_MAX := 2 ^ 63 - 1;
     pointer_text := fun p =>
       String.append "0x" (HexadecimalString.NilZero.string_of_uint
                             (N.to_hex_uint (Z.to_N p))) |}.

(** A region of 18 bytes. *)
Definition region : bytes :=
  List.map byte.of_Z [72; 101; 108; 108; 111; 0; 255; 10; 65; 66; 67; 68; 69; 70;
                      71; 72; 73; 74].
End ExDbg.

(** ** The module without the portal: [vidcap_pw_init] *)

(** [vidcap_pw_init], the init of the module "pipewire": as
    [vidcap_screen_pw_init] without the portal; the descriptor is -1 and the
    node keeps its initial value. *)
Definition vidcap_pw_init (audio : bool) (fmt : option string) (connect_res : Z)
  : init_result :=
  if audio then
    {| init_status := VIDCAP_INIT_AUDIO_NOT_SUPPORTED; init_state := None;
       init_logs := []; init_advertised := None |}
  else
    let '(params_ok, s, logs) := parse_params fmt new_screen_cast_session in
    let w := set_session s new_world in
    match params_ok with
    | VIDCAP_INIT_OK =>
        let w := alloc_blank_frames (Z.to_nat QUEUE_SIZE) w in
        let s := session w in
        let p := pw s in
        let s := set_pw {| fd := -1; node := node p; loop := loop p;
                           context := context p; stream := stream p;
                           format := format p |} s in
        let '(_, s, params) := start_pipewire s connect_res in
        {| init_status := VIDCAP_INIT_OK; init_state := Some (set_session s w);
           init_logs := logs; init_advertised := Some params |}
    | _ =>
        {| init_status := params_ok; init_state := Some w;
           init_logs := logs; init_advertised := None |}
    end.

(** ** The end of a session: [vidcap_screen_pw_done] *)

(** What the destruction of a session does, in order. *)
Inductive teardown_event : Type :=
| Torn (c : pw_call)              (* a call of [~pw_] *)
| Portal_destroyed                (* ~ScreenCastPortal *)
| Freed (id : nat).               (* vf_free, from [frame_deleter] *)

(** [delete session]: the members are destroyed in the reverse order of
    their declaration, [pw] first, then [portal], the hand-off queue, the
    pool and the in-flight frame; every [unique_frame] gives its frame to
    the deleter.
    Modelled from the spec: the destructor of [synchronized_queue], declared
    in utils/synchronized_queue.h, is missing.  Section 6: done "releases
    all resources"; the queue owns the frames it holds (section 3) and
    releases them when it is destroyed. *)
Definition vidcap_screen_pw_done (s : screen_cast_session) : list teardown_event :=
  map Torn (pw_destructor (pw s))
  ++ [Portal_destroyed]
  ++ map (fun f => Freed (frame_id f)) (sending_frames s)
  ++ map (fun f => Freed (frame_id f)) (blank_frames s)
  ++ map (fun f => Freed (frame_id f)) (in_flight_frames s).

Definition teardown_frees (t : list teardown_event) : list nat :=
  flat_map (fun e => match e with Freed id => [id] | _ => [] end) t.

Definition teardown_calls (t : list teardown_event) : list pw_call :=
  flat_map (fun e => match e with Torn c => [c] | _ => [] end) t.

(** ** Options, one by one *)

(** A valid option other than help. *)
Inductive option_item : Type :=
| Opt_cursor
| Opt_nocrop
| Opt_fps (capitals : bool) (n : Z)
| Opt_restore (path : string).

(** How the option is written. *)
Definition option_text (i : option_item) : string :=
  match i with
  | Opt_cursor => "cursor"
  | Opt_nocrop => "nocrop"
  | Opt_fps capitals n =>
      String.append (if capitals then "FPS=" else "fps=") (decimal n)
  | Opt_restore path => String.append "restore=" path
  end.

(** What the option asks for. *)
Definition option_effect (o : user_options_t) (i : option_item) : user_options_t :=
  match i with
  | Opt_cursor => set_show_cursor true o
  | Opt_nocrop => set_crop false o
  | Opt_fps _ n => set_fps n o
  | Opt_restore path => set_restore_file path o
  end.

(** An option that can be written: a rate a [uint32_t] holds, a path
    without a colon. *)
Definition option_writable (i : option_item) : Prop :=
  match i with
  | Opt_fps _ n => 0 <= n <= UINT32_MAX
  | Opt_restore path => Str.find path ":"%char = None
  | _ => True
  end.

(** The option sets the rate. *)
Definition sets_fps (i : option_item) : bool :=
  match i with
  | Opt_fps _ _ => true
  | _ => false
  end.

(** The value of an option is blank: empty or nothing but white space. *)
Definition blank (v : string) : bool :=
  match Str.skipws v with
  | EmptyString => true
  | String _ _ => false
  end.

(** What the steps leave of the connection: the descriptor, the node and
    the handles. *)
Definition same_connection (p q : pw_) : Prop :=
  fd q = fd p /\ node q = node p /\ loop q = loop p
  /\ context q = context p /\ stream q = stream p.

(** The steps of grab. *)
Definition grab_label (l : label) : bool :=
  match l with
  | GrabEnter | GrabReturn | GrabPop => true
  | _ => false
  end.

(** ** What a call of the handler did with the buffers *)

(** The payload of the buffer is empty, as [has_empty_payload] says. *)
Definition payload_empty (b : pw_buffer) : bool :=
  match buffer b with
  | Some sb => existsb empty_payload (datas sb)
  | None => false
  end.

(** The buffers converted in a stretch of the trace: those returned to the
    service right after a push. *)
Fixpoint converted_buffers (t : list event) : list pw_buffer :=
  match t with
  | [] => []
  | e :: rest =>
      match e, rest with
      | EvPush _, EvQueueBuffer b :: _ => b :: converted_buffers rest
      | _, _ => converted_buffers rest
      end
  end.

(** The buffers dropped: those returned right after their dequeue. *)
Fixpoint dropped_buffers (t : list event) : list pw_buffer :=
  match t with
  | [] => []
  | e :: rest =>
      match e, rest with
      | EvDequeue _, EvQueueBuffer b :: _ => b :: dropped_buffers rest
      | _, _ => dropped_buffers rest
      end
  end.

(** ** init, then done *)

(** What done finds when it is called on what init left in [*state]:
    nothing when init set no session; otherwise it frees the frames init
    allocated, none or those of the pool, and calls the service only after
    an init that returned VIDCAP_INIT_OK, [closed] being what is closed. *)
Definition done_after_init (r : init_result) (closed : list pw_call) : Prop :=
  match init_state r with
  | None =>
      init_status r = VIDCAP_INIT_AUDIO_NOT_SUPPORTED /\ init_advertised r = None
  | Some w =>
      let t := vidcap_screen_pw_done (session w) in
      teardown_frees t = allocated_ids (trace w)
      /\ freed_ids (trace w) = []
      /\ match init_status r with
         | VIDCAP_INIT_OK =>
             allocated_ids (trace w) = [0; 1; 2]%nat
             /\ teardown_calls t
                = [Call_pw_thread_loop_stop; Call_pw_stream_destroy;
                   Call_pw_context_destroy; Call_pw_thread_loop_destroy] ++ closed
             /\ init_advertised r <> None
         | _ =>
             (allocated_ids (trace w) = [] \/ allocated_ids (trace w) = [0; 1; 2]%nat)
             /\ teardown_calls t = []
             /\ init_advertised r = None
         end
  end.

(** Further concrete inputs. *)
Module ExPw.

(** The negotiated session with four buffers ready: the second is empty. *)
Definition four_ready : world :=
  deliver (Ex.full_buffer 3)
    (deliver (Ex.full_buffer 2)
       (deliver (Ex.empty_buffer 1)
          (deliver (Ex.full_buffer 0) (sys_world Ex.negotiated)))).

(** The session with one frame in the hand-off queue and one held by the
    caller, and three buffers ready. *)
Definition one_frame_left : world :=
  let w := sys_world Ex.negotiated in
  match blank_frames (session w) with
  | a :: b :: rest =>
      deliver (Ex.full_buffer 2)
        (deliver (Ex.full_buffer 1)
           (deliver (Ex.full_buffer 0)
              (set_session
                 (set_in_flight_frame (Some a)
                    (set_sending_frames [b] (set_blank_frames rest (session w)))) w)))
  | _ => w
  end.

(** The caller has a frame and calls grab again; the handler takes a frame
    from the pool before the [push_back] of grab has ended. *)
Definition overlapping_grab : list label :=
  [ParamChanged SPA_PARAM_Format (Some Ex.pod_rgba); Deliver (Ex.full_buffer 0);
   Acquire; Fill; Push; GrabEnter; GrabReturn; GrabPop;
   Deliver (Ex.full_buffer 1); GrabEnter; Acquire].

(** The same, the handler coming after the [push_back]. *)
Definition following_grab : list label :=
  [ParamChanged SPA_PARAM_Format (Some Ex.pod_rgba); Deliver (Ex.full_buffer 0);
   Acquire; Fill; Push; GrabEnter; GrabReturn; GrabPop;
   Deliver (Ex.full_buffer 1); GrabEnter; GrabReturn; Acquire].

(** Buffer [n] with the crop to the first [w] pixels of the first row. *)
Definition crop_buffer (n : nat) (w : Z) : pw_buffer :=
  {| pw_buffer_id := n;
     buffer := Some (buffer_of (Some {| region := crop_rectangle 0 0 w 1 |})
                       Ex.image (Ex.chunk_with_stride 12)) |}.

(** Nine buffers whose crop is 1, 2 and 3 pixels wide in turn, each
    delivered, converted and grabbed. *)
Definition changing_crop : list label :=
  concat (map (fun n => [Deliver (crop_buffer n (1 + Z.of_nat (n mod 3)));
                         Acquire; Fill; Push; GrabEnter; GrabReturn; GrabPop])
              (seq 0 9)).

Definition after_process (w : world) : world :=
  match @on_process Ex.four_bytes w with
  | Ok w' => w'
  | _ => w
  end.

(** A frame of 3 x 2 pixels. *)
Definition frame_3x2 : video_frame :=
  @vf_alloc_desc_data Ex.four_bytes 8 (Ex.desc_of 3 2).


(** Buffer [n] of the service, holding the image, with the crop to the
    rectangle (1, 1, 2, 1). *)
Definition cropped_buffer (n : nat) : pw_buffer :=
  {| pw_buffer_id := n;
     buffer := Some (buffer_of (Some {| region := crop_rectangle 1 1 2 1 |})
                       Ex.image (Ex.chunk_with_stride 12)) |}.

(** The negotiated session with that buffer ready. *)
Definition cropped_ready : world :=
  deliver (cropped_buffer 0) (sys_world Ex.negotiated).


(** Negotiation, one delivery and one grab. *)
Definition grabbed_once : list label :=
  [ParamChanged SPA_PARAM_Format (Some Ex.pod_rgba); Deliver (Ex.full_buffer 0);
   Acquire; Fill; Push; GrabEnter; GrabReturn; GrabPop].

(** Three more buffers, two of them converted and pushed, and a new
    negotiation, without a grab. *)
Definition more_deliveries : list label :=
  [Deliver (Ex.full_buffer 1); Deliver (Ex.full_buffer 2); Deliver (Ex.full_buffer 3);
   Acquire; Fill; Push; ParamChanged SPA_PARAM_Format (Some Ex.pod_rgba);
   Acquire; Fill; Push; Acquire].


(** The state after [grabbed_once], the frame the caller then holds, and
    the state after [more_deliveries]. *)
Definition after_grab : system :=
  match @run Ex.four_bytes grabbed_once Ex.init with
  | Ok s => s
  | _ => Ex.init
  end.

Definition held_frame : video_frame :=
  match in_flight_frame (session (sys_world after_grab)) with
  | Some f => f
  | None => vf_alloc 0 1
  end.

Definition after_more : system :=
  match @run Ex.four_bytes more_deliveries after_grab with
  | Ok s => s
  | _ => Ex.init
  end.

(** The state after [Ex.capture]. *)
Definition captured : system :=
  match @run Ex.four_bytes Ex.capture Ex.init with
  | Ok s => s
  | _ => Ex.init
  end.

End ExPw.

(** * Properties *)

(** ** Machine integers *)

Lemma u32_small z : 0 <= z < 2 ^ 32 -> u32 z = z.
Proof. intros H. unfold u32. now apply Z.mod_small. Qed.

Lemma s32_small z : - 2 ^ 31 <= z < 2 ^ 31 -> s32 z = z.
Proof. intros H. unfold s32. rewrite Z.mod_small; lia. Qed.

Lemma bind_ok {A B : Type} (r : result A) (k : A -> result B) (b : B) :
  bind r k = Ok b -> exists a, r = Ok a /\ k a = Ok b.
Proof. destruct r; simpl; intros H; try discriminate. eauto. Qed.

(** ** Pixel memory *)

Section Slices.
Context {A : Type}.
Implicit Types (buf bs : list A) (pos len : nat).

Lemma length_slice buf pos len :
  (pos + len <= List.length buf)%nat -> List.length (slice buf pos len) = len.
Proof. intros H. unfold slice. rewrite length_firstn, length_skipn. lia. Qed.

Lemma length_splice buf pos bs :
  (pos + List.length bs <= List.length buf)%nat ->
  List.length (splice buf pos bs) = List.length buf.
Proof.
  intros H. unfold splice.
  rewrite !length_app, length_firstn, length_skipn. lia.
Qed.

Lemma nth_slice buf pos len i d :
  (i < len)%nat -> nth i (slice buf pos len) d = nth (pos + i) buf d.
Proof.
  intros H. unfold slice. rewrite nth_firstn, nth_skipn.
  destruct (Nat.ltb_spec i len); [reflexivity | lia].
Qed.

Lemma nth_splice buf pos bs i d :
  (pos + List.length bs <= List.length buf)%nat ->
  nth i (splice buf pos bs) d =
  if (Nat.ltb i pos || Nat.leb (pos + List.length bs) i)%bool
  then nth i buf d else nth (i - pos) bs d.
Proof.
  intros H. unfold splice.
  assert (Hf : List.length (firstn pos buf) = pos)
    by (rewrite length_firstn; lia).
  destruct (Nat.ltb_spec i pos) as [Hlt | Hge]; simpl.
  - rewrite app_nth1 by lia. rewrite nth_firstn.
    destruct (Nat.ltb_spec i pos); [reflexivity | lia].
  - rewrite app_nth2 by lia. rewrite Hf.
    destruct (Nat.leb_spec (pos + List.length bs) i) as [Hle | Hgt].
    + rewrite app_nth2 by lia. rewrite nth_skipn. f_equal. lia.
    + rewrite app_nth1 by lia. reflexivity.
Qed.

Lemma slice_splice_same buf pos bs :
  (pos + List.length bs <= List.length buf)%nat ->
  slice (splice buf pos bs) pos (List.length bs) = bs.
Proof.
  intros H.
  assert (Hl : List.length (slice (splice buf pos bs) pos (List.length bs))
               = List.length bs)
    by (apply length_slice; rewrite length_splice; lia).
  destruct bs as [| d0 bs']; [now destruct (slice _ _ _) |].
  apply nth_ext with (d := d0) (d' := d0); [exact Hl |].
  intros i Hi. rewrite Hl in Hi.
  rewrite nth_slice by exact Hi. rewrite nth_splice by exact H.
  destruct (Nat.ltb_spec (pos + i) pos); [lia |].
  destruct (Nat.leb_spec (pos + List.length (d0 :: bs')) (pos + i)); [lia |].
  simpl orb. cbv iota. f_equal. lia.
Qed.

Lemma slice_splice_other buf pos bs p l :
  (pos + List.length bs <= List.length buf)%nat ->
  (p + l <= pos \/ pos + List.length bs <= p)%nat ->
  slice (splice buf pos bs) p l = slice buf p l.
Proof.
  intros H Hd. unfold slice.
  destruct (Nat.le_gt_cases (p + l) (List.length buf)) as [Hin | Hout].
  - destruct l as [| l']; [reflexivity |].
    destruct buf as [| d0 buf']; [simpl in *; lia |].
    apply nth_ext with (d := d0) (d' := d0).
    + rewrite !length_firstn, !length_skipn, length_splice by exact H.
      reflexivity.
    + intros i Hi.
      rewrite length_firstn, length_skipn, length_splice in Hi by exact H.
      assert (Hil : (i < S l')%nat) by lia.
      change (nth i (slice (splice (d0 :: buf') pos bs) p (S l')) d0
              = nth i (slice (d0 :: buf') p (S l')) d0).
      rewrite !nth_slice by exact Hil. rewrite nth_splice by exact H.
      destruct (Nat.ltb_spec (p + i) pos); [reflexivity |].
      destruct (Nat.leb_spec (pos + List.length bs) (p + i)); [reflexivity | lia].
  - (* the read runs past the end: only a write before it is possible *)
    destruct Hd as [Hd | Hd]; [lia |].
    assert (Hs : skipn (pos + List.length bs) (splice buf pos bs)
                 = skipn (pos + List.length bs) buf).
    { unfold splice. rewrite app_assoc, skipn_app.
      assert (Hlen : List.length (firstn pos buf ++ bs) = (pos + List.length bs)%nat)
        by (rewrite length_app, length_firstn; lia).
      rewrite Hlen, Nat.sub_diag. rewrite skipn_all2 by lia. reflexivity. }
    set (k := (p - (pos + List.length bs))%nat).
    replace p with (k + (pos + List.length bs))%nat by lia.
    rewrite <- (skipn_skipn k (pos + List.length bs) (splice buf pos bs)).
    rewrite <- (skipn_skipn k (pos + List.length bs) buf).
    rewrite Hs. reflexivity.
Qed.

Lemma slice_slice buf pos len a n :
  (a + n <= len)%nat ->
  slice (slice buf pos len) a n = slice buf (pos + a) n.
Proof.
  intros H. unfold slice.
  rewrite skipn_firstn_comm, firstn_firstn, skipn_skipn.
  rewrite Nat.min_l by lia. rewrite (Nat.add_comm a pos). reflexivity.
Qed.

End Slices.

(** ** The channel swap *)


Lemma testbit_byte_high b j : 8 <= j -> Z.testbit (byte.unsigned b) j = false.
Proof.
  intros H. rewrite <- (byte.wrap_unsigned b). unfold byte.wrap.
  apply Z.mod_pow2_bits_high. lia.
Qed.

Lemma testbit_copyline_word_swap w j :
  0 <= j ->
  Z.testbit (copyline_word w 16 8 0) j =
  if j <? 8 then Z.testbit w (j + 16)
  else if j <? 16 then Z.testbit w j
  else if j <? 24 then Z.testbit w (j - 16)
  else if j <? 32 then Z.testbit w j else false.
Proof.
  intros Hj. unfold copyline_word. change 255 with (Z.ones 8).
  rewrite !Z.lor_spec, !Z.land_spec, !Z.shiftl_spec', !Z.land_spec, !Z.shiftr_spec',
    !Z.testbit_ones by lia.
  destruct (Z.ltb_spec j 8), (Z.ltb_spec j 16), (Z.ltb_spec j 24), (Z.ltb_spec j 32); try lia.
  all: repeat match goal with
              | |- context [?a <=? ?b] => destruct (Z.leb_spec a b); try lia
              | |- context [?a <? ?b] => destruct (Z.ltb_spec a b); try lia
              end.
  all: cbn [andb orb negb];
    rewrite ?Bool.andb_true_r, ?Bool.andb_false_r, ?Bool.orb_false_r, ?Bool.orb_false_l.
  all: try reflexivity.
  all: try (f_equal; lia).
Qed.

Lemma testbit_le_combine b t j :
  0 <= j ->
  Z.testbit (le_combine (b :: t)) j =
  if j <? 8 then Z.testbit (byte.unsigned b) j else Z.testbit (le_combine t) (j - 8).
Proof.
  intros Hj.
  change (le_combine (b :: t)) with (Z.lor (byte.unsigned b) (Z.shiftl (le_combine t) 8)).
  rewrite Z.lor_spec, Z.shiftl_spec'.
  destruct (Z.ltb_spec j 8) as [Hlt | Hge].
  - rewrite (Z.testbit_neg_r _ (j - 8)) by lia.
    now rewrite Bool.andb_false_r, Bool.orb_false_r.
  - rewrite testbit_byte_high by lia.
    destruct (Z.ltb_spec j 0); [lia | reflexivity].
Qed.

Lemma byte_of_bits z b :
  (forall i, 0 <= i < 8 -> Z.testbit z i = Z.testbit (byte.unsigned b) i) ->
  byte.of_Z z = b.
Proof.
  intros H. apply byte.unsigned_inj. rewrite byte.unsigned_of_Z. unfold byte.wrap.
  apply Z.bits_inj'. intros i Hi.
  rewrite Z.testbit_mod_pow2 by lia.
  destruct (Z.ltb_spec i 8) as [Hlt | Hge].
  - apply H. lia.
  - symmetry. apply testbit_byte_high. lia.
Qed.

Lemma copyline_pixel b0 b1 b2 b3 :
  vc_copylineRGBA [b0; b1; b2; b3] 16 8 0 = [b2; b1; b0; b3].
Proof.
  cbv [vc_copylineRGBA le_split app].
  rewrite !Z.shiftr_shiftr by lia. cbn [Z.add Pos.add Pos.succ].
  repeat f_equal; apply byte_of_bits; intros i Hi;
    rewrite ?Z.shiftr_spec by lia;
    rewrite testbit_copyline_word_swap by lia;
    repeat match goal with
           | |- context [?a <? ?b] => destruct (Z.ltb_spec a b); try lia
           end;
    rewrite !testbit_le_combine by lia;
    repeat match goal with
           | |- context [?a <? ?b] => destruct (Z.ltb_spec a b); try lia
           end;
    f_equal; lia.
Qed.

Lemma length_vc_copylineRGBA (l : list byte) (r g b : Z) :
  List.length (vc_copylineRGBA l r g b) = List.length l.
Proof.
  assert (H : forall n l, (List.length l <= n)%nat ->
              List.length (vc_copylineRGBA l r g b) = List.length l).
  { induction n as [| n IH]; intros l0 Hl.
    - destruct l0; [reflexivity | simpl in Hl; lia].
    - destruct l0 as [| b0 [| b1 [| b2 [| b3 rest]]]]; try reflexivity.
      cbn [vc_copylineRGBA]. rewrite length_app, length_le_split.
      simpl in Hl. rewrite IH by lia. reflexivity. }
  apply (H (List.length l)). lia.
Qed.

Lemma length_convert_line swap (l : list byte) :
  List.length (convert_line swap l) = List.length l.
Proof. destruct swap; [apply length_vc_copylineRGBA | reflexivity]. Qed.

(** The swap works pixel by pixel: pixel [j] of the converted line is the
    converted pixel [j] of the line. *)
Lemma slice_vc_copylineRGBA (j : nat) : forall (l : list byte) (r g b : Z),
  (4 * j + 4 <= List.length l)%nat ->
  slice (vc_copylineRGBA l r g b) (4 * j) 4 = vc_copylineRGBA (slice l (4 * j) 4) r g b.
Proof.
  induction j as [| j IH]; intros l r g b Hl.
  - destruct l as [| b0 [| b1 [| b2 [| b3 rest]]]]; simpl in Hl; try lia.
    unfold slice. change (4 * 0)%nat with 0%nat.
    change (skipn 0 ?x) with x.
    change (firstn 4 (b0 :: b1 :: b2 :: b3 :: rest)) with [b0; b1; b2; b3].
    change (vc_copylineRGBA (b0 :: b1 :: b2 :: b3 :: rest) r g b)
      with (le_split 4 (copyline_word (le_combine [b0; b1; b2; b3]) r g b)
              ++ vc_copylineRGBA rest r g b).
    change (vc_copylineRGBA [b0; b1; b2; b3] r g b)
      with (le_split 4 (copyline_word (le_combine [b0; b1; b2; b3]) r g b) ++ []).
    rewrite firstn_app, length_le_split, Nat.sub_diag.
    rewrite firstn_all2 by (rewrite length_le_split; lia).
    reflexivity.
  - destruct l as [| b0 [| b1 [| b2 [| b3 rest]]]]; simpl in Hl; try lia.
    replace (4 * S j)%nat with (4 + 4 * j)%nat by lia.
    change (vc_copylineRGBA (b0 :: b1 :: b2 :: b3 :: rest) r g b)
      with (le_split 4 (copyline_word (le_combine [b0; b1; b2; b3]) r g b)
              ++ vc_copylineRGBA rest r g b).
    unfold slice.
    rewrite skipn_app, length_le_split.
    rewrite skipn_all2 by (rewrite length_le_split; lia).
    replace (4 + 4 * j - 4)%nat with (4 * j)%nat by lia.
    change (skipn (4 + 4 * j) (b0 :: b1 :: b2 :: b3 :: rest))
      with (skipn (4 * j) rest).
    apply (IH rest r g b). lia.
Qed.

(** ** Reads and writes *)

Lemma in_bounds_iff (buf : bytes) (pos len : Z) :
  in_bounds buf pos len = true <->
  0 <= pos /\ 0 <= len /\ pos + len <= Z.of_nat (List.length buf).
Proof. unfold in_bounds. rewrite !andb_true_iff, !Z.leb_le. tauto. Qed.

Lemma read_bytes_ok (buf : bytes) (pos len : Z) :
  0 <= pos -> 0 <= len -> pos + len <= Z.of_nat (List.length buf) ->
  read_bytes buf pos len = Ok (slice buf (Z.to_nat pos) (Z.to_nat len)).
Proof.
  intros H1 H2 H3. unfold read_bytes.
  replace (in_bounds buf pos len) with true; [reflexivity |].
  symmetry. apply in_bounds_iff. auto.
Qed.

Lemma write_bytes_ok (buf : bytes) (pos : Z) (bs : list byte) :
  0 <= pos -> pos + Z.of_nat (List.length bs) <= Z.of_nat (List.length buf) ->
  write_bytes buf pos bs = Ok (splice buf (Z.to_nat pos) bs).
Proof.
  intros H1 H2. unfold write_bytes.
  replace (in_bounds buf pos (Z.of_nat (List.length bs))) with true; [reflexivity |].
  symmetry. apply in_bounds_iff. lia.
Qed.

(** ** The row loop *)

Section Rows.
Variables (src : bytes) (offset skip stride start_y linesize : Z) (swap : bool).
Hypothesis linesize_nonneg : 0 <= linesize.

Lemma copy_rows_spec (n : nat) : forall (i : Z) (dst : bytes),
  0 <= i ->
  (forall k, i <= k < i + Z.of_nat n ->
             in_bounds src (src_row_pos offset skip stride start_y k) linesize = true) ->
  linesize * (i + Z.of_nat n) <= Z.of_nat (List.length dst) ->
  Z.of_nat (List.length dst) < 2 ^ 32 ->
  exists out,
    copy_rows n i src offset skip stride start_y linesize swap dst = Ok out
    /\ List.length out = List.length dst
    /\ (forall k, i <= k < i + Z.of_nat n ->
          slice out (Z.to_nat (linesize * k)) (Z.to_nat linesize)
          = convert_line swap
              (slice src (Z.to_nat (src_row_pos offset skip stride start_y k))
                     (Z.to_nat linesize)))
    /\ (forall p l, (p + l <= Z.to_nat (linesize * i))%nat -> slice out p l = slice dst p l).
Proof.
  induction n as [| n IH]; intros i dst Hi Hsrc Hdst Hsmall.
  - exists dst. cbn [copy_rows]. repeat split; auto. intros k Hk. lia.
  - cbn [copy_rows].
    assert (Hn : 0 <= linesize * Z.of_nat n) by (apply Z.mul_nonneg_nonneg; lia).
    assert (Hli : 0 <= linesize * i) by (apply Z.mul_nonneg_nonneg; lia).
    pose proof (Hsrc i ltac:(lia)) as Hb. apply in_bounds_iff in Hb.
    destruct Hb as (Hb1 & _ & Hb3).
    rewrite read_bytes_ok by lia. cbn [bind].
    set (line := slice src (Z.to_nat (src_row_pos offset skip stride start_y i))
                       (Z.to_nat linesize)).
    assert (Hline : List.length (convert_line swap line) = Z.to_nat linesize).
    { rewrite length_convert_line. apply length_slice. lia. }
    assert (Hpos : dst_row_pos linesize i = linesize * i).
    { unfold dst_row_pos. apply u32_small. lia. }
    rewrite Hpos. rewrite write_bytes_ok by lia. cbn [bind].
    set (dst' := splice dst (Z.to_nat (linesize * i)) (convert_line swap line)).
    assert (Hfit : (Z.to_nat (linesize * i) + List.length (convert_line swap line)
                    <= List.length dst)%nat) by lia.
    assert (Hlen' : List.length dst' = List.length dst)
      by (apply length_splice; exact Hfit).
    destruct (IH (i + 1) dst') as (out & Hout & Hlen & Hrows & Hpre).
    + lia.
    + intros k Hk. apply Hsrc. lia.
    + rewrite Hlen'. lia.
    + rewrite Hlen'. exact Hsmall.
    + exists out. split; [exact Hout |]. split; [congruence |]. split.
      * intros k Hk. destruct (Z.eq_dec k i) as [-> | Hne].
        -- rewrite Hpre by lia.
           fold line.
           pose proof (slice_splice_same dst _ _ Hfit) as Hsame.
           fold dst' in Hsame. rewrite Hline in Hsame. exact Hsame.
        -- apply Hrows. lia.
      * intros p l Hpl. rewrite Hpre by lia.
        unfold dst'. apply slice_splice_other; [exact Hfit | lia].
Qed.

End Rows.

(** ** The converter, row by row *)

Section ConverterFacts.
Context {CI : codec_info}.

Lemma converter_rows (dst : video_frame) (meta : option spa_meta_region)
    (mem : bytes) (c : spa_chunk) (fmt : spa_video_format) (size : spa_rectangle)
    (crop : option spa_region) (stride : Z) :
  let linesize := vc_get_linesize (out_width size crop) (color_spec dst) in
  let skip := vc_get_linesize (start_x crop) (color_spec dst) in
  row_stride c size = Ok stride ->
  0 <= linesize ->
  0 <= out_height size crop ->
  (forall k, 0 <= k < out_height size crop ->
     in_bounds mem (src_row_pos (chunk_offset c) skip stride (start_y crop) k) linesize
     = true) ->
  linesize * out_height size crop <= Z.of_nat (List.length (tile_data (tiles0 dst))) ->
  Z.of_nat (List.length (tile_data (tiles0 dst))) < 2 ^ 32 ->
  exists out,
    pw_frame_to_uv_frame_memcpy dst (buffer_of meta mem c) fmt size crop = Ok out
    /\ frame_id out = frame_id dst
    /\ video_desc_from_frame out
       = set_desc_size (out_width size crop) (out_height size crop)
           (video_desc_from_frame dst)
    /\ List.length (tile_data (tiles0 out)) = List.length (tile_data (tiles0 dst))
    /\ forall k, 0 <= k < out_height size crop ->
         slice (tile_data (tiles0 out)) (Z.to_nat (linesize * k)) (Z.to_nat linesize)
         = convert_line (swap_red_blue fmt)
             (slice mem (Z.to_nat (src_row_pos (chunk_offset c) skip stride
                                               (start_y crop) k))
                    (Z.to_nat linesize)).
Proof.
  intros linesize skip Hstride Hls Hh Hsrc Hdst Hsmall.
  destruct (copy_rows_spec mem (chunk_offset c) skip stride (start_y crop) linesize
              (swap_red_blue fmt) Hls (Z.to_nat (out_height size crop)) 0
              (tile_data (tiles0 dst)))
    as (out & Hout & Hlen & Hrows & _).
  - lia.
  - intros k Hk. apply Hsrc. lia.
  - rewrite Z2Nat.id by lia. exact Hdst.
  - exact Hsmall.
  - eexists. unfold pw_frame_to_uv_frame_memcpy, buffer_of. cbn [datas].
    rewrite Hstride. cbn [bind]. fold linesize skip. rewrite Hout. cbn [bind].
    split; [reflexivity |]. split; [reflexivity |]. split; [reflexivity |].
    split; [exact Hlen |].
    intros k Hk. apply Hrows. lia.
Qed.

End ConverterFacts.

Section CropFacts.
Context {CI : codec_info}.
Variables (dst : video_frame) (meta : option spa_meta_region) (mem : bytes)
  (c : spa_chunk) (fmt : spa_video_format) (size : spa_rectangle)
  (x y w h stride bpp : Z).
Hypothesis Hstride : row_stride c size = Ok stride.
Hypothesis Himg : holds_image mem c size stride bpp.
Hypothesis Hcrop : crop_within size x y w h.
Hypothesis Hcodec : forall n, 0 <= n -> vc_get_linesize n (color_spec dst) = bpp * n.
Hypothesis Hdst :
  bpp * w * h <= Z.of_nat (List.length (tile_data (tiles0 dst))) < 2 ^ 32.

Lemma crop_src_row_pos (k : Z) :
  0 <= k < h ->
  src_row_pos (chunk_offset c) (bpp * x) stride (u32 y) k
  = chunk_offset c + (y + k) * stride + x * bpp
  /\ 0 <= chunk_offset c + (y + k) * stride + x * bpp
  /\ chunk_offset c + (y + k) * stride + x * bpp + bpp * w
     <= Z.of_nat (List.length mem).
Proof.
  intros Hk.
  destruct Himg as (Hbpp & HW & HH & Hoff & Hrow & Hfits & Hsmall).
  destruct Hcrop as (Hx & Hy & Hw & Hh & Hxw & Hyh).
  assert (Hs : 0 <= stride) by nia.
  assert (H1 : 0 <= stride * (k + y)) by nia.
  assert (H2 : stride * (k + y) + stride <= stride * rect_height size) by nia.
  assert (H3 : bpp * x + bpp * w <= stride) by nia.
  assert (H4 : 0 <= bpp * x) by nia.
  unfold src_row_pos.
  rewrite (u32_small y) by lia. rewrite (u32_small (k + y)) by lia.
  rewrite (u32_small (stride * (k + y))) by lia.
  split; [ring |]. split; lia.
Qed.

Lemma crop_rows :
  exists out,
    pw_frame_to_uv_frame_memcpy dst (buffer_of meta mem c) fmt size
      (Some (crop_rectangle x y w h)) = Ok out
    /\ frame_id out = frame_id dst
    /\ tile_width (tiles0 out) = w
    /\ tile_height (tiles0 out) = h
    /\ Z.of_nat (List.length (tile_data (tiles0 out))) < 2 ^ 32
    /\ bpp * w * h <= Z.of_nat (List.length (tile_data (tiles0 out)))
    /\ forall k, 0 <= k < h ->
         slice (tile_data (tiles0 out)) (Z.to_nat (bpp * w * k)) (Z.to_nat (bpp * w))
         = convert_line (swap_red_blue fmt)
             (slice mem (Z.to_nat (chunk_offset c + (y + k) * stride + x * bpp))
                    (Z.to_nat (bpp * w))).
Proof.
  destruct Himg as (Hbpp & HW & HH & Hoff & Hrow & Hfits & Hsmall).
  destruct Hcrop as (Hx & Hy & Hw & Hh & Hxw & Hyh).
  pose proof (converter_rows dst meta mem c fmt size
                (Some (crop_rectangle x y w h)) stride) as Hconv.
  cbn [out_width out_height start_x start_y crop_rectangle region_size
       region_position rect_width rect_height pt_x pt_y] in Hconv.
  rewrite (u32_small x) in Hconv by lia.
  rewrite !Hcodec in Hconv by lia.
  assert (Hin : forall k, 0 <= k < h ->
            in_bounds mem (src_row_pos (chunk_offset c) (bpp * x) stride (u32 y) k)
                      (bpp * w) = true).
  { intros k Hk. destruct (crop_src_row_pos k Hk) as (Hpos & Hlo & Hhi).
    rewrite Hpos. apply in_bounds_iff. split; [lia |]. split; [nia | lia]. }
  destruct (Hconv Hstride ltac:(nia) Hh Hin ltac:(lia) ltac:(lia))
    as (out & Hout & Hid & Hdesc & Hlen & Hrows).
  exists out. split; [exact Hout |]. split; [exact Hid |].
  apply (f_equal desc_width) in Hdesc as Hdw.
  apply (f_equal desc_height) in Hdesc as Hdh.
  cbn in Hdw, Hdh.
  split; [exact Hdw |]. split; [exact Hdh |].
  rewrite Hlen. split; [lia |]. split; [lia |].
  intros k Hk. destruct (crop_src_row_pos k Hk) as (Hpos & _).
  rewrite <- Hpos. rewrite <- Hrows by exact Hk. reflexivity.
Qed.

Hypothesis Hswap : swap_red_blue fmt = true -> bpp = 4.

Lemma slice_convert_pixel (line : list byte) (j : Z) :
  0 <= j -> j * bpp + bpp <= Z.of_nat (List.length line) ->
  slice (convert_line (swap_red_blue fmt) line) (Z.to_nat (j * bpp)) (Z.to_nat bpp)
  = convert_line (swap_red_blue fmt) (slice line (Z.to_nat (j * bpp)) (Z.to_nat bpp)).
Proof.
  intros Hj Hlen. unfold convert_line.
  destruct (swap_red_blue fmt); [| reflexivity].
  rewrite (Hswap eq_refl) in *.
  replace (Z.to_nat (j * 4)) with (4 * Z.to_nat j)%nat by lia.
  change (Z.to_nat 4) with 4%nat.
  apply slice_vc_copylineRGBA. lia.
Qed.

Lemma crop_pixels :
  exists out,
    pw_frame_to_uv_frame_memcpy dst (buffer_of meta mem c) fmt size
      (Some (crop_rectangle x y w h)) = Ok out
    /\ tile_width (tiles0 out) = w
    /\ tile_height (tiles0 out) = h
    /\ (forall i, 0 <= i < h ->
          exists seg,
            image_row_segment mem (chunk_offset c) stride bpp x (y + i) w = Ok seg
            /\ frame_row out bpp i = Ok (convert_line (swap_red_blue fmt) seg))
    /\ (forall i j, 0 <= i < h -> 0 <= j < w ->
          exists p,
            image_pixel mem (chunk_offset c) stride bpp (x + j) (y + i) = Ok p
            /\ List.length p = Z.to_nat bpp
            /\ frame_pixel out bpp j i = Ok (convert_line (swap_red_blue fmt) p)).
Proof.
  destruct crop_rows as (out & Hout & _ & Hw & Hh & Hsmall & Hfit & Hrows).
  destruct Himg as (Hbpp & HW & HH & Hoff & Hrow & Hfits & Hmem).
  destruct Hcrop as (Hx & Hy & Hw0 & Hh0 & Hxw & Hyh).
  exists out. split; [exact Hout |]. split; [exact Hw |]. split; [exact Hh |].
  split.
  - intros i Hi. destruct (crop_src_row_pos i Hi) as (_ & Hlo & Hhi).
    eexists. split.
    + unfold image_row_segment. apply read_bytes_ok; [lia | nia | lia].
    + unfold frame_row. rewrite Hw.
      rewrite read_bytes_ok by nia.
      replace (i * w * bpp) with (bpp * w * i) by ring.
      rewrite Hrows by exact Hi. reflexivity.
  - intros i j Hi Hj. destruct (crop_src_row_pos i Hi) as (_ & Hlo & Hhi).
    set (base := chunk_offset c + (y + i) * stride + x * bpp) in *.
    set (line := slice mem (Z.to_nat base) (Z.to_nat (bpp * w))).
    assert (Hll : List.length line = Z.to_nat (bpp * w))
      by (apply length_slice; lia).
    assert (Hjb : 0 <= j * bpp /\ j * bpp + bpp <= bpp * w) by nia.
    exists (slice line (Z.to_nat (j * bpp)) (Z.to_nat bpp)).
    split; [| split].
    + unfold image_pixel.
      replace (chunk_offset c + (y + i) * stride + (x + j) * bpp)
        with (base + j * bpp) by (unfold base; ring).
      rewrite read_bytes_ok by lia.
      unfold line. rewrite slice_slice by lia.
      f_equal. f_equal. lia.
    + apply length_slice. lia.
    + unfold frame_pixel. rewrite Hw.
      replace ((i * w + j) * bpp) with (bpp * w * i + j * bpp) by ring.
      rewrite read_bytes_ok by nia.
      rewrite <- slice_convert_pixel by lia.
      unfold line, base. rewrite <- Hrows by exact Hi.
      rewrite slice_slice by lia.
      f_equal. f_equal. nia.
Qed.

End CropFacts.

Lemma swap_red_blue_iff (fmt : spa_video_format) :
  swap_red_blue fmt = true <->
  fmt = SPA_VIDEO_FORMAT_BGRA \/ fmt = SPA_VIDEO_FORMAT_BGRx.
Proof.
  destruct fmt; cbn; split; intros H; try discriminate; auto;
    destruct H as [H | H]; discriminate.
Qed.

Lemma convert_pixel (fmt : spa_video_format) (p : list byte) :
  List.length p = 4%nat -> convert_line (swap_red_blue fmt) p = rgb_order fmt p.
Proof.
  intros Hp. destruct p as [| b0 [| b1 [| b2 [| b3 [| ? ?]]]]]; try discriminate.
  destruct fmt; try reflexivity; apply copyline_pixel.
Qed.

Lemma convert_line_copy (fmt : spa_video_format) (p : list byte) :
  swap_red_blue fmt = false ->
  convert_line (swap_red_blue fmt) p = p /\ rgb_order fmt p = p.
Proof.
  intros H. rewrite H. split; [reflexivity |].
  destruct fmt; try reflexivity; discriminate.
Qed.

(** ** C4: the crop *)

(** C4.  For a source image of size W x H ([holds_image]) and a crop
    rectangle (x, y, w, h) within it ([crop_within]), the converter produces
    a frame whose tile has width w and height h; row i of the frame is the
    w-pixel segment of source row y+i that starts at column x, and pixel
    (j, i) of the frame is pixel (x+j, y+i) of the source, so pixel (0,0) is
    pixel (x, y).  The pixel comes in the channel order of the frame: byte
    for byte for a format that is copied, red and blue exchanged for BGRA and
    BGRx ([rgb_order]). *)
Theorem crop_correct {CI : codec_info} (dst : video_frame)
    (meta : option spa_meta_region) (mem : bytes) (c : spa_chunk)
    (fmt : spa_video_format) (size : spa_rectangle) (x y w h stride bpp : Z) :
  row_stride c size = Ok stride ->
  holds_image mem c size stride bpp ->
  crop_within size x y w h ->
  (forall n, 0 <= n -> vc_get_linesize n (color_spec dst) = bpp * n) ->
  (swap_red_blue fmt = true -> bpp = 4) ->
  bpp * w * h <= Z.of_nat (List.length (tile_data (tiles0 dst))) < 2 ^ 32 ->
  exists out,
    pw_frame_to_uv_frame_memcpy dst (buffer_of meta mem c) fmt size
      (Some (crop_rectangle x y w h)) = Ok out
    /\ tile_width (tiles0 out) = w
    /\ tile_height (tiles0 out) = h
    /\ (forall i, 0 <= i < h ->
          exists seg,
            image_row_segment mem (chunk_offset c) stride bpp x (y + i) w = Ok seg
            /\ frame_row out bpp i = Ok (convert_line (swap_red_blue fmt) seg))
    /\ (forall i j, 0 <= i < h -> 0 <= j < w ->
          exists p,
            image_pixel mem (chunk_offset c) stride bpp (x + j) (y + i) = Ok p
            /\ frame_pixel out bpp j i = Ok (rgb_order fmt p)).
Proof.
  intros Hstride Himg Hcrop Hcodec Hswap Hdst.
  destruct (crop_pixels dst meta mem c fmt size x y w h stride bpp
              Hstride Himg Hcrop Hcodec Hdst Hswap)
    as (out & Hout & Hw & Hh & Hrows & Hpix).
  exists out. repeat (split; [assumption |]).
  intros i j Hi Hj. destruct (Hpix i j Hi Hj) as (p & Hp & Hlen & Hf).
  exists p. split; [exact Hp |]. rewrite Hf. f_equal.
  destruct (swap_red_blue fmt) eqn:Hs.
  - rewrite <- Hs. apply convert_pixel. rewrite Hlen, (Hswap eq_refl). reflexivity.
  - symmetry. apply (convert_line_copy fmt p Hs).
Qed.

Lemma crop_correct_witness :
  exists out,
    @pw_frame_to_uv_frame_memcpy Ex.four_bytes Ex.frame_2x1
      (buffer_of None Ex.image (Ex.chunk_with_stride 12)) SPA_VIDEO_FORMAT_RGBA
      Ex.image_size (Some (crop_rectangle 1 1 2 1)) = Ok out
    /\ tile_width (tiles0 out) = 2
    /\ tile_height (tiles0 out) = 1
    /\ (forall i, 0 <= i < 1 ->
          exists seg,
            image_row_segment Ex.image 0 12 4 1 (1 + i) 2 = Ok seg
            /\ frame_row out 4 i = Ok (convert_line false seg))
    /\ (forall i j, 0 <= i < 1 -> 0 <= j < 2 ->
          exists p,
            image_pixel Ex.image 0 12 4 (1 + j) (1 + i) = Ok p
            /\ frame_pixel out 4 j i = Ok (rgb_order SPA_VIDEO_FORMAT_RGBA p)).
Proof.
  apply (@crop_correct Ex.four_bytes Ex.frame_2x1 None Ex.image
           (Ex.chunk_with_stride 12) SPA_VIDEO_FORMAT_RGBA Ex.image_size
           1 1 2 1 12 4).
  - reflexivity.
  - unfold holds_image. cbn. lia.
  - unfold crop_within. cbn. lia.
  - intros n _. reflexivity.
  - intros H. reflexivity.
  - split; [apply Z.leb_le | apply Z.ltb_lt]; vm_compute; reflexivity.
Defined.

(** ** C5: the channel swap *)

(** C5.  The converter flags exactly BGRA and BGRx for the red/blue swap.
    For a flagged format every pixel of the output has the bytes 0 and 2 of
    its source pixel exchanged: output[0] = input[2] and output[2] =
    input[0].  For every other format each output row is the source row
    segment, byte for byte. *)
Theorem channel_swap_correct {CI : codec_info} (dst : video_frame)
    (meta : option spa_meta_region) (mem : bytes) (c : spa_chunk)
    (fmt : spa_video_format) (size : spa_rectangle) (x y w h stride bpp : Z)
    (d : byte) :
  row_stride c size = Ok stride ->
  holds_image mem c size stride bpp ->
  crop_within size x y w h ->
  (forall n, 0 <= n -> vc_get_linesize n (color_spec dst) = bpp * n) ->
  (swap_red_blue fmt = true -> bpp = 4) ->
  bpp * w * h <= Z.of_nat (List.length (tile_data (tiles0 dst))) < 2 ^ 32 ->
  (swap_red_blue fmt = true <->
   fmt = SPA_VIDEO_FORMAT_BGRA \/ fmt = SPA_VIDEO_FORMAT_BGRx)
  /\ exists out,
       pw_frame_to_uv_frame_memcpy dst (buffer_of meta mem c) fmt size
         (Some (crop_rectangle x y w h)) = Ok out
       /\ (swap_red_blue fmt = true ->
           forall i j, 0 <= i < h -> 0 <= j < w ->
             exists input output,
               image_pixel mem (chunk_offset c) stride bpp (x + j) (y + i) = Ok input
               /\ frame_pixel out bpp j i = Ok output
               /\ nth 0 output d = nth 2 input d
               /\ nth 2 output d = nth 0 input d)
       /\ (swap_red_blue fmt = false ->
           forall i, 0 <= i < h ->
             exists seg,
               image_row_segment mem (chunk_offset c) stride bpp x (y + i) w = Ok seg
               /\ frame_row out bpp i = Ok seg).
Proof.
  intros Hstride Himg Hcrop Hcodec Hswap Hdst.
  split; [apply swap_red_blue_iff |].
  destruct (crop_pixels dst meta mem c fmt size x y w h stride bpp
              Hstride Himg Hcrop Hcodec Hdst Hswap)
    as (out & Hout & Hw & Hh & Hrows & Hpix).
  exists out. split; [exact Hout |]. split.
  - intros Hs i j Hi Hj. destruct (Hpix i j Hi Hj) as (p & Hp & Hlen & Hf).
    rewrite (Hswap Hs) in Hlen.
    destruct p as [| b0 [| b1 [| b2 [| b3 [| ? ?]]]]]; try discriminate.
    exists [b0; b1; b2; b3], [b2; b1; b0; b3].
    split; [exact Hp |]. split; [| split; reflexivity].
    rewrite Hf, Hs. unfold convert_line. now rewrite copyline_pixel.
  - intros Hs i Hi. destruct (Hrows i Hi) as (seg & Hseg & Hf).
    exists seg. split; [exact Hseg |]. rewrite Hf, Hs. reflexivity.
Qed.

Lemma channel_swap_correct_witness :
  (swap_red_blue SPA_VIDEO_FORMAT_BGRA = true <->
   SPA_VIDEO_FORMAT_BGRA = SPA_VIDEO_FORMAT_BGRA
   \/ SPA_VIDEO_FORMAT_BGRA = SPA_VIDEO_FORMAT_BGRx)
  /\ exists out,
       @pw_frame_to_uv_frame_memcpy Ex.four_bytes Ex.frame_2x1
         (buffer_of None Ex.image (Ex.chunk_with_stride 12)) SPA_VIDEO_FORMAT_BGRA
         Ex.image_size (Some (crop_rectangle 1 1 2 1)) = Ok out
       /\ (swap_red_blue SPA_VIDEO_FORMAT_BGRA = true ->
           forall i j, 0 <= i < 1 -> 0 <= j < 2 ->
             exists input output,
               image_pixel Ex.image 0 12 4 (1 + j) (1 + i) = Ok input
               /\ frame_pixel out 4 j i = Ok output
               /\ nth 0 output (byte.of_Z 0) = nth 2 input (byte.of_Z 0)
               /\ nth 2 output (byte.of_Z 0) = nth 0 input (byte.of_Z 0))
       /\ (swap_red_blue SPA_VIDEO_FORMAT_BGRA = false ->
           forall i, 0 <= i < 1 ->
             exists seg,
               image_row_segment Ex.image 0 12 4 1 (1 + i) 2 = Ok seg
               /\ frame_row out 4 i = Ok seg).
Proof.
  apply (@channel_swap_correct Ex.four_bytes Ex.frame_2x1 None Ex.image
           (Ex.chunk_with_stride 12) SPA_VIDEO_FORMAT_BGRA Ex.image_size
           1 1 2 1 12 4 (byte.of_Z 0)).
  - reflexivity.
  - unfold holds_image. cbn. lia.
  - unfold crop_within. cbn. lia.
  - intros n _. reflexivity.
  - intros H. reflexivity.
  - split; [apply Z.leb_le | apply Z.ltb_lt]; vm_compute; reflexivity.
Defined.

(** The swap at work on the example: the second row of the image, from its
    second pixel on, with bytes 0 and 2 of each pixel exchanged. *)
Example channel_swap_example :
  match @pw_frame_to_uv_frame_memcpy Ex.four_bytes Ex.frame_2x1
          (buffer_of None Ex.image (Ex.chunk_with_stride 12)) SPA_VIDEO_FORMAT_BGRA
          Ex.image_size (Some (crop_rectangle 1 1 2 1)) with
  | Ok out => map byte.unsigned (tile_data (tiles0 out))
  | _ => []
  end = [19; 18; 17; 20; 23; 22; 21; 24].
Proof. vm_compute. reflexivity. Qed.

(** ** C6: the stride *)

(** C6.  When the chunk reports no stride (the field is 0), the stride that
    addresses the source rows is chunk_size / image height, the height being
    the full negotiated one ([rect_height size]) and not the height of the
    crop: row i of the output is read [y + i] times that stride after the
    offset. *)
Theorem stride_derived_from_chunk_size {CI : codec_info} (dst : video_frame)
    (meta : option spa_meta_region) (mem : bytes) (c : spa_chunk)
    (fmt : spa_video_format) (size : spa_rectangle) (x y w h bpp : Z) :
  chunk_stride c = 0 ->
  0 < rect_height size ->
  0 <= chunk_size c / rect_height size < 2 ^ 31 ->
  holds_image mem c size (chunk_size c / rect_height size) bpp ->
  crop_within size x y w h ->
  (forall n, 0 <= n -> vc_get_linesize n (color_spec dst) = bpp * n) ->
  (swap_red_blue fmt = true -> bpp = 4) ->
  bpp * w * h <= Z.of_nat (List.length (tile_data (tiles0 dst))) < 2 ^ 32 ->
  row_stride c size = Ok (chunk_size c / rect_height size)
  /\ exists out,
       pw_frame_to_uv_frame_memcpy dst (buffer_of meta mem c) fmt size
         (Some (crop_rectangle x y w h)) = Ok out
       /\ forall i, 0 <= i < h ->
            exists seg,
              read_bytes mem (chunk_offset c
                              + (y + i) * (chunk_size c / rect_height size)
                              + x * bpp) (bpp * w) = Ok seg
              /\ frame_row out bpp i = Ok (convert_line (swap_red_blue fmt) seg).
Proof.
  intros Hzero HH Hrange Himg Hcrop Hcodec Hswap Hdst.
  assert (Hstride : row_stride c size = Ok (chunk_size c / rect_height size)).
  { unfold row_stride. rewrite Hzero. cbn [Z.eqb].
    destruct (Z.eqb_spec (rect_height size) 0); [lia |].
    now rewrite s32_small by lia. }
  split; [exact Hstride |].
  destruct (crop_pixels dst meta mem c fmt size x y w h _ bpp
              Hstride Himg Hcrop Hcodec Hdst Hswap)
    as (out & Hout & _ & _ & Hrows & _).
  exists out. split; [exact Hout |]. exact Hrows.
Qed.

Lemma stride_derived_from_chunk_size_witness :
  row_stride (Ex.chunk_with_stride 0) Ex.image_size = Ok (24 / 2)
  /\ exists out,
       @pw_frame_to_uv_frame_memcpy Ex.four_bytes Ex.frame_2x1
         (buffer_of None Ex.image (Ex.chunk_with_stride 0)) SPA_VIDEO_FORMAT_RGBA
         Ex.image_size (Some (crop_rectangle 1 1 2 1)) = Ok out
       /\ forall i, 0 <= i < 1 ->
            exists seg,
              read_bytes Ex.image (0 + (1 + i) * (24 / 2) + 1 * 4) (4 * 2) = Ok seg
              /\ frame_row out 4 i = Ok (convert_line false seg).
Proof.
  apply (@stride_derived_from_chunk_size Ex.four_bytes Ex.frame_2x1 None Ex.image
           (Ex.chunk_with_stride 0) SPA_VIDEO_FORMAT_RGBA Ex.image_size
           1 1 2 1 4).
  - reflexivity.
  - cbn. lia.
  - split; [apply Z.leb_le | apply Z.ltb_lt]; vm_compute; reflexivity.
  - unfold holds_image.
    change (chunk_size (Ex.chunk_with_stride 0) / rect_height Ex.image_size) with 12.
    cbn. lia.
  - unfold crop_within. cbn. lia.
  - intros n _. reflexivity.
  - intros H. reflexivity.
  - split; [apply Z.leb_le | apply Z.ltb_lt]; vm_compute; reflexivity.
Defined.

(** A stride the chunk does report is used as it is. *)
Lemma stride_reported (c : spa_chunk) (size : spa_rectangle) :
  chunk_stride c <> 0 -> row_stride c size = Ok (chunk_stride c).
Proof.
  intros H. unfold row_stride.
  destruct (Z.eqb_spec (chunk_stride c) 0); [contradiction | reflexivity].
Qed.

(** ** The option parser *)

Section Options.
Local Open Scope string_scope.

(** What the extraction stores for a value that does not read as a number:
    nothing when the value is blank, 0 otherwise. *)
Lemma extract_not_a_number (v : string) (old : Z) :
  Str.parses_as_number v = false ->
  Str.extract_uint32 v old = (false, if blank v then old else 0%Z).
Proof.
  unfold Str.parses_as_number, Str.extract_uint32, blank.
  destruct (Str.skipws v) as [| c rest]; [reflexivity |].
  destruct (Ascii.eqb c "-") eqn:Hm; [| destruct (Ascii.eqb c "+") eqn:Hp];
    cbn [orb].
  - destruct rest as [| d rest']; [reflexivity |].
    cbn [Str.digits]. destruct (Str.digit_value d); [discriminate | reflexivity].
  - destruct rest as [| d rest']; [reflexivity |].
    cbn [Str.digits]. destruct (Str.digit_value d); [discriminate | reflexivity].
  - cbn [Str.digits]. destruct (Str.digit_value c); [discriminate | reflexivity].
Qed.

Lemma parse_param_fps (capitals : bool) (v : string) (o : user_options_t) :
  parse_param ((if capitals then "FPS=" else "fps=") ++ v) o
  = Continue (set_fps (snd (Str.extract_uint32 v (fps o))) o).
Proof. destruct capitals; reflexivity. Qed.

Lemma getline_from_no_colon (p : string) :
  Str.find p ":"%char = None ->
  Str.getline_from p ":"%char = (p, "")
  /\ forall rest, Str.getline_from (p ++ String ":" rest) ":"%char = (p, rest).
Proof.
  induction p as [| a p IH]; intros H; [split; reflexivity |].
  cbn in H. cbn [Str.getline_from String.append].
  destruct (Ascii.eqb a ":"); [discriminate |].
  destruct (Str.find p ":"%char); [discriminate |].
  destruct (IH eq_refl) as (IH1 & IH2).
  split; [now rewrite IH1 | intros rest; now rewrite IH2].
Qed.

Lemma length_append (a b : string) :
  String.length (a ++ b) = (String.length a + String.length b)%nat.
Proof. induction a as [| c a IH]; cbn; [reflexivity | now rewrite IH]. Qed.

(** The loop over a text made of options joined by colons does what the
    options do one after the other. *)
Lemma parse_params_loop_concat (ps : list string) :
  forall (o o' : user_options_t) (fuel : nat),
  Forall (fun p => Str.find p ":"%char = None) ps ->
  apply_options ps o = Some o' ->
  (String.length (String.concat ":" ps) <= fuel)%nat ->
  parse_params_loop fuel (String.concat ":" ps) o = (VIDCAP_INIT_OK, o', []).
Proof.
  induction ps as [| p rest IH]; intros o o' fuel Hnc Happ Hfuel.
  - cbn in Happ. injection Happ as <-. destruct fuel; reflexivity.
  - inversion Hnc as [| ? ? Hp Hrest]; subst.
    cbn [apply_options] in Happ.
    destruct (parse_param p o) as [o1 |] eqn:Hpp; [| discriminate].
    assert (Hne : p <> "") by (intros ->; discriminate).
    destruct (getline_from_no_colon p Hp) as (Hg1 & Hg2).
    destruct rest as [| q rest'].
    + cbn [String.concat] in *. cbn in Happ. injection Happ as <-.
      destruct p as [| a p']; [contradiction |].
      destruct fuel as [| fuel]; [cbn in Hfuel; lia |].
      cbn [parse_params_loop Str.getline]. rewrite Hg1, Hpp.
      destruct fuel; reflexivity.
    + change (String.concat ":" (p :: q :: rest'))
        with (p ++ String ":" (String.concat ":" (q :: rest'))) in *.
      rewrite length_append in Hfuel. cbn [String.length] in Hfuel.
      destruct fuel as [| fuel]; [lia |].
      cbn [parse_params_loop].
      assert (Hgl : Str.getline (p ++ String ":" (String.concat ":" (q :: rest'))) ":"%char
                    = Some (p, String.concat ":" (q :: rest'))).
      { destruct p as [| a p']; [contradiction |].
        unfold Str.getline. cbn [String.append]. f_equal. apply (Hg2 _). }
      rewrite Hgl, Hpp. apply IH; [exact Hrest | exact Happ | lia].
Qed.

Lemma apply_options_app (ps qs : list string) : forall o,
  apply_options (ps ++ qs) o =
  match apply_options ps o with
  | Some o' => apply_options qs o'
  | None => None
  end.
Proof.
  induction ps as [| p ps IH]; intros o; [reflexivity |].
  cbn [app apply_options]. destruct (parse_param p o); [apply IH | reflexivity].
Qed.

End Options.

(** A value that overflows is a number, and is not left at 0: the
    extraction stores the largest value. *)
Example fps_overflow :
  Str.extract_uint32 "99999999999"%string 0 = (false, UINT32_MAX).
Proof. vm_compute. reflexivity. Qed.

(** An empty value stores nothing: an earlier fps option stays. *)
Example fps_empty_after_number :
  fps (user_options (snd (fst (parse_params (Some "fps=25:fps="%string)
                                            new_screen_cast_session)))) = 25.
Proof. vm_compute. reflexivity. Qed.

(** ** C9: teardown *)

Lemma stopped_loop_is_silent (tl : list moment) : forall v,
  loop_running v = false ->
  loop_running (timeline_run tl v) = false
  /\ handlers_invoked (timeline_run tl v) = handlers_invoked v.
Proof.
  induction tl as [| m tl IH]; intros v Hv; [split; [exact Hv | reflexivity] |].
  cbn [timeline_run fold_left]. fold (timeline_run tl (moment_step v m)).
  assert (Hm : loop_running (moment_step v m) = false
               /\ handlers_invoked (moment_step v m) = handlers_invoked v).
  { destruct m as [[| | | |] |]; cbn; try (split; [assumption | reflexivity]);
      try (split; reflexivity).
    unfold dispatch. rewrite Hv. cbn. split; [assumption | reflexivity]. }
  destruct Hm as (Hr & Hc). destruct (IH _ Hr) as (IH1 & IH2).
  split; [exact IH1 | congruence].
Qed.

Lemma timeline_run_app (a b : list moment) (v : service) :
  timeline_run (a ++ b) v = timeline_run b (timeline_run a v).
Proof. apply fold_left_app. Qed.

Lemma calls_of_app (a b : list moment) : calls_of (a ++ b) = calls_of a ++ calls_of b.
Proof. apply flat_map_app. Qed.

Lemma stop_first_freezes (rest : list pw_call) (before after : list moment)
    (v : service) :
  ~ In Call_pw_thread_loop_stop rest ->
  calls_of (before ++ Call Call_pw_thread_loop_stop :: after)
  = Call_pw_thread_loop_stop :: rest ->
  calls_of before = []
  /\ handlers_invoked
       (timeline_run (before ++ Call Call_pw_thread_loop_stop :: after) v)
     = handlers_invoked
         (timeline_run (before ++ [Call Call_pw_thread_loop_stop]) v).
Proof.
  intros Hnot Hcalls. split.
  - rewrite calls_of_app in Hcalls. cbn in Hcalls.
    destruct (calls_of before) as [| c cs]; [reflexivity |].
    cbn in Hcalls. injection Hcalls as -> Hrest.
    exfalso. apply Hnot. rewrite <- Hrest. apply in_elt.
  - change (Call Call_pw_thread_loop_stop :: after)
      with ([Call Call_pw_thread_loop_stop] ++ after).
    rewrite app_assoc, timeline_run_app.
    apply stopped_loop_is_silent.
    rewrite timeline_run_app. reflexivity.
Qed.

(** C9.  With a loop to tear down, the first call of the destructor stops
    the loop, and nothing but that call stops it; the stream, the context and
    the loop are destroyed after it, in that order (the loop always, the
    other two when they exist).  On every timeline that makes these calls,
    with attempts of the loop thread to invoke a handler anywhere in
    between, no call comes before the stop and the count of handler
    invocations is frozen from the moment the stop returns. *)
Theorem teardown_order (p : pw_) :
  is_set (loop p) = true ->
  (exists rest,
      pw_destructor p = Call_pw_thread_loop_stop :: rest
      /\ ~ In Call_pw_thread_loop_stop rest)
  /\ in_order Call_pw_stream_destroy Call_pw_context_destroy (pw_destructor p)
  /\ in_order Call_pw_context_destroy Call_pw_thread_loop_destroy (pw_destructor p)
  /\ in_order Call_pw_stream_destroy Call_pw_thread_loop_destroy (pw_destructor p)
  /\ called Call_pw_thread_loop_destroy (pw_destructor p)
  /\ (is_set (stream p) = true -> called Call_pw_stream_destroy (pw_destructor p))
  /\ (is_set (context p) = true -> called Call_pw_context_destroy (pw_destructor p))
  /\ forall (before after : list moment) (v : service),
       calls_of (before ++ Call Call_pw_thread_loop_stop :: after) = pw_destructor p ->
       calls_of before = []
       /\ handlers_invoked
            (timeline_run (before ++ Call Call_pw_thread_loop_stop :: after) v)
          = handlers_invoked
              (timeline_run (before ++ [Call Call_pw_thread_loop_stop]) v).
Proof.
  intros Hloop.
  assert (Hhead : exists rest,
             pw_destructor p = Call_pw_thread_loop_stop :: rest
             /\ ~ In Call_pw_thread_loop_stop rest).
  { unfold pw_destructor. rewrite Hloop.
    eexists. split; [reflexivity |].
    destruct (is_set (stream p)), (is_set (context p)), (fd p >? 0); cbn;
      intuition discriminate. }
  split; [exact Hhead |].
  assert (Horder :
    in_order Call_pw_stream_destroy Call_pw_context_destroy (pw_destructor p)
    /\ in_order Call_pw_context_destroy Call_pw_thread_loop_destroy (pw_destructor p)
    /\ in_order Call_pw_stream_destroy Call_pw_thread_loop_destroy (pw_destructor p)).
  { unfold pw_destructor, in_order. rewrite Hloop.
    destruct (is_set (stream p)), (is_set (context p)), (fd p >? 0); cbn;
      repeat split; intros i j Hi Hj; try discriminate;
      injection Hi as <-; injection Hj as <-; lia. }
  destruct Horder as (Ho1 & Ho2 & Ho3).
  split; [exact Ho1 |]. split; [exact Ho2 |]. split; [exact Ho3 |].
  split; [| split; [| split]].
  - unfold pw_destructor, called. rewrite Hloop.
    destruct (is_set (stream p)), (is_set (context p)); cbn; eexists; reflexivity.
  - intros Hs. unfold pw_destructor, called. rewrite Hloop, Hs.
    cbn. eexists; reflexivity.
  - intros Hc. unfold pw_destructor, called. rewrite Hloop, Hc.
    destruct (is_set (stream p)); cbn; eexists; reflexivity.
  - intros before after v Hcalls.
    destruct Hhead as (rest & Hd & Hnot). rewrite Hd in Hcalls.
    exact (stop_first_freezes rest before after v Hnot Hcalls).
Qed.

Lemma teardown_order_witness :
  in_order Call_pw_stream_destroy Call_pw_context_destroy
    (pw_destructor {| fd := 5; node := 6; loop := Some 0%nat; context := Some 1%nat;
                      stream := Some 2%nat; format := zero_video_info |})
  /\ handlers_invoked
       (timeline_run
          ([Attempt] ++ Call Call_pw_thread_loop_stop
             :: [Attempt; Call Call_pw_stream_destroy; Attempt;
                 Call Call_pw_context_destroy; Call Call_pw_thread_loop_destroy;
                 Attempt; Call (Call_close 5)])
          (capturing {| fd := 5; node := 6; loop := Some 0%nat; context := Some 1%nat;
                        stream := Some 2%nat; format := zero_video_info |} 0))
     = 1%nat.
Proof.
  pose proof (teardown_order
                {| fd := 5; node := 6; loop := Some 0%nat; context := Some 1%nat;
                   stream := Some 2%nat; format := zero_video_info |} eq_refl)
    as (_ & Hord & _ & _ & _ & _ & _ & Hfreeze).
  split; [exact Hord |].
  destruct (Hfreeze [Attempt]
              [Attempt; Call Call_pw_stream_destroy; Attempt;
               Call Call_pw_context_destroy; Call Call_pw_thread_loop_destroy;
               Attempt; Call (Call_close 5)]
              (capturing {| fd := 5; node := 6; loop := Some 0%nat;
                            context := Some 1%nat; stream := Some 2%nat;
                            format := zero_video_info |} 0)
              eq_refl) as (_ & Hcount).
  rewrite Hcount. reflexivity.
Defined.


(** ** The phases of the handler and of grab *)

Lemma pop_back_spec {A : Type} (v : list A) :
  match pop_back v with
  | Some (x, rest) => v = rest ++ [x]
  | None => v = []
  end.
Proof.
  induction v as [| a v IH]; [reflexivity |].
  cbn [pop_back]. destruct (pop_back v) as [[y rest] |].
  - cbn. now rewrite IH.
  - now rewrite IH.
Qed.

Section Phases.
Context {CI : codec_info}.

Lemma converter_frame_id (dst out : video_frame) (sb : spa_buffer)
    (fmt : spa_video_format) (size : spa_rectangle) (crop : option spa_region) :
  pw_frame_to_uv_frame_memcpy dst sb fmt size crop = Ok out ->
  frame_id out = frame_id dst
  /\ video_desc_from_frame out
     = set_desc_size (out_width size crop) (out_height size crop)
         (video_desc_from_frame dst).
Proof.
  unfold pw_frame_to_uv_frame_memcpy.
  destruct (datas sb) as [| [[mem |] [c |]] rest]; try discriminate.
  intros H. apply bind_ok in H as (stride & _ & H).
  apply bind_ok in H as (bytes_out & _ & H).
  injection H as <-. split; reflexivity.
Qed.

(** How the first part of a turn can end. *)
Lemma acquire_spec (w w' : world) (a : acquired) :
  on_process_acquire w = Ok (a, w') ->
  match stream_ready w with
  | [] => a = NoBuffer /\ w' = w
  | b :: rest =>
      stream_ready w' = rest
      /\ next_frame_id w' = next_frame_id w
      /\ ((a = Dropped
           /\ session w' = session w
           /\ trace w' = trace w ++ [EvDequeue b; EvQueueBuffer b])
          \/ (exists sb f,
                 a = Got b sb f
                 /\ buffer b = Some sb
                 /\ blank_frames (session w) = blank_frames (session w') ++ [f]
                 /\ session w' = set_blank_frames (blank_frames (session w')) (session w)
                 /\ trace w' = trace w ++ [EvDequeue b]))
  end.
Proof.
  unfold on_process_acquire, pw_stream_dequeue_buffer.
  destruct (stream_ready w) as [| b rest].
  - intros H. injection H as <- <-. split; reflexivity.
  - destruct (buffer b) as [sb |]; [| discriminate].
    destruct (datas sb) as [| d [| ? ?]]; try discriminate.
    destruct (data d); cbn [assert bind]; [| discriminate].
    destruct (empty_payload d).
    + intros H. injection H as <- <-. cbn.
      split; [reflexivity |]. split; [reflexivity |]. left.
      split; [reflexivity |]. split; [reflexivity |].
      now rewrite <- app_assoc.
    + cbn [session emit].
      pose proof (pop_back_spec (blank_frames (session w))) as Hpop.
      destruct (pop_back (blank_frames (session w))) as [[f bl] |].
      * intros H. injection H as <- <-. cbn.
        split; [reflexivity |]. split; [reflexivity |]. right.
        exists sb, f. repeat split; assumption.
      * intros H. injection H as <- <-. cbn.
        split; [reflexivity |]. split; [reflexivity |]. left.
        split; [reflexivity |]. split; [reflexivity |].
        now rewrite <- app_assoc.
Qed.

(** The conversion either keeps the frame or, when its shape is not the
    descriptor's, replaces it by a new one. *)
Lemma fill_spec (sb : spa_buffer) (f f' : video_frame) (w w' : world) :
  on_process_fill sb f w = Ok (f', w') ->
  let crop_region := crop_region_of (session w) sb in
  let d := desc_for_crop crop_region (desc (session w)) in
  session w' = set_desc d (session w)
  /\ stream_ready w' = stream_ready w
  /\ ((video_desc_eq (video_desc_from_frame f) d = true
       /\ frame_id f' = frame_id f
       /\ video_desc_from_frame f'
          = set_desc_size (out_width (info_size (info_raw (format (pw (session w)))))
                                     crop_region)
                          (out_height (info_size (info_raw (format (pw (session w)))))
                                      crop_region)
                          (video_desc_from_frame f)
       /\ next_frame_id w' = next_frame_id w
       /\ trace w' = trace w)
      \/ (video_desc_eq (video_desc_from_frame f) d = false
          /\ frame_id f' = next_frame_id w
          /\ video_desc_from_frame f'
             = set_desc_size (out_width (info_size (info_raw (format (pw (session w)))))
                                        crop_region)
                             (out_height (info_size (info_raw (format (pw (session w)))))
                                         crop_region)
                             d
          /\ next_frame_id w' = S (next_frame_id w)
          /\ trace w' = trace w ++ [EvAlloc (next_frame_id w); EvFree (frame_id f)])).
Proof.
  unfold on_process_fill. cbn zeta. cbn [desc set_desc session set_session].
  destruct (video_desc_eq (video_desc_from_frame f) _) eqn:Heq; cbn [negb].
  - intros H. apply bind_ok in H as (out & Hconv & H). injection H as <- <-.
    apply converter_frame_id in Hconv as (Hid & Hdesc).
    split; [reflexivity |]. split; [reflexivity |]. left.
    repeat split; assumption.
  - unfold reset_frame, fresh_frame_id, vf_free. cbn [session emit desc set_desc].
    intros H. apply bind_ok in H as (out & Hconv & H). injection H as <- <-.
    apply converter_frame_id in Hconv as (Hid & Hdesc).
    split; [reflexivity |]. split; [reflexivity |]. right.
    split; [reflexivity |]. split; [exact Hid |]. split; [exact Hdesc |].
    split; [reflexivity |]. cbn. now rewrite <- app_assoc.
Qed.

Lemma push_spec (b : pw_buffer) (f : video_frame) (w w' : world) :
  on_process_push b f w = Ok w' ->
  (List.length (sending_frames (session w)) < 3)%nat
  /\ session w' = set_sending_frames (sending_frames (session w) ++ [f]) (session w)
  /\ stream_ready w' = stream_ready w
  /\ next_frame_id w' = next_frame_id w
  /\ trace w' = trace w ++ [EvPush f; EvQueueBuffer b].
Proof.
  unfold on_process_push, synchronized_queue_push.
  destruct (Z.ltb_spec (Z.of_nat (List.length (sending_frames (session w)))) QUEUE_SIZE)
    as [Hlt | Hge]; [| discriminate].
  cbn [bind]. intros H. injection H as <-. cbn.
  split; [unfold QUEUE_SIZE in Hlt; lia |].
  repeat split. now rewrite <- app_assoc.
Qed.

Lemma push_ok (b : pw_buffer) (f : video_frame) (w : world) :
  (List.length (sending_frames (session w)) < 3)%nat ->
  exists w', on_process_push b f w = Ok w'.
Proof.
  intros H. unfold on_process_push, synchronized_queue_push.
  destruct (Z.ltb_spec (Z.of_nat (List.length (sending_frames (session w)))) QUEUE_SIZE)
    as [Hlt | Hge]; [| unfold QUEUE_SIZE in Hge; lia].
  eexists. reflexivity.
Qed.

End Phases.

Lemma grab_return_spec (w : world) :
  in_flight_frame (session (grab_return_in_flight w)) = None
  /\ blank_frames (session (grab_return_in_flight w))
     = blank_frames (session w) ++ in_flight_frames (session w)
  /\ sending_frames (session (grab_return_in_flight w)) = sending_frames (session w)
  /\ desc (session (grab_return_in_flight w)) = desc (session w)
  /\ user_options (session (grab_return_in_flight w)) = user_options (session w)
  /\ pw (session (grab_return_in_flight w)) = pw (session w)
  /\ next_frame_id (grab_return_in_flight w) = next_frame_id w
  /\ stream_ready (grab_return_in_flight w) = stream_ready w
  /\ trace (grab_return_in_flight w) = trace w.
Proof.
  unfold grab_return_in_flight, in_flight_frames.
  destruct (in_flight_frame (session w)) as [f |] eqn:Hf; cbn.
  - repeat split.
  - rewrite Hf, app_nil_r. repeat split.
Qed.

(** What the pop does when nothing is in flight, as after
    [grab_return_in_flight]. *)
Lemma grab_pop_spec (w : world) :
  in_flight_frame (session w) = None ->
  let r := grab_timed_pop w in
  in_flight_frame (session (snd r)) = fst (fst r)
  /\ blank_frames (session (snd r)) = blank_frames (session w)
  /\ desc (session (snd r)) = desc (session w)
  /\ user_options (session (snd r)) = user_options (session w)
  /\ pw (session (snd r)) = pw (session w)
  /\ next_frame_id (snd r) = next_frame_id w
  /\ stream_ready (snd r) = stream_ready w
  /\ trace (snd r) = trace w ++ [EvGrab (fst (fst r))]
  /\ match sending_frames (session w) with
     | f :: rest =>
         fst (fst r) = Some f /\ sending_frames (session (snd r)) = rest
         /\ snd (fst r) = 0
     | [] =>
         fst (fst r) = None /\ sending_frames (session (snd r)) = []
         /\ snd (fst r) = GRAB_TIMEOUT_MS
     end.
Proof.
  intros Hnone. unfold grab_timed_pop, synchronized_queue_timed_pop.
  destruct (sending_frames (session w)) as [| f rest] eqn:Hq; cbn.
  - rewrite Hnone, Hq. repeat split.
  - rewrite Hnone. cbn. repeat split.
Qed.

(** ** C7: grab *)

(** C7.  grab first returns the frame the caller still holds to the pool
    (at its back), then pops from the hand-off queue with the fixed timeout
    of 500 ms and is blocked no longer than that.  When the queue has a
    frame, grab takes it into the in-flight slot and returns it at once;
    otherwise it returns the null pointer after the timeout.  Either way it
    is a plain return: nothing is freed or allocated.  The in-flight slot
    holds exactly the frame returned, so at most one frame is in flight. *)
Theorem grab_contract (w w' : world) (ret : unique_frame) (waited : Z) :
  vidcap_screen_pw_grab w = ((ret, waited), w') ->
  blank_frames (session w') = blank_frames (session w) ++ in_flight_frames (session w)
  /\ GRAB_TIMEOUT_MS = 500
  /\ 0 <= waited <= GRAB_TIMEOUT_MS
  /\ match sending_frames (session w) with
     | f :: rest =>
         ret = Some f /\ sending_frames (session w') = rest /\ waited = 0
     | [] =>
         ret = None /\ sending_frames (session w') = [] /\ waited = GRAB_TIMEOUT_MS
     end
  /\ in_flight_frame (session w') = ret
  /\ (List.length (in_flight_frames (session w')) <= 1)%nat
  /\ trace w' = trace w ++ [EvGrab ret].
Proof.
  unfold vidcap_screen_pw_grab. intros H.
  destruct (grab_return_spec w)
    as (Hnone & Hblank & Hsend & _ & _ & _ & _ & _ & Htrace).
  pose proof (grab_pop_spec (grab_return_in_flight w) Hnone) as Hpop.
  rewrite H in Hpop. cbn [fst snd] in Hpop.
  destruct Hpop as (Hin & Hb & _ & _ & _ & _ & _ & Ht & Hq).
  rewrite Hsend in Hq. rewrite Hb, Hblank, Ht, Htrace.
  split; [reflexivity |]. split; [reflexivity |].
  split; [destruct (sending_frames (session w)); unfold GRAB_TIMEOUT_MS in *; lia |].
  split; [exact Hq |]. split; [exact Hin |]. split; [| reflexivity].
  unfold in_flight_frames. rewrite Hin. destruct ret; cbn; lia.
Qed.

Lemma grab_contract_witness :
  blank_frames (session (snd (vidcap_screen_pw_grab (Ex.exhausted []))))
  = blank_frames (session (Ex.exhausted []))
      ++ in_flight_frames (session (Ex.exhausted []))
  /\ GRAB_TIMEOUT_MS = 500
  /\ 0 <= 0 <= GRAB_TIMEOUT_MS
  /\ match sending_frames (session (Ex.exhausted [])) with
     | f :: rest =>
         Some (vf_alloc 1 1) = Some f
         /\ sending_frames (session (snd (vidcap_screen_pw_grab (Ex.exhausted []))))
            = rest
         /\ 0 = 0
     | [] =>
         Some (vf_alloc 1 1) = None
         /\ sending_frames (session (snd (vidcap_screen_pw_grab (Ex.exhausted []))))
            = []
         /\ 0 = GRAB_TIMEOUT_MS
     end
  /\ in_flight_frame (session (snd (vidcap_screen_pw_grab (Ex.exhausted []))))
     = Some (vf_alloc 1 1)
  /\ (List.length
        (in_flight_frames (session (snd (vidcap_screen_pw_grab (Ex.exhausted [])))))
      <= 1)%nat
  /\ trace (snd (vidcap_screen_pw_grab (Ex.exhausted [])))
     = trace (Ex.exhausted []) ++ [EvGrab (Some (vf_alloc 1 1))].
Proof.
  apply (grab_contract (Ex.exhausted [])
           (snd (vidcap_screen_pw_grab (Ex.exhausted [])))
           (Some (vf_alloc 1 1)) 0).
  reflexivity.
Defined.

(** With nothing in the queue grab returns the null pointer after the whole
    timeout. *)
Example grab_times_out :
  fst (vidcap_screen_pw_grab new_world) = (None, 500).
Proof. reflexivity. Qed.

(** ** C3: the external buffer goes back *)

Lemma stream_calls_app (a b : list event) :
  stream_calls (a ++ b) = stream_calls a ++ stream_calls b.
Proof. apply filter_app. Qed.

Section Release.
Context {CI : codec_info}.

Lemma iteration_spec (w w' : world) (continue : bool) :
  on_process_iteration w = Ok (continue, w') ->
  match stream_ready w with
  | [] => continue = false /\ w' = w
  | b :: rest =>
      continue = true
      /\ stream_ready w' = rest
      /\ stream_calls (trace w')
         = stream_calls (trace w) ++ [EvDequeue b; EvQueueBuffer b]
  end.
Proof.
  unfold on_process_iteration. intros H.
  apply bind_ok in H as ([a w1] & Hacq & H). cbn [fst snd] in H.
  apply acquire_spec in Hacq.
  destruct (stream_ready w) as [| b rest].
  - destruct Hacq as (-> & ->). now injection H as <- <-.
  - destruct Hacq as (Hready & _ & [(-> & _ & Ht) | (sb & f & -> & _ & _ & _ & Ht)]).
    + injection H as <- <-. rewrite Ht, stream_calls_app. auto.
    + apply bind_ok in H as ([f1 w2] & Hfill & H). cbn [fst snd] in H.
      apply bind_ok in H as (w3 & Hpush & H). injection H as <- <-.
      apply fill_spec in Hfill as (_ & Hr2 & Hfill).
      apply push_spec in Hpush as (_ & _ & Hr3 & _ & Ht3).
      split; [reflexivity |]. split; [congruence |].
      rewrite Ht3, stream_calls_app.
      destruct Hfill as [(_ & _ & _ & _ & Ht2) | (_ & _ & _ & _ & Ht2)];
        rewrite Ht2, ?stream_calls_app, Ht, stream_calls_app; cbn;
        rewrite ?app_nil_r, <- app_assoc; reflexivity.
Qed.






End Release.



(** ** From steps to moves *)

Lemma freed_ids_app (a b : list event) : freed_ids (a ++ b) = freed_ids a ++ freed_ids b.
Proof. apply flat_map_app. Qed.

Lemma pushed_frames_app (a b : list event) :
  pushed_frames (a ++ b) = pushed_frames a ++ pushed_frames b.
Proof. apply flat_map_app. Qed.

Lemma grabbed_frames_app (a b : list event) :
  grabbed_frames (a ++ b) = grabbed_frames a ++ grabbed_frames b.
Proof. apply flat_map_app. Qed.

Section Moves.
Context {CI : codec_info}.

Lemma param_changed_spec (w : world) (id : Z) (param : option spa_pod) :
  let w' := on_stream_param_changed w id param in
  in_flight_frame (session w') = in_flight_frame (session w)
  /\ blank_frames (session w') = blank_frames (session w)
  /\ sending_frames (session w') = sending_frames (session w)
  /\ next_frame_id w' = next_frame_id w
  /\ stream_ready w' = stream_ready w
  /\ freed_ids (trace w') = freed_ids (trace w)
  /\ allocated_ids (trace w') = allocated_ids (trace w)
  /\ pushed_frames (trace w') = pushed_frames (trace w)
  /\ grabbed_frames (trace w') = grabbed_frames (trace w).
Proof.
  unfold on_stream_param_changed.
  destruct param as [pod |]; [| cbn; repeat split].
  destruct (negb (id =? SPA_PARAM_Format)); [cbn; repeat split |].
  cbn [media_type media_subtype].
  destruct (negb (pod_media_type pod =? SPA_MEDIA_TYPE_video)
            || negb (pod_media_subtype pod =? SPA_MEDIA_SUBTYPE_raw)).
  - cbn. repeat split.
  - cbn. unfold freed_ids, allocated_ids, pushed_frames, grabbed_frames.
    rewrite !flat_map_app. cbn. rewrite !app_nil_r. repeat split.
Qed.

Lemma step_moves (l : label) (s s' : system) :
  grab_ready s ->
  step l s = Ok s' ->
  moves l (holdings_of s) (holdings_of s').
Proof.
  intros Hready Hstep. destruct l; cbn [step] in Hstep.
  - (* Deliver *)
    injection Hstep as <-. apply Move_deliver.
  - (* ParamChanged *)
    destruct (handler s) eqn:Hh; try discriminate. injection Hstep as <-.
    destruct (param_changed_spec (sys_world s) id param)
      as (Hfl & Hbl & Hsn & Hnx & _ & Hfr & _ & Hpu & Hgr).
    unfold holdings_of, in_flight_frames. cbn [sys_world handler grabber].
    rewrite Hfl, Hbl, Hsn, Hnx, Hfr, Hpu, Hgr, Hh. apply Move_param_changed.
  - (* Acquire *)
    destruct (handler s) eqn:Hh; try discriminate.
    destruct (pushing_back s && comes_to_pool (sys_world s)); [discriminate |].
    apply bind_ok in Hstep as ([a w1] & Hacq & Hstep). injection Hstep as <-.
    apply acquire_spec in Hacq. cbn [fst snd].
    unfold holdings_of, in_flight_frames. cbn [sys_world handler grabber]. rewrite Hh.
    destruct (stream_ready (sys_world s)) as [| b rest].
    + destruct Hacq as (-> & ->). apply Move_acquire_nothing.
    + destruct Hacq as (_ & Hnx & [(-> & Hs & Ht) | (sb & f & -> & _ & Hbl & Hs & Ht)]).
      * rewrite Hs, Hnx, Ht.
        unfold freed_ids, pushed_frames, grabbed_frames.
        rewrite !flat_map_app. cbn. rewrite !app_nil_r. apply Move_acquire_nothing.
      * rewrite Hnx, Ht.
        unfold freed_ids, pushed_frames, grabbed_frames.
        rewrite !flat_map_app. cbn. rewrite !app_nil_r.
        rewrite Hbl. rewrite Hs. cbn.
        apply Move_acquire.
  - (* Fill *)
    destruct (handler s) as [| b sb f |] eqn:Hh; try discriminate.
    apply bind_ok in Hstep as ([f1 w1] & Hfill & Hstep). injection Hstep as <-.
    apply fill_spec in Hfill as (Hs & _ & Hfill). cbn [fst snd].
    unfold holdings_of, in_flight_frames. cbn [sys_world handler grabber handler_frames].
    rewrite Hh, Hs. cbn.
    destruct Hfill as [(Heq & Hid & _ & Hnx & Ht) | (Hne & Hid & _ & Hnx & Ht)];
      rewrite Hnx, Ht.
    + apply Move_fill_keep; assumption.
    + unfold freed_ids, pushed_frames, grabbed_frames.
      rewrite !flat_map_app. cbn. rewrite !app_nil_r.
      apply Move_fill_realloc; assumption.
  - (* Push *)
    destruct (handler s) as [| | b f] eqn:Hh; try discriminate.
    apply bind_ok in Hstep as (w1 & Hpush & Hstep). injection Hstep as <-.
    apply push_spec in Hpush as (Hlen & Hs & _ & Hnx & Ht).
    unfold holdings_of, in_flight_frames. cbn [sys_world handler grabber handler_frames].
    rewrite Hh, Hs, Hnx, Ht. cbn.
    unfold freed_ids, pushed_frames, grabbed_frames.
    rewrite !flat_map_app. cbn. rewrite !app_nil_r.
    apply Move_push. exact Hlen.
  - (* GrabEnter *)
    destruct (grabber s) eqn:Hg; try discriminate. injection Hstep as <-.
    unfold holdings_of. cbn [sys_world handler grabber]. rewrite Hg.
    apply Move_grab_enter.
  - (* GrabReturn *)
    destruct (grabber s) eqn:Hg; try discriminate. injection Hstep as <-.
    destruct (grab_return_spec (sys_world s))
      as (Hnone & Hbl & Hsn & Hd & _ & _ & Hnx & _ & Ht).
    assert (Hfl : in_flight_frames (session (grab_return_in_flight (sys_world s))) = [])
      by (unfold in_flight_frames; now rewrite Hnone).
    unfold holdings_of. cbn [sys_world handler grabber].
    rewrite Hfl, Hbl, Hsn, Hd, Hnx, Ht, Hg.
    apply Move_grab_return.
  - (* GrabPop *)
    destruct (grabber s) eqn:Hg; try discriminate. injection Hstep as <-.
    pose proof (Hready Hg) as Hnone.
    pose proof (grab_pop_spec (sys_world s) Hnone) as Hpop. cbn zeta in Hpop.
    destruct Hpop as (Hin & Hbl & Hd & _ & _ & Hnx & _ & Ht & Hq).
    unfold holdings_of. cbn [sys_world handler grabber].
    rewrite Hbl, Hd, Hnx, Ht, Hg.
    unfold in_flight_frames. rewrite Hin, Hnone.
    unfold freed_ids, pushed_frames, grabbed_frames.
    rewrite !flat_map_app. cbn [flat_map]. rewrite !app_nil_r.
    destruct (sending_frames (session (sys_world s))) as [| f rest].
    + destruct Hq as (-> & -> & _). cbn. rewrite app_nil_r. apply Move_grab_timeout.
    + destruct Hq as (-> & -> & _). cbn. apply Move_grab_pop.
Qed.

End Moves.

(** ** The moves keep the accounts *)

Ltac count_frames :=
  repeat rewrite ?map_app, ?count_occ_app, ?length_app in *;
  cbn [map count_occ List.length] in *;
  repeat match goal with
         | |- context [Nat.eq_dec ?a ?b] => destruct (Nat.eq_dec a b)
         | H : context [Nat.eq_dec ?a ?b] |- _ => destruct (Nat.eq_dec a b)
         | |- context [Nat.ltb ?a ?b] => destruct (Nat.ltb_spec a b)
         | H : context [Nat.ltb ?a ?b] |- _ => destruct (Nat.ltb_spec a b)
         end;
  try lia.

Lemma moves_accounted (l : label) (h h' : holdings) :
  accounted h -> moves l h h' -> accounted h'.
Proof.
  intros Hacc Hm.
  destruct Hm; try exact Hacc; cbn [accounted] in *;
    destruct Hacc as (Hcount & Hlen & Hnx & Hwait & Hone & Hfifo);
    (split; [| split; [| split; [| split; [| split]]]]);
    try assumption; try discriminate.
  - (* acquire *)
    intros id. specialize (Hcount id). count_frames.
  - count_frames.
  - (* fill, same frame *)
    intros id. specialize (Hcount id). count_frames.
  - count_frames.
  - (* fill, new frame *)
    intros id. pose proof (Hcount id) as Hid. pose proof (Hcount nx) as Hnew.
    count_frames.
  - count_frames.
  - count_frames.
  - (* push *)
    intros id. specialize (Hcount id). count_frames.
  - count_frames.
  - rewrite Hfifo. now rewrite app_assoc.
  - (* grab returns the frame in flight *)
    intros id. specialize (Hcount id). count_frames.
  - count_frames.
  - reflexivity.
  - cbn. lia.
  - (* grab pops *)
    intros id. specialize (Hcount id). count_frames.
  - count_frames.
  - cbn. lia.
  - rewrite Hfifo. now rewrite <- app_assoc.
Qed.

Lemma parse_params_frames (fmt : option string) (s : screen_cast_session) :
  let s' := snd (fst (parse_params fmt s)) in
  in_flight_frame s' = in_flight_frame s
  /\ blank_frames s' = blank_frames s
  /\ sending_frames s' = sending_frames s.
Proof.
  unfold parse_params. destruct fmt as [text |]; [| cbn; auto].
  destruct (parse_params_loop _ _ _) as [[st o] logs]. cbn. auto.
Qed.

(** After a successful init the pool holds the three frames allocated, and
    nothing else has happened. *)
Lemma started_accounted (fmt : option string) (portal_fd portal_node : Z) (s : system) :
  started fmt portal_fd portal_node = Some s ->
  accounted (holdings_of s)
  /\ handler s = Idle /\ grabber s = Outside
  /\ freed_ids (trace (sys_world s)) = []
  /\ stream_ready (sys_world s) = [].
Proof.
  unfold started, vidcap_screen_pw_init. cbn [negb].
  pose proof (parse_params_frames fmt new_screen_cast_session) as Hp.
  destruct (parse_params fmt new_screen_cast_session) as [[st sess] logs].
  cbn [fst snd new_screen_cast_session in_flight_frame blank_frames sending_frames] in Hp.
  destruct Hp as (Hfl & Hbl & Hsn).
  change (Z.to_nat QUEUE_SIZE) with 3%nat.
  destruct st; cbn; try discriminate.
  destruct (portal_fd =? -1); cbn; [discriminate |].
  intros H. injection H as <-.
  unfold holdings_of, in_flight_frames. cbn. rewrite Hfl, Hbl, Hsn. cbn.
  repeat split; try reflexivity; try lia.
  intros id. destruct id as [| [| [| id]]]; reflexivity.
Qed.

Section Runs.
Context {CI : codec_info}.

Lemma accounted_grab_ready (s : system) : accounted (holdings_of s) -> grab_ready s.
Proof.
  unfold holdings_of, accounted, grab_ready, in_flight_frames.
  intros (_ & _ & _ & Hwait & _) Hg. specialize (Hwait Hg).
  destruct (in_flight_frame (session (sys_world s))); [discriminate | reflexivity].
Qed.

Lemma step_accounted (l : label) (s s' : system) :
  accounted (holdings_of s) -> step l s = Ok s' -> accounted (holdings_of s').
Proof.
  intros Hacc Hstep. apply (moves_accounted l (holdings_of s)); [exact Hacc |].
  apply step_moves; [now apply accounted_grab_ready | exact Hstep].
Qed.

Lemma run_accounted (sched : list label) : forall (s s' : system),
  accounted (holdings_of s) -> run sched s = Ok s' -> accounted (holdings_of s').
Proof.
  induction sched as [| l sched IH]; intros s s' Hacc Hrun.
  - injection Hrun as <-. exact Hacc.
  - cbn [run] in Hrun. apply bind_ok in Hrun as (s1 & Hstep & Hrun).
    apply (IH s1); [| exact Hrun]. now apply (step_accounted l s).
Qed.

(** The queue is never full when the handler pushes: the frame it holds is
    one of the three, so the queue has at most two. *)
Lemma push_never_blocks (s : system) (b : pw_buffer) (f : video_frame) :
  accounted (holdings_of s) -> handler s = Filled b f ->
  exists s', step Push s = Ok s'.
Proof.
  intros (_ & Hlen & _) Hh. cbn [step]. rewrite Hh.
  destruct (push_ok b f (sys_world s)) as (w' & Hw').
  - unfold holdings_of in Hlen. rewrite Hh in Hlen. cbn [handler_frames] in Hlen.
    rewrite !length_app in Hlen. cbn in Hlen. lia.
  - rewrite Hw'. cbn. eexists. reflexivity.
Qed.

End Runs.

Lemma reachable_accounted {CI : codec_info} (s : system) :
  reachable s -> accounted (holdings_of s).
Proof.
  intros (fmt & fd & node & s0 & sched & Hstart & Hrun).
  apply (run_accounted sched s0); [| exact Hrun].
  now apply (started_accounted fmt fd node).
Qed.

Lemma reachable_run {CI : codec_info} (sched : list label) (s s' : system) :
  reachable s -> run sched s = Ok s' -> reachable s'.
Proof.
  intros (fmt & fd & node & s0 & sched0 & Hstart & Hrun0) Hrun.
  exists fmt, fd, node, s0, (sched0 ++ sched). split; [exact Hstart |].
  clear Hstart. revert s0 Hrun0.
  induction sched0 as [| l sched0 IH]; intros s0 Hrun0.
  - injection Hrun0 as ->. exact Hrun.
  - cbn [run app] in *. apply bind_ok in Hrun0 as (s1 & Hstep & Hrun0).
    rewrite Hstep. cbn [bind]. now apply IH.
Qed.

(** ** The calls as runs of steps *)

Section Calls.
Context {CI : codec_info}.

Lemma run_app (a b : list label) : forall s,
  run (a ++ b) s = bind (run a s) (run b).
Proof.
  induction a as [| l a IH]; intros s; [reflexivity |].
  cbn [run app]. destruct (step l s); try reflexivity. cbn [bind]. apply IH.
Qed.

(** A call of grab is the three steps of grab. *)
Lemma grab_as_steps (s : system) :
  grabber s = Outside ->
  run [GrabEnter; GrabReturn; GrabPop] s
  = Ok {| sys_world := snd (vidcap_screen_pw_grab (sys_world s));
          handler := handler s; grabber := Outside |}.
Proof. intros Hg. cbn [run step]. rewrite Hg. reflexivity. Qed.

Lemma not_pushing_back (s : system) : grabber s <> Returning -> pushing_back s = false.
Proof. unfold pushing_back. destruct (grabber s); [reflexivity | contradiction | reflexivity]. Qed.

(** A turn of the loop of the handler is a run of its steps, grab not being
    in its [push_back]. *)
Lemma iteration_as_steps (s : system) (continue : bool) (w' : world) :
  handler s = Idle ->
  grabber s <> Returning ->
  on_process_iteration (sys_world s) = Ok (continue, w') ->
  exists sched,
    run sched s = Ok {| sys_world := w'; handler := Idle; grabber := grabber s |}.
Proof.
  intros Hh Hg Hit. apply not_pushing_back in Hg. unfold on_process_iteration in Hit.
  apply bind_ok in Hit as ([a w1] & Hacq & Hit). cbn [fst snd] in Hit.
  destruct a as [| | b sb f].
  - injection Hit as <- <-. exists [Acquire]. cbn [run step].
    rewrite Hh, Hg, Hacq. reflexivity.
  - injection Hit as <- <-. exists [Acquire]. cbn [run step].
    rewrite Hh, Hg, Hacq. reflexivity.
  - apply bind_ok in Hit as ([f1 w2] & Hfill & Hit). cbn [fst snd] in Hit.
    apply bind_ok in Hit as (w3 & Hpush & Hit). injection Hit as <- <-.
    exists [Acquire; Fill; Push]. cbn [run step].
    rewrite Hh, Hg, Hacq. cbn [andb bind fst snd handler sys_world grabber].
    rewrite Hfill. cbn [bind fst snd handler sys_world grabber].
    rewrite Hpush. reflexivity.
Qed.

(** A call of the handler is a run of steps, grab not being in its
    [push_back]. *)
Lemma on_process_as_steps (fuel : nat) : forall (s : system) (w' : world),
  handler s = Idle ->
  grabber s <> Returning ->
  on_process_loop fuel (sys_world s) = Ok w' ->
  exists sched,
    run sched s = Ok {| sys_world := w'; handler := Idle; grabber := grabber s |}.
Proof.
  induction fuel as [| fuel IH]; intros s w' Hh Hg Hloop.
  - injection Hloop as <-. exists []. cbn. destruct s. cbn in Hh. now subst.
  - cbn [on_process_loop] in Hloop.
    apply bind_ok in Hloop as ([c w1] & Hit & Hloop). cbn [fst snd] in Hloop.
    destruct (iteration_as_steps s c w1 Hh Hg Hit) as (sched1 & Hrun1).
    destruct c.
    + destruct (IH {| sys_world := w1; handler := Idle; grabber := grabber s |} w'
                  eq_refl Hg Hloop) as (sched2 & Hrun2).
      exists (sched1 ++ sched2). cbn [grabber] in Hrun2.
      rewrite run_app, Hrun1. exact Hrun2.
    + injection Hloop as <-. exists sched1. exact Hrun1.
Qed.

End Calls.

(** ** C1: the order of the frames *)

(** C1.  In every state the two threads can reach, whatever buffers were
    delivered and however the handler and grab interleave, the frames the
    handler pushed are, in the order of the pushes, the frames grab has
    returned followed by the frames still in the hand-off queue: grab
    returns the frames in the order they were pushed, none twice, none
    skipped. *)
Theorem grab_order_is_push_order {CI : codec_info} (s : system) :
  reachable s ->
  pushed_frames (trace (sys_world s))
  = grabbed_frames (trace (sys_world s)) ++ sending_frames (session (sys_world s)).
Proof.
  intros Hr. apply reachable_accounted in Hr.
  unfold holdings_of, accounted in Hr. apply Hr.
Qed.

Example init_is_started : started None 5 6 = Some Ex.init.
Proof. reflexivity. Qed.

Lemma reachable_from_init {CI : codec_info} (sched : list label) (s : system) :
  run sched Ex.init = Ok s -> reachable s.
Proof.
  intros H. exists None, 5, 6, Ex.init, sched. split; [reflexivity | exact H].
Qed.

Lemma grab_order_is_push_order_witness :
  exists s,
    @run Ex.four_bytes Ex.capture Ex.init = Ok s
    /\ pushed_frames (trace (sys_world s))
       = grabbed_frames (trace (sys_world s)) ++ sending_frames (session (sys_world s))
    /\ map frame_id (grabbed_frames (trace (sys_world s))) = [3%nat; 4%nat].
Proof.
  destruct (@run Ex.four_bytes Ex.capture Ex.init) as [s | | |] eqn:Hrun;
    try (vm_compute in Hrun; discriminate).
  exists s. split; [reflexivity |]. split.
  - apply (@grab_order_is_push_order Ex.four_bytes s).
    apply (@reachable_from_init Ex.four_bytes Ex.capture s Hrun).
  - vm_compute in Hrun. injection Hrun as <-. reflexivity.
Defined.

(** ** C2: who holds the frames *)

Lemma moves_freed (l : label) (h h' : holdings) :
  moves l h h' -> freed_of h' = freed_of h ++ reallocated l h h'.
Proof.
  intros Hm. destruct Hm; unfold reallocated; cbn [freed_of filling_of desc_of];
    try (destruct h; cbn; now rewrite app_nil_r);
    try now rewrite app_nil_r.
  - rewrite H. now rewrite app_nil_r.
  - rewrite H. reflexivity.
Qed.


Lemma count_occ_app_le (l1 l2 : list nat) (id : nat) :
  (count_occ Nat.eq_dec l1 id <= count_occ Nat.eq_dec (l1 ++ l2) id)%nat.
Proof. rewrite count_occ_app. lia. Qed.

(** The handler has no defined step into the pool exactly when grab is in
    its [push_back]. *)
Lemma acquire_undefined {CI : codec_info} (s : system) :
  step Acquire s = Undefined
  <-> handler s = Idle /\ pushing_back s = true /\ comes_to_pool (sys_world s) = true.
Proof.
  cbn [step]. split.
  - destruct (handler s); try discriminate.
    destruct (pushing_back s); [| cbn [andb]].
    + destruct (comes_to_pool (sys_world s)); [auto |]. cbn [andb].
      unfold on_process_acquire, pw_stream_dequeue_buffer.
      destruct (stream_ready (sys_world s)) as [| b rest]; [discriminate |].
      destruct (buffer b) as [sb |]; [| discriminate].
      destruct (datas sb) as [| d [| ? ?]]; try discriminate.
      destruct (data d); cbn [assert bind]; [| discriminate].
      destruct (empty_payload d); [discriminate |].
      destruct (pop_back _) as [[f bl] |]; discriminate.
    + unfold on_process_acquire, pw_stream_dequeue_buffer.
      destruct (stream_ready (sys_world s)) as [| b rest]; [discriminate |].
      destruct (buffer b) as [sb |]; [| discriminate].
      destruct (datas sb) as [| d [| ? ?]]; try discriminate.
      destruct (data d); cbn [assert bind]; [| discriminate].
      destruct (empty_payload d); [discriminate |].
      destruct (pop_back _) as [[f bl] |]; discriminate.
  - intros (-> & -> & ->). reflexivity.
Qed.

(** C2, amended.  In every state the two threads can reach without a data
    race: exactly QUEUE_SIZE frames exist (allocated and not freed), and
    they are the frames held; each is held by exactly one of the pool, the
    hand-off queue, the in-flight slot and the handler.  A step frees a
    frame only when it is the conversion reallocating the frame the handler
    pulled from the pool, and the same step allocates the frame that takes
    its place: the number of frames does not change.  The race is in the
    code: grab gives its frame back to the pool without [session.mut], and
    the step of the handler into the pool has no defined result exactly
    when it comes during that [push_back]; nothing is stated of a run in
    which that happens. *)
Theorem frames_are_accounted_for {CI : codec_info} (s : system) :
  reachable s ->
  NoDup (map frame_id (owned s))
  /\ List.length (owned s) = Z.to_nat QUEUE_SIZE
  /\ (forall id,
         In id (map frame_id (owned s))
         <-> (id < next_frame_id (sys_world s))%nat
             /\ ~ In id (freed_ids (trace (sys_world s))))
  /\ next_frame_id (sys_world s)
     = (Z.to_nat QUEUE_SIZE + List.length (freed_ids (trace (sys_world s))))%nat
  /\ (forall l s',
         step l s = Ok s' ->
         freed_ids (trace (sys_world s'))
         = freed_ids (trace (sys_world s))
           ++ reallocated l (holdings_of s) (holdings_of s')
         /\ next_frame_id (sys_world s')
            = (next_frame_id (sys_world s)
               + List.length (reallocated l (holdings_of s) (holdings_of s')))%nat)
  /\ (step Acquire s = Undefined
      <-> handler s = Idle /\ pushing_back s = true
          /\ comes_to_pool (sys_world s) = true).
Proof.
  intros Hr. apply reachable_accounted in Hr as Hacc.
  assert (Hstep : forall l s',
             step l s = Ok s' ->
             freed_ids (trace (sys_world s'))
             = freed_ids (trace (sys_world s))
               ++ reallocated l (holdings_of s) (holdings_of s')
             /\ next_frame_id (sys_world s')
                = (next_frame_id (sys_world s)
                   + List.length (reallocated l (holdings_of s) (holdings_of s')))%nat).
  { intros l s' Hstep.
    pose proof (step_accounted l s s' Hacc Hstep) as Hacc'.
    pose proof (moves_freed l (holdings_of s) (holdings_of s')
                  (step_moves l s s' (accounted_grab_ready s Hacc) Hstep)) as Hfr.
    cbn [holdings_of freed_of] in Hfr. split; [exact Hfr |].
    destruct Hacc as (_ & _ & Hnx & _), Hacc' as (_ & _ & Hnx' & _).
    rewrite Hnx', Hnx, Hfr, length_app. lia. }
  unfold holdings_of, accounted in Hacc. fold (owned s) in Hacc.
  destruct Hacc as (Hcount & Hlen & Hnx & _ & _ & _).
  split; [| split; [exact Hlen | split; [| split; [exact Hnx |
                     split; [exact Hstep | apply acquire_undefined]]]]].
  - apply (NoDup_count_occ Nat.eq_dec). intros id.
    pose proof (count_occ_app_le (map frame_id (owned s))
                  (freed_ids (trace (sys_world s))) id) as Hle.
    rewrite (Hcount id) in Hle.
    destruct (id <? next_frame_id (sys_world s))%nat; lia.
  - intros id. specialize (Hcount id). rewrite count_occ_app in Hcount.
    rewrite (count_occ_In Nat.eq_dec).
    rewrite (count_occ_not_In Nat.eq_dec).
    destruct (Nat.ltb_spec id (next_frame_id (sys_world s))) as [Hlt | Hge];
      split; intros Hin; lia.
Qed.

Lemma frames_are_accounted_for_witness :
  exists s,
    @run Ex.four_bytes Ex.capture Ex.init = Ok s
    /\ NoDup (map frame_id (owned s))
    /\ List.length (owned s) = Z.to_nat QUEUE_SIZE
    /\ next_frame_id (sys_world s)
       = (Z.to_nat QUEUE_SIZE + List.length (freed_ids (trace (sys_world s))))%nat.
Proof.
  destruct (@run Ex.four_bytes Ex.capture Ex.init) as [s | | |] eqn:Hrun;
    try (vm_compute in Hrun; discriminate).
  exists s. split; [reflexivity |].
  destruct (@frames_are_accounted_for Ex.four_bytes s
              (@reachable_from_init Ex.four_bytes Ex.capture s Hrun))
    as (H1 & H2 & _ & H4 & _).
  auto.
Defined.

(** The caller calls grab with a frame in its hands while a buffer is
    ready: when the handler takes its frame from the pool before the
    [push_back] of grab has ended, the run has no defined result; when it
    comes after, it has one. *)
Example grab_push_back_races :
  @run Ex.four_bytes ExPw.overlapping_grab Ex.init = Undefined
  /\ match @run Ex.four_bytes ExPw.following_grab Ex.init with
     | Ok s => map frame_id (owned s)
     | _ => []
     end = [0%nat; 1%nat; 3%nat].
Proof. split; vm_compute; reflexivity. Qed.

(** The first conversion after the negotiation frees the frame it pulled
    from the pool: a frame is freed in the middle of the stream. *)
Lemma frame_freed_mid_stream :
  started None 5 6 = Some Ex.init
  /\ match @run Ex.four_bytes Ex.one_delivery Ex.init with
     | Ok s => freed_ids (trace (sys_world s))
     | _ => []
     end = [2%nat].
Proof. split; [reflexivity | vm_compute; reflexivity]. Qed.

(** ** C8: reallocation *)

Lemma video_desc_eq_refl (d : video_desc) : video_desc_eq d d = true.
Proof.
  unfold video_desc_eq. rewrite !Z.eqb_refl.
  unfold double_same.
  rewrite (proj2 (FloatAxioms.Leibniz.eqb_spec _ _) eq_refl). reflexivity.
Qed.

Lemma video_desc_eq_set_size (a d : video_desc) :
  video_desc_eq a d = true ->
  video_desc_eq (set_desc_size (desc_width d) (desc_height d) a) d = true.
Proof.
  unfold video_desc_eq, set_desc_size. cbn. rewrite !Z.eqb_refl.
  rewrite !andb_true_iff. intuition.
Qed.

Lemma set_desc_size_same (d : video_desc) :
  set_desc_size (desc_width d) (desc_height d) d = d.
Proof. destruct d. reflexivity. Qed.

Lemma moves_steady (l : label) (h h' : holdings) :
  moves l h h' ->
  l <> Fill -> (forall id param, l <> ParamChanged id param) ->
  stale_of h' = stale_of h /\ freed_of h' = freed_of h /\ desc_of h' = desc_of h.
Proof.
  intros Hm Hfill Hparam.
  destruct Hm; try contradiction; try (now exfalso; eapply Hparam);
    cbn [stale_of freed_of desc_of]; repeat split;
    rewrite ?filter_app, ?length_app; cbn [filter List.length app];
    rewrite ?filter_app, ?length_app; cbn [filter List.length app]; try lia.
  destruct (mismatches d f); cbn; lia.
Qed.

Lemma label_eq_fill (l : label) : l = Fill \/ l <> Fill.
Proof. destruct l; (left; reflexivity) || (right; discriminate). Qed.

Section Steady.
Context {CI : codec_info}.

Lemma stale_le_owned (s : system) : (stale s <= List.length (owned s))%nat.
Proof. unfold stale, holdings_of, stale_of. apply filter_length_le. Qed.

(** A steady conversion leaves the descriptor alone and its frame in the
    shape of the descriptor. *)
Lemma fill_steady (s s' : system) :
  steady Fill s ->
  step Fill s = Ok s' ->
  desc (session (sys_world s')) = desc (session (sys_world s))
  /\ (List.length (freed_ids (trace (sys_world s'))) + stale s'
      = List.length (freed_ids (trace (sys_world s))) + stale s)%nat.
Proof.
  unfold steady. cbn [step].
  destruct (handler s) as [| b sb f |] eqn:Hh; try discriminate.
  cbn zeta. intros (Hw & Hhgt) Hstep.
  apply bind_ok in Hstep as ([f1 w1] & Hfill & Hstep). injection Hstep as <-.
  apply fill_spec in Hfill as (Hs & _ & Hfill). cbn zeta in Hs, Hfill.
  cbn [fst snd sys_world].
  set (cr := crop_region_of (session (sys_world s)) sb) in *.
  set (sz := info_size (info_raw (format (pw (session (sys_world s)))))) in *.
  set (d := desc (session (sys_world s))) in *.
  assert (Hd : desc_for_crop cr d = d).
  { unfold desc_for_crop. destruct cr as [c |]; [| reflexivity].
    cbn [out_width out_height] in Hw, Hhgt. rewrite Hw, Hhgt.
    apply set_desc_size_same. }
  rewrite Hd in Hs, Hfill.
  assert (Hdesc : desc (session w1) = d) by (rewrite Hs; reflexivity).
  split; [exact Hdesc |].
  unfold stale, holdings_of, stale_of. cbn [sys_world handler handler_frames].
  rewrite Hh. cbn [handler_frames]. rewrite Hdesc.
  assert (Hbl : blank_frames (session w1) = blank_frames (session (sys_world s)))
    by (rewrite Hs; reflexivity).
  assert (Hsn : sending_frames (session w1) = sending_frames (session (sys_world s)))
    by (rewrite Hs; reflexivity).
  assert (Hfl : in_flight_frames (session w1) = in_flight_frames (session (sys_world s)))
    by (unfold in_flight_frames; rewrite Hs; reflexivity).
  rewrite Hbl, Hsn, Hfl. fold d.
  rewrite !filter_app, !length_app. cbn [filter].
  rewrite Hw, Hhgt in Hfill.
  destruct Hfill as [(Heq & _ & Hf1 & _ & Ht) | (Hne & _ & Hf1 & _ & Ht)];
    rewrite Ht; unfold mismatches; rewrite Hf1.
  - rewrite (video_desc_eq_set_size _ d Heq), Heq. cbn. lia.
  - rewrite set_desc_size_same, video_desc_eq_refl, Hne.
    rewrite freed_ids_app, length_app. cbn. lia.
Qed.

Lemma step_steady (l : label) (s s' : system) :
  accounted (holdings_of s) ->
  steady l s ->
  step l s = Ok s' ->
  desc (session (sys_world s')) = desc (session (sys_world s))
  /\ (List.length (freed_ids (trace (sys_world s'))) + stale s'
      = List.length (freed_ids (trace (sys_world s))) + stale s)%nat.
Proof.
  intros Hacc Hsteady Hstep.
  destruct (label_eq_fill l) as [-> | Hne].
  - now apply fill_steady.
  - pose proof (step_moves l s s' (accounted_grab_ready s Hacc) Hstep) as Hm.
    apply moves_steady in Hm as (Hst & Hfr & Hd).
    + unfold stale. cbn [holdings_of freed_of desc_of] in Hfr, Hd.
      rewrite Hst, Hfr, Hd. auto.
    + exact Hne.
    + intros id param ->. exact Hsteady.
Qed.

End Steady.

Lemma run_steady {CI : codec_info} (sched : list label) : forall (s s' : system),
  accounted (holdings_of s) ->
  steady_run sched s ->
  run sched s = Ok s' ->
  desc (session (sys_world s')) = desc (session (sys_world s))
  /\ (List.length (freed_ids (trace (sys_world s'))) + stale s'
      = List.length (freed_ids (trace (sys_world s))) + stale s)%nat.
Proof.
  induction sched as [| l sched IH]; intros s s' Hacc Hsteady Hrun.
  - injection Hrun as <-. auto.
  - cbn [run] in Hrun. apply bind_ok in Hrun as (s1 & Hstep & Hrun).
    cbn [steady_run] in Hsteady. destruct Hsteady as (Hl & Hrest).
    rewrite Hstep in Hrest.
    destruct (step_steady l s s1 Hacc Hl Hstep) as (Hd1 & Hc1).
    destruct (IH s1 s' (step_accounted l s s1 Hacc Hstep) Hrest Hrun) as (Hd & Hc).
    split; [congruence | lia].
Qed.

(** C8, amended.  Reallocation is lazy: the only step that gives a frame to
    the deleter is the conversion, and it does so only for the frame it
    pulled from the pool and only when the shape of that frame is not the
    current descriptor; a negotiation reallocates nothing.  And it is not
    repeated as long as the descriptor stays what it is, that is in a run
    with no format negotiation in which every buffer converted has the
    output size of the descriptor (the size of its crop, or the negotiated
    size when it has none): each reallocation then leaves one frame less to
    reallocate, so the run makes at most as many reallocations as frames
    did not match at its start, at most one per pool frame and QUEUE_SIZE
    in all, however many buffers are delivered.  An unchanged negotiated
    format is not enough: the crop of a buffer changes the descriptor. *)
Theorem reallocation_is_lazy {CI : codec_info} (s : system) :
  reachable s ->
  (forall l s',
      step l s = Ok s' ->
      freed_ids (trace (sys_world s'))
      = freed_ids (trace (sys_world s)) ++ reallocated l (holdings_of s) (holdings_of s'))
  /\ (forall sched s',
         steady_run sched s ->
         run sched s = Ok s' ->
         (List.length (freed_ids (trace (sys_world s'))) + stale s'
          = List.length (freed_ids (trace (sys_world s))) + stale s)%nat
         /\ (stale s <= Z.to_nat QUEUE_SIZE)%nat).
Proof.
  intros Hr. pose proof (reachable_accounted s Hr) as Hacc. split.
  - intros l s' Hstep.
    apply (moves_freed l (holdings_of s) (holdings_of s')).
    apply step_moves; [now apply accounted_grab_ready | exact Hstep].
  - intros sched s' Hsteady Hrun. split.
    + now apply (run_steady sched s s' Hacc Hsteady Hrun).
    + pose proof (stale_le_owned s) as Hle.
      destruct Hacc as (_ & Hlen & _). unfold holdings_of in Hlen.
      fold (owned s) in Hlen. lia.
Qed.

(** After the negotiation, seven buffers delivered and grabbed one after the
    other: the pool is a stack, two of its frames do all the work. *)
Example seven_deliveries_two_reallocations :
  match @run Ex.four_bytes
          (concat (map (fun n => [Deliver (Ex.full_buffer n); Acquire; Fill; Push;
                                  GrabEnter; GrabReturn; GrabPop])
                       (seq 0 7)))
          Ex.negotiated with
  | Ok s => freed_ids (trace (sys_world s))
  | _ => []
  end = [2%nat; 1%nat].
Proof. vm_compute. reflexivity. Qed.

(** Two buffers delivered one after the other under one negotiated format:
    each conversion pulls another frame of the pool and reallocates it.  And
    under that one format, nine buffers whose crop changes from one to the
    next, each delivered, converted and grabbed: every delivery
    reallocates. *)
Lemma two_deliveries_two_reallocations :
  started None 5 6 = Some Ex.init
  /\ match @run Ex.four_bytes Ex.two_deliveries Ex.init with
     | Ok s => freed_ids (trace (sys_world s))
     | _ => []
     end = [2%nat; 1%nat]
  /\ match @run Ex.four_bytes ExPw.changing_crop Ex.negotiated with
     | Ok s => (freed_ids (trace (sys_world s)),
                info_size (info_raw (format (pw (session (sys_world s))))))
     | _ => ([], SPA_RECTANGLE 0 0)
     end = ([2; 1; 3; 4; 5; 6; 7; 8; 9]%nat, Ex.image_size).
Proof. split; [reflexivity | split; vm_compute; reflexivity]. Qed.

Lemma reallocation_is_lazy_witness :
  exists s',
    @run Ex.four_bytes Ex.next_two_deliveries Ex.negotiated = Ok s'
    /\ (List.length (freed_ids (trace (sys_world s'))) + stale s'
        = List.length (freed_ids (trace (sys_world Ex.negotiated)))
          + stale Ex.negotiated)%nat
    /\ (stale Ex.negotiated <= Z.to_nat QUEUE_SIZE)%nat.
Proof.
  assert (Hreach : @reachable Ex.four_bytes Ex.negotiated).
  { apply (@reachable_from_init Ex.four_bytes
             [ParamChanged SPA_PARAM_Format (Some Ex.pod_rgba)]).
    reflexivity. }
  destruct (@reallocation_is_lazy Ex.four_bytes Ex.negotiated Hreach) as (_ & Hidem).
  destruct (@run Ex.four_bytes Ex.next_two_deliveries Ex.negotiated)
    as [s' | | |] eqn:Hrun; try (vm_compute in Hrun; discriminate).
  exists s'. split; [reflexivity |].
  apply (Hidem Ex.next_two_deliveries s'); [| exact Hrun].
  vm_compute. repeat split.
Defined.

(** ** Decimal texts *)

Lemma digit_in_10 (c : ascii) : CStr.digit_in 10 c = Str.digit_value c.
Proof.
  destruct c as [[] [] [] [] [] [] [] []]; vm_compute; reflexivity.
Qed.

Lemma digits_in_10 (s : string) : forall count acc,
  CStr.digits_in 10 s count acc = Str.digits s count acc.
Proof.
  induction s as [| c s IH]; intros count acc; [reflexivity |].
  cbn [CStr.digits_in Str.digits]. rewrite digit_in_10.
  destruct (Str.digit_value c); [apply IH | reflexivity].
Qed.

Lemma digits_uint_acc (d : Decimal.uint) (rest : string) :
  ends_number rest ->
  forall (count : nat) (acc : positive),
  Str.digits (String.append (DecimalString.NilEmpty.string_of_uint d) rest) count (Z.pos acc)
  = ((count + Decimal.nb_digits d)%nat, Z.pos (Pos.of_uint_acc d acc)).
Proof.
  intros Hrest.
  induction d as [| d IH | d IH | d IH | d IH | d IH | d IH | d IH | d IH | d IH | d IH];
    intros count acc;
    cbn [DecimalString.NilEmpty.string_of_uint String.append Decimal.nb_digits
         Pos.of_uint_acc Str.digits];
    try (match goal with
         | |- context [Str.digit_value ?c] =>
             let v := eval vm_compute in (Str.digit_value c) in
             change (Str.digit_value c) with v
         end;
         cbv iota;
         match goal with
         | |- context [Pos.of_uint_acc d ?a] =>
             match goal with
             | |- context [Str.digits _ _ ?z] => replace z with (Z.pos a) by lia
             end
         end;
         rewrite IH; f_equal; lia).
  rewrite Nat.add_0_r. destruct rest as [| c r]; [reflexivity |].
  cbn in Hrest. cbn [Str.digits]. now rewrite Hrest.
Qed.

Lemma digits_uint (d : Decimal.uint) (rest : string) :
  ends_number rest ->
  forall count : nat,
  Str.digits (String.append (DecimalString.NilEmpty.string_of_uint d) rest) count 0
  = ((count + Decimal.nb_digits d)%nat, Z.of_N (Pos.of_uint d)).
Proof.
  intros Hrest.
  induction d as [| d IH | d IH | d IH | d IH | d IH | d IH | d IH | d IH | d IH | d IH];
    intros count;
    cbn [DecimalString.NilEmpty.string_of_uint String.append Decimal.nb_digits
         Pos.of_uint Str.digits];
    try (match goal with
         | |- context [Str.digit_value ?c] =>
             let v := eval vm_compute in (Str.digit_value c) in
             change (Str.digit_value c) with v
         end;
         cbv iota; cbn [Z.mul Z.add Z.of_N];
         first [ rewrite IH; f_equal; lia
               | rewrite (digits_uint_acc d rest Hrest); f_equal; lia ]).
  rewrite Nat.add_0_r. destruct rest as [| c r]; [reflexivity |].
  cbn in Hrest. cbn [Str.digits]. now rewrite Hrest.
Qed.

Lemma decimal_nonneg (n : Z) :
  0 <= n ->
  decimal n = DecimalString.NilEmpty.string_of_uint (N.to_uint (Z.to_N n))
  /\ N.to_uint (Z.to_N n) <> Decimal.Nil.
Proof.
  intros Hn. unfold decimal.
  destruct n as [| p | p]; [split; [reflexivity | discriminate] | | lia].
  cbn [Z.to_int Z.to_N N.to_uint DecimalString.NilZero.string_of_int].
  pose proof (DecimalPos.Unsigned.to_uint_nonnil p) as Hnn.
  split; [| exact Hnn].
  unfold DecimalString.NilZero.string_of_uint.
  destruct (Pos.to_uint p); [contradiction | reflexivity ..].
Qed.

(** Reading the decimal text of a number gives the number back. *)
Lemma digits_decimal (n : Z) (rest : string) :
  0 <= n -> ends_number rest ->
  exists count, Str.digits (String.append (decimal n) rest) O 0 = (S count, n).
Proof.
  intros Hn Hrest. destruct (decimal_nonneg n Hn) as (-> & Hnn).
  rewrite digits_uint by exact Hrest.
  change (Pos.of_uint (N.to_uint (Z.to_N n))) with (N.of_uint (N.to_uint (Z.to_N n))).
  rewrite DecimalN.Unsigned.of_to. rewrite Z2N.id by exact Hn.
  destruct (N.to_uint (Z.to_N n)) eqn:Hd; try contradiction; cbn; eauto.
Qed.

(** The decimal text of a number starts with a digit, which is 0 only for
    the number 0. *)
Lemma nzhead_head (d : Decimal.uint) :
  match Decimal.nzhead d with Decimal.D0 _ => False | _ => True end.
Proof. induction d; cbn; auto. Qed.

Lemma decimal_head (n : Z) :
  0 <= n ->
  exists c s, decimal n = String c s
    /\ CStr.isdigit c = true
    /\ (n = 0 -> c = "0"%char /\ s = EmptyString)
    /\ (0 < n -> c <> "0"%char).
Proof.
  intros Hn. destruct (decimal_nonneg n Hn) as (-> & Hnn).
  destruct (Z.eq_dec n 0) as [-> | Hne].
  - exists "0"%char, EmptyString. cbn. repeat split; auto. lia.
  - pose proof (DecimalN.Unsigned.to_of (N.to_uint (Z.to_N n))) as Hnorm.
    rewrite DecimalN.Unsigned.of_to in Hnorm.
    assert (Hnz : Decimal.nzhead (N.to_uint (Z.to_N n)) <> Decimal.Nil).
    { intros Hnil. apply DecimalFacts.unorm_0 in Hnil.
      rewrite <- Hnorm in Hnil.
      apply (f_equal N.of_uint) in Hnil. rewrite DecimalN.Unsigned.of_to in Hnil.
      cbn in Hnil. lia. }
    rewrite (DecimalFacts.unorm_nzhead _ Hnz) in Hnorm.
    pose proof (nzhead_head (N.to_uint (Z.to_N n))) as Hh.
    rewrite <- Hnorm in Hh.
    destruct (N.to_uint (Z.to_N n)); try contradiction;
      cbn [DecimalString.NilEmpty.string_of_uint];
      eexists; eexists; (split; [reflexivity |]); repeat split;
      try (intros; lia); try discriminate.
Qed.

(** ** The log level *)

Section LogLevel.
Context {HO : host}.
Local Open Scope string_scope.

Lemma log_flags_level (optarg : string) (verbose : bool) (l : logger) :
  log_level (log_flags optarg verbose l)
  = if verbose then LOG_LEVEL_VERBOSE else log_level l.
Proof.
  unfold log_flags.
  destruct (CStr.strstr optarg "+repeat");
    destruct (CStr.strstr optarg "timestamps") as [[| before] |];
    try destruct (String.get before optarg) as [c |];
    try destruct (Ascii.eqb c "+"); destruct verbose; reflexivity.
Qed.

Lemma log_flags_repeat (optarg : string) (verbose : bool) (l : logger) :
  logger_repeat_msgs (log_flags optarg verbose l)
  = match CStr.strstr optarg "+repeat" with
    | Some _ => true
    | None => logger_repeat_msgs l
    end.
Proof.
  unfold log_flags.
  destruct (CStr.strstr optarg "+repeat");
    destruct (CStr.strstr optarg "timestamps") as [[| before] |];
    try destruct (String.get before optarg) as [c |];
    try destruct (Ascii.eqb c "+"); destruct verbose; reflexivity.
Qed.

Lemma index_append (needle a b : string) :
  String.index 0 needle b <> None -> String.index 0 needle (a ++ b) <> None.
Proof.
  intros Hb. induction a as [| c a IH]; [exact Hb |].
  cbn [String.append String.index].
  destruct (String.prefix needle (String c (a ++ b))); [discriminate |].
  destruct (String.index 0 needle (a ++ b)); [discriminate | contradiction].
Qed.

(** A suffix of flags: nothing, or a text that starts with + or -. *)
Lemma level_name_found (name rest : string) (level : Z) :
  In (name, level) mapping ->
  rest = "" \/ (exists r, rest = String "+" r) \/ (exists r, rest = String "-" r) ->
  String.eqb "help" (name ++ rest) = false
  /\ (exists c s, name ++ rest = String c s
        /\ Ascii.eqb c "+" || Ascii.eqb c "-" = false /\ CStr.isdigit c = false)
  /\ log_level_str (name ++ rest) = name
  /\ List.find (fun m => String.eqb name (fst m)) mapping = Some (name, level).
Proof.
  intros Hin Hrest. unfold mapping in Hin. cbn [In] in Hin.
  repeat (destruct Hin as [Hin | Hin];
          [injection Hin as <- <-;
           (split; [reflexivity |]);
           (split; [eexists; eexists; split; [reflexivity | split; reflexivity] |]);
           (split; [destruct Hrest as [-> | [(r & ->) | (r & ->)]]; reflexivity
                   | reflexivity]) |]).
  contradiction.
Qed.

End LogLevel.

(** X1.  Every name of the table sets its level: for a name of [mapping],
    alone or followed by flags (a text that starts with + or -),
    [set_log_level] returns true, writes nothing and leaves [log_level] at
    the level of the name; a [+repeat] among the flags sets the repeat flag
    as well. *)
Theorem log_level_by_name {HO : host} (name rest : string) (level : Z)
    (verbose : bool) (l : logger) :
  In (name, level) mapping ->
  rest = EmptyString \/ (exists r, rest = String "+" r) \/ (exists r, rest = String "-" r) ->
  exists l',
    set_log_level (String.append name rest) verbose l = (true, l', [])
    /\ log_level l' = level
    /\ (CStr.strstr rest "+repeat" <> None -> logger_repeat_msgs l' = true).
Proof.
  intros Hin Hrest.
  destruct (level_name_found name rest level Hin Hrest)
    as (Hhelp & (c & s & Hc & Hsign & Hdigit) & Hstr & Hfind).
  assert (Hfound : CStr.strstr rest "+repeat" <> None ->
            logger_repeat_msgs (log_flags (String.append name rest) verbose l) = true).
  { intros Hrep. rewrite log_flags_repeat.
    pose proof (index_append "+repeat" name rest Hrep) as Hfound.
    unfold CStr.strstr.
    now destruct (String.index 0 "+repeat" (String.append name rest)). }
  unfold set_log_level. rewrite Hhelp. cbv zeta. rewrite Hstr, Hfind.
  revert Hfound. generalize (log_flags (String.append name rest) verbose l).
  rewrite Hc. intros l1 Hfound. rewrite Hsign, Hdigit.
  eexists. split; [reflexivity |]. split; [reflexivity |]. exact Hfound.
Qed.

Lemma log_level_by_name_witness :
  exists l',
    @set_log_level ExDbg.linux "debug+repeat" false
      {| log_level := 5; logger_repeat_msgs := false;
         show_timestamps := LOG_TIMESTAMP_AUTO |} = (true, l', [])
    /\ log_level l' = 7
    /\ (CStr.strstr "+repeat" "+repeat" <> None -> logger_repeat_msgs l' = true).
Proof.
  apply (@log_level_by_name ExDbg.linux "debug"%string "+repeat"%string 7 false).
  - cbn. do 7 right. left. reflexivity.
  - right. left. eexists. reflexivity.
Defined.

Lemma digit_char (c : ascii) :
  CStr.isdigit c = true ->
  Str.isspace c = false
  /\ Ascii.eqb c "-" = false /\ Ascii.eqb c "+" = false
  /\ Ascii.eqb c "h" = false
  /\ (exists d, Str.digit_value c = Some d).
Proof.
  destruct c as [[] [] [] [] [] [] [] []]; cbn; intros H; try discriminate;
    repeat split; eexists; reflexivity.
Qed.

Lemma sign_of_digit (c : ascii) (s : string) :
  CStr.isdigit c = true -> CStr.sign_of (String c s) = (false, String c s).
Proof.
  intros Hc. destruct (digit_char c Hc) as (Hsp & Hm & Hp & _).
  unfold CStr.sign_of. cbn [Str.skipws]. now rewrite Hsp, Hm, Hp.
Qed.

(** A text that starts with a digit other than 0 is read in base 10. *)
Lemma strtol0_decimal (lo hi : Z) (c : ascii) (s : string) :
  CStr.isdigit c = true -> c <> "0"%char ->
  CStr.strtol0 lo hi (String c s)
  = Z.max lo (Z.min hi (snd (Str.digits (String c s) O 0))).
Proof.
  intros Hc Hnz. unfold CStr.strtol0. rewrite (sign_of_digit c s Hc).
  assert (Hz : Ascii.eqb c "0" = false) by (now apply Ascii.eqb_neq).
  destruct s as [| x [| h r]]; rewrite Hz; cbn [andb];
    now rewrite digits_in_10.
Qed.

(** The text 0, alone or before flags, is read as 0. *)
Lemma strtol0_zero (lo hi : Z) (rest : string) :
  rest = EmptyString \/ (exists r, rest = String "+" r) \/ (exists r, rest = String "-" r) ->
  CStr.strtol0 lo hi (String "0" rest) = Z.max lo (Z.min hi 0).
Proof.
  intros [-> | [(r & ->) | (r & ->)]]; [reflexivity | |]; destruct r; reflexivity.
Qed.

Lemma flags_end_number (rest : string) :
  rest = EmptyString \/ (exists r, rest = String "+" r) \/ (exists r, rest = String "-" r) ->
  ends_number rest.
Proof. intros [-> | [(r & ->) | (r & ->)]]; reflexivity. Qed.

(** X2.  A level given as a number: for the decimal text of a number n that
    is not negative, alone or followed by flags, [set_log_level] returns
    true exactly when n is at most LOG_LEVEL_MAX and then leaves [log_level]
    at n, writing nothing; a larger number is refused and the level is what
    the flags left (LOG_LEVEL_VERBOSE when ULTRAGRID_VERBOSE is set, the
    level before the call otherwise). *)
Theorem log_level_by_number {HO : host} (n : Z) (rest : string)
    (verbose : bool) (l : logger) :
  LONG_MIN <= 0 <= LONG_MAX -> LOG_LEVEL_MAX < LONG_MAX ->
  0 <= n ->
  rest = EmptyString \/ (exists r, rest = String "+" r) \/ (exists r, rest = String "-" r) ->
  exists l' out,
    set_log_level (String.append (decimal n) rest) verbose l
    = (n <=? LOG_LEVEL_MAX, l', out)
    /\ log_level l'
       = (if n <=? LOG_LEVEL_MAX then n
          else if verbose then LOG_LEVEL_VERBOSE else log_level l)
    /\ (n <= LOG_LEVEL_MAX -> out = []).
Proof.
  intros Hmin Hmax Hn Hrest.
  destruct (decimal_head n Hn) as (c & s & Hdec & Hdigit & Hzero & Hpos).
  destruct (digit_char c Hdigit) as (_ & Hm & Hp & Hh & _).
  assert (Hval : CStr.strtol0 LONG_MIN LONG_MAX (String.append (decimal n) rest)
                 = Z.min LONG_MAX n).
  { destruct (Z.eq_dec n 0) as [-> | Hne].
    - destruct (Hzero eq_refl) as (-> & ->). rewrite Hdec. cbn [String.append].
      rewrite strtol0_zero by exact Hrest. lia.
    - destruct (digits_decimal n rest Hn (flags_end_number rest Hrest)) as (k & Hk).
      rewrite Hdec in Hk |- *. cbn [String.append] in Hk |- *.
      rewrite strtol0_decimal by (auto; apply Hpos; lia).
      rewrite Hk. cbn [snd]. lia. }
  unfold set_log_level. cbv zeta. rewrite Hval.
  pose proof (log_flags_level (String.append (decimal n) rest) verbose l) as Hlevel.
  revert Hlevel. generalize (log_flags (String.append (decimal n) rest) verbose l).
  rewrite Hdec. cbn [String.append]. intros l1 Hlevel.
  replace (String.eqb "help" (String c (String.append s rest))) with false
    by (cbn [String.eqb]; rewrite Ascii.eqb_sym, Hh; reflexivity).
  rewrite Hm, Hp, Hdigit. cbn [orb].
  destruct (Z.leb_spec n LOG_LEVEL_MAX) as [Hle | Hgt].
  - replace (Z.min LONG_MAX n <? 0) with false by (symmetry; apply Z.ltb_ge; lia).
    replace (LOG_LEVEL_MAX <? Z.min LONG_MAX n) with false
      by (symmetry; apply Z.ltb_ge; lia).
    cbn [orb]. eexists. eexists. split; [reflexivity |].
    split; [cbn; lia | reflexivity].
  - replace (Z.min LONG_MAX n <? 0) with false by (symmetry; apply Z.ltb_ge; lia).
    replace (LOG_LEVEL_MAX <? Z.min LONG_MAX n) with true
      by (symmetry; apply Z.ltb_lt; lia).
    cbn [orb]. eexists. eexists. split; [reflexivity |].
    split; [exact Hlevel | lia].
Qed.

Lemma log_level_by_number_witness :
  exists l' out,
    @set_log_level ExDbg.linux (String.append (decimal 7) "-timestamps") true
      {| log_level := 5; logger_repeat_msgs := false;
         show_timestamps := LOG_TIMESTAMP_AUTO |}
    = (7 <=? @LOG_LEVEL_MAX ExDbg.linux, l', out)
    /\ log_level l'
       = (if 7 <=? @LOG_LEVEL_MAX ExDbg.linux then 7
          else if true then @LOG_LEVEL_VERBOSE ExDbg.linux else 5)
    /\ (7 <= @LOG_LEVEL_MAX ExDbg.linux -> out = []).
Proof.
  apply (@log_level_by_number ExDbg.linux 7 "-timestamps"%string true).
  - cbn. lia.
  - cbn. lia.
  - lia.
  - right. right. eexists. reflexivity.
Defined.

(** X3.  What [set_log_level] keeps, whatever its argument: a level that is
    within 0..LOG_LEVEL_MAX stays within it (the levels of the table being
    within it); the repeat flag is never cleared; a call that returns true
    writes nothing; and a call that returns false leaves the level as it
    was, unless ULTRAGRID_VERBOSE is set and the argument is not "help":
    then the level is LOG_LEVEL_VERBOSE although the call failed. *)
Theorem log_level_stays_valid {HO : host} (optarg : string) (verbose : bool)
    (l l' : logger) (ok : bool) (out : list written) :
  (forall name level, In (name, level) mapping -> 0 <= level <= LOG_LEVEL_MAX) ->
  set_log_level optarg verbose l = (ok, l', out) ->
  (0 <= log_level l <= LOG_LEVEL_MAX -> 0 <= log_level l' <= LOG_LEVEL_MAX)
  /\ (logger_repeat_msgs l = true -> logger_repeat_msgs l' = true)
  /\ (ok = true -> out = [])
  /\ (ok = false ->
      log_level l'
      = if verbose && negb (String.eqb "help" optarg)
        then LOG_LEVEL_VERBOSE else log_level l).
Proof.
  intros Htable. unfold set_log_level.
  destruct (String.eqb "help" optarg) eqn:Hhelp.
  - intros H. injection H as <- <- <-. rewrite andb_false_r.
    repeat split; intros; auto; try discriminate; lia.
  - cbv zeta. rewrite andb_true_r.
    pose proof (log_flags_level optarg verbose l) as Hlevel.
    pose proof (log_flags_repeat optarg verbose l) as Hrepeat.
    assert (Hverbose : 0 <= LOG_LEVEL_VERBOSE <= LOG_LEVEL_MAX).
    { apply (Htable "verbose"%string). cbn. do 6 right. left. reflexivity. }
    assert (Hrange : 0 <= log_level l <= LOG_LEVEL_MAX ->
              0 <= log_level (log_flags optarg verbose l) <= LOG_LEVEL_MAX).
    { rewrite Hlevel. destruct verbose; auto. }
    assert (Hrep : logger_repeat_msgs l = true ->
              logger_repeat_msgs (log_flags optarg verbose l) = true).
    { rewrite Hrepeat. destruct (CStr.strstr optarg "+repeat"); auto. }
    revert Hlevel Hrange Hrep. clear Hrepeat.
    generalize (log_flags optarg verbose l). intros l1 Hlevel Hrange Hrep.
    destruct (Ascii.eqb _ "+" || Ascii.eqb _ "-").
    + intros H. injection H as <- <- <-.
      repeat split; intros; auto; try discriminate; lia.
    + destruct (CStr.isdigit _).
      * destruct (Z.ltb_spec (CStr.strtol0 LONG_MIN LONG_MAX optarg) 0) as [Hneg | Hnn];
          [| destruct (Z.ltb_spec LOG_LEVEL_MAX (CStr.strtol0 LONG_MIN LONG_MAX optarg))
               as [Hbig | Hfit]];
          cbn [orb]; intros H; injection H as <- <- <-;
          repeat split; intros; auto; try discriminate; cbn; lia.
      * destruct (List.find _ mapping) as [[name level] |] eqn:Hfind;
          intros H; injection H as <- <- <-.
        -- apply find_some in Hfind as (Hin & _). pose proof (Htable _ _ Hin).
           repeat split; intros; auto; try discriminate; cbn; lia.
        -- repeat split; intros; auto; try discriminate; lia.
Qed.

Lemma log_level_stays_valid_witness :
  (0 <= 5 <= @LOG_LEVEL_MAX ExDbg.linux -> 0 <= 6 <= @LOG_LEVEL_MAX ExDbg.linux)
  /\ (false = true -> false = true)
  /\ (false = true ->
      [Log (@LOG_LEVEL_ERROR ExDbg.linux)
         (String.append "Wrong log level specification: timestamps"
            (String "010" EmptyString))] = [])
  /\ (false = false ->
      6 = if true && negb (String.eqb "help" "timestamps")
          then @LOG_LEVEL_VERBOSE ExDbg.linux else 5).
Proof.
  apply (@log_level_stays_valid ExDbg.linux "timestamps"%string true
           {| log_level := 5; logger_repeat_msgs := false;
              show_timestamps := LOG_TIMESTAMP_AUTO |}
           {| log_level := 6; logger_repeat_msgs := false;
              show_timestamps := LOG_TIMESTAMP_AUTO |}
           false).
  - intros name level Hin. cbn in Hin.
    repeat (destruct Hin as [Hin | Hin]; [injection Hin as <- <-; cbn; lia |]).
    contradiction.
  - reflexivity.
Defined.

(** ** The lines of a dump *)

Section DumpLines.
Context {HO : host}.
Local Open Scope string_scope.

Lemma append_nil (s : string) : s ++ "" = s.
Proof. induction s as [| c s IH]; cbn; [reflexivity | now rewrite IH]. Qed.

Lemma append_assoc (a b c : string) : (a ++ b) ++ c = a ++ b ++ c.
Proof. induction a as [| x a IH]; cbn; [reflexivity | now rewrite IH]. Qed.

(** Two [strcat]s in a row fit exactly when the whole text fits. *)
Lemma strcat_strcat (cap : nat) (Buff a b : string) :
  bind (CStr.strcat cap Buff a) (fun B => CStr.strcat cap B b)
  = CStr.strcat cap Buff (a ++ b).
Proof.
  unfold CStr.strcat. rewrite !length_append.
  destruct (Nat.leb_spec (String.length Buff + String.length a + 1) cap) as [Ha | Ha];
    cbn [bind].
  - rewrite length_append, append_assoc.
    destruct (Nat.leb_spec (String.length Buff + String.length a + String.length b + 1) cap);
      destruct (Nat.leb_spec (String.length Buff + (String.length a + String.length b) + 1)
                  cap); try reflexivity; lia.
  - destruct (Nat.leb_spec (String.length Buff + (String.length a + String.length b) + 1)
                cap); [lia | reflexivity].
Qed.

Lemma strcat_nil (cap : nat) (Buff : string) :
  (String.length Buff < cap)%nat -> CStr.strcat cap Buff "" = Ok Buff.
Proof.
  intros H. unfold CStr.strcat. cbn [String.length]. rewrite append_nil.
  destruct (Nat.leb_spec (String.length Buff + 0 + 1) cap); [reflexivity | lia].
Qed.

Lemma strcat_fits (cap : nat) (Buff a B : string) :
  CStr.strcat cap Buff a = Ok B -> (String.length B < cap)%nat /\ B = Buff ++ a.
Proof.
  unfold CStr.strcat.
  destruct (Nat.leb_spec (String.length Buff + String.length a + 1) cap) as [Hfit | _];
    [| discriminate].
  intros HB. injection HB as <-. rewrite length_append. split; [lia | reflexivity].
Qed.

Lemma bind_strcat (cap : nat) (Buff a : string) (k1 k2 : string -> result string) :
  (forall B, (String.length B < cap)%nat -> k1 B = k2 B) ->
  bind (CStr.strcat cap Buff a) k1 = bind (CStr.strcat cap Buff a) k2.
Proof.
  intros Hk. destruct (CStr.strcat cap Buff a) as [B | | |] eqn:HB; try reflexivity.
  cbn [bind]. apply Hk. now apply strcat_fits in HB.
Qed.

Variables (mem : bytes) (len : Z).

Lemma line_bytes_next (i : Z) (room : nat) (b : byte) (bs : list byte) :
  0 <= i -> line_bytes mem len i (S room) (b :: bs) ->
  i < len /\ peek mem i = Ok b /\ line_bytes mem len (i + 1) room bs.
Proof.
  intros Hi (Hlen & Hnth). cbn [List.length] in Hlen.
  assert (Hlt : i < len) by lia. split; [exact Hlt |]. split.
  - unfold peek. destruct (Z.ltb_spec i 0); [lia |].
    specialize (Hnth O ltac:(cbn; lia)). rewrite Nat.add_0_r in Hnth.
    now rewrite Hnth.
  - split; [lia |]. intros m Hm.
    specialize (Hnth (S m) ltac:(cbn; lia)). cbn [nth_error] in Hnth.
    rewrite <- Hnth. f_equal. lia.
Qed.

Lemma line_bytes_end (i : Z) (room : nat) :
  line_bytes mem len i (S room) [] -> len <= i.
Proof. intros (Hlen & _). cbn [List.length] in Hlen. lia. Qed.

Lemma hex_columns_spec (fuel : nat) : forall (i j : Z) (Buff : string) (bs : list byte),
  0 <= i -> 0 <= j -> j + Z.of_nat fuel <= 16 ->
  (String.length Buff < BUFF_SIZE)%nat ->
  line_bytes mem len i fuel bs ->
  hex_columns fuel mem len i j Buff
  = CStr.strcat BUFF_SIZE Buff (hex_cells fuel j bs).
Proof.
  induction fuel as [| fuel IH]; intros i j Buff bs Hi Hj Hfuel HBuff Hbs.
  - cbn [hex_columns hex_cells]. now rewrite strcat_nil.
  - cbn [hex_columns hex_cells].
    destruct (Z.ltb_spec j 16) as [_ | Hge]; [| lia].
    set (sep := if (j =? 7)%Z then " " else "").
    assert (Hsep : forall B, (String.length B < BUFF_SIZE)%nat ->
              (if (j =? 7)%Z then CStr.strcat BUFF_SIZE B " " else Ok B)
              = CStr.strcat BUFF_SIZE B sep).
    { intros B HB. unfold sep. destruct (j =? 7)%Z; [reflexivity |].
      now rewrite strcat_nil. }
    destruct bs as [| b bs].
    + apply line_bytes_end in Hbs as Hend.
      destruct (Z.ltb_spec i len) as [Hlt | _]; [lia |].
      assert (Hrest : line_bytes mem len (i + 1) fuel []).
      { destruct Hbs as (Hlen & _). split; [cbn [List.length] in *; lia |].
        intros m Hm. cbn in Hm. lia. }
      rewrite <- strcat_strcat. apply bind_strcat. intros B HB.
      rewrite Hsep by exact HB. rewrite <- strcat_strcat. apply bind_strcat.
      intros B' HB'. cbn [List.tl]. apply IH; auto; lia.
    + destruct (line_bytes_next i fuel b bs Hi Hbs) as (Hlt & Hpeek & Hrest).
      destruct (Z.ltb_spec i len) as [_ | Hge]; [| lia].
      rewrite Hpeek. cbn [bind].
      rewrite <- strcat_strcat. apply bind_strcat. intros B HB.
      rewrite Hsep by exact HB. rewrite <- strcat_strcat. apply bind_strcat.
      intros B' HB'. cbn [List.tl]. apply IH; auto; lia.
Qed.

Lemma char_columns_spec (fuel : nat) : forall (i j : Z) (Buff : string) (bs : list byte),
  0 <= i -> 0 <= j -> j + Z.of_nat fuel = 16 ->
  (String.length Buff < BUFF_SIZE)%nat ->
  line_bytes mem len i fuel bs ->
  char_columns fuel mem len i j Buff
  = bind (CStr.strcat BUFF_SIZE Buff (char_cells j bs))
         (fun B => Ok (B, i + Z.of_nat (List.length bs))).
Proof.
  induction fuel as [| fuel IH]; intros i j Buff bs Hi Hj Hfuel HBuff Hbs.
  - destruct Hbs as (Hlen & _). destruct bs; [| cbn [List.length] in Hlen; lia].
    cbn [char_columns char_cells List.length]. rewrite strcat_nil by exact HBuff.
    cbn [bind]. now rewrite Z.add_0_r.
  - cbn [char_columns].
    destruct bs as [| b bs].
    + apply line_bytes_end in Hbs as Hend.
      destruct (Z.ltb_spec i len) as [Hlt | _]; [lia |]. cbn [andb char_cells List.length].
      rewrite strcat_nil by exact HBuff. cbn [bind]. now rewrite Z.add_0_r.
    + destruct (line_bytes_next i fuel b bs Hi Hbs) as (Hlt & Hpeek & Hrest).
      destruct (Z.ltb_spec i len) as [_ | Hge]; [| lia].
      destruct (Z.ltb_spec j 16) as [_ | Hge]; [| lia].
      cbn [andb]. rewrite Hpeek. cbn [bind char_cells].
      set (sep := if (j =? 7)%Z then " " else "").
      change (String (shown b) (sep ++ char_cells (j + 1) bs))
        with (String (shown b) "" ++ sep ++ char_cells (j + 1) bs).
      rewrite <- strcat_strcat.
      destruct (CStr.strcat BUFF_SIZE Buff (String (shown b) "")) as [B | | |] eqn:HB;
        try reflexivity.
      cbn [bind]. apply strcat_fits in HB as (HB & _).
      replace (if (j =? 7)%Z then CStr.strcat BUFF_SIZE B " " else Ok B)
        with (CStr.strcat BUFF_SIZE B sep)
        by (unfold sep; destruct (j =? 7)%Z; [reflexivity | now rewrite strcat_nil]).
      rewrite <- strcat_strcat.
      destruct (CStr.strcat BUFF_SIZE B sep) as [B' | | |] eqn:HB'; try reflexivity.
      cbn [bind]. apply strcat_fits in HB' as (HB' & _).
      rewrite (IH (i + 1) (j + 1) B' bs) by (auto; lia).
      destruct (CStr.strcat BUFF_SIZE B' (char_cells (j + 1) bs)); try reflexivity.
      cbn [bind List.length]. do 2 f_equal. lia.
Qed.

(** A line is the address, the hexadecimal columns, two spaces and the
    characters, as long as [Buff] holds them. *)
Lemma dump_line_spec (lp start : Z) (bs : list byte) :
  0 <= start ->
  line_bytes mem len start 16 bs ->
  dump_line lp mem len start
  = bind (CStr.strcat BUFF_SIZE ""
            ((pointer_text (lp + start) ++ ": ")
             ++ hex_cells 16 0 bs ++ "  " ++ char_cells 0 bs))
         (fun B => Ok (B, start + Z.of_nat (List.length bs))).
Proof.
  intros Hstart Hbs. unfold dump_line.
  set (key := pointer_text (lp + start) ++ ": ").
  rewrite <- (strcat_strcat BUFF_SIZE "" key).
  destruct (CStr.strcat BUFF_SIZE "" key) as [B0 | | |] eqn:HB0; try reflexivity.
  cbn [bind]. apply strcat_fits in HB0 as (HB0 & _).
  rewrite (hex_columns_spec 16 start 0 B0 bs) by (auto; lia).
  rewrite <- (strcat_strcat BUFF_SIZE B0 (hex_cells 16 0 bs)).
  destruct (CStr.strcat BUFF_SIZE B0 (hex_cells 16 0 bs)) as [B1 | | |] eqn:HB1;
    try reflexivity.
  cbn [bind]. apply strcat_fits in HB1 as (HB1 & _).
  rewrite <- (strcat_strcat BUFF_SIZE B1 "  ").
  destruct (CStr.strcat BUFF_SIZE B1 "  ") as [B2 | | |] eqn:HB2; try reflexivity.
  cbn [bind]. apply strcat_fits in HB2 as (HB2 & _).
  apply char_columns_spec; auto; lia.
Qed.

End DumpLines.

Lemma stuffBuff_digits (b : byte) :
  stuffBuff b
  = String (hex_digit (byte.unsigned b / 16))
      (String (hex_digit (byte.unsigned b mod 16)) " ").
Proof. destruct b; reflexivity. Qed.

Lemma digit_in_hex_digit (b : byte) :
  CStr.digit_in 16 (hex_digit (byte.unsigned b / 16)) = Some (byte.unsigned b / 16)
  /\ CStr.digit_in 16 (hex_digit (byte.unsigned b mod 16)) = Some (byte.unsigned b mod 16).
Proof. destruct b; split; reflexivity. Qed.

Lemma get_append_right (a t : string) (n : nat) :
  String.get (String.length a + n) (String.append a t) = String.get n t.
Proof. rewrite Nat.add_comm. symmetry. apply append_correct2. Qed.

Ltac list_upto n bs :=
  match n with
  | O => destruct bs as [| ? ?]; [| cbn [List.length] in *; lia]
  | S ?k => destruct bs as [| ? bs]; [| list_upto k bs]
  end.

(** Where the columns of a line stand, after the address. *)
Lemma cells_layout (bs : list byte) (m : nat) (b : byte) :
  (List.length bs <= 16)%nat ->
  nth_error bs m = Some b ->
  let t := String.append (hex_cells 16 0 bs) (String.append "  " (char_cells 0 bs)) in
  let gap := if Nat.leb 8 m then 1%nat else 0%nat in
  String.get (3 * m + gap) t = Some (hex_digit (byte.unsigned b / 16))
  /\ String.get (3 * m + gap + 1) t = Some (hex_digit (byte.unsigned b mod 16))
  /\ String.get (3 * m + gap + 2) t = Some " "%char
  /\ String.get (19 + 2 * List.length bs + m + gap) t = Some (shown b).
Proof.
  intros Hlen Hm.
  list_upto 16%nat bs;
    cbn [hex_cells char_cells List.tl Z.eqb Z.add Pos.add Pos.succ Pos.eqb
         String.append List.length Nat.mul Nat.add] ;
    rewrite ?stuffBuff_digits; cbn [String.append];
    repeat (destruct m as [| m];
            [cbn [nth_error] in Hm; injection Hm as <-;
             cbn [Nat.leb Nat.mul Nat.add String.get]; repeat split; reflexivity |]);
    cbn [nth_error] in Hm; try discriminate; destruct m; discriminate.
Qed.

Lemma cells_length (bs : list byte) :
  (List.length bs <= 16)%nat ->
  String.length (String.append (hex_cells 16 0 bs) (String.append "  " (char_cells 0 bs)))
  = (19 + 3 * List.length bs + if Nat.leb 8 (List.length bs) then 1 else 0)%nat.
Proof.
  intros Hlen.
  list_upto 16%nat bs;
    cbn [hex_cells char_cells List.tl Z.eqb Z.add Pos.add Pos.succ Pos.eqb
         String.append List.length];
    rewrite ?stuffBuff_digits; reflexivity.
Qed.

Section DumpFacts.
Context {HO : host}.
Variables (lp : Z) (mem : bytes) (len : Z).
Hypothesis len_in_region : len <= Z.of_nat (List.length mem).

(** The bytes of the line that starts at [start]. *)
Lemma line_bytes_slice (start : Z) :
  0 <= start ->
  line_bytes mem len start 16
    (slice mem (Z.to_nat start) (Z.to_nat (Z.min 16 (len - start)))).
Proof.
  intros Hstart. unfold line_bytes, slice.
  assert (Hl : List.length (firstn (Z.to_nat (Z.min 16 (len - start)))
                              (skipn (Z.to_nat start) mem))
               = Z.to_nat (Z.min 16 (len - start))).
  { rewrite length_firstn, length_skipn. lia. }
  split; [rewrite Hl; lia |].
  intros m Hm. rewrite Hl in Hm.
  rewrite nth_error_firstn.
  destruct (Nat.ltb_spec m (Z.to_nat (Z.min 16 (len - start)))) as [_ | Hge]; [| lia].
  now rewrite nth_error_skipn.
Qed.

Lemma dump_line_closed (start : Z) :
  0 <= start < len ->
  let bs := slice mem (Z.to_nat start) (Z.to_nat (Z.min 16 (len - start))) in
  let text := String.append (String.append (pointer_text (lp + start)) ": ")
                (String.append (hex_cells 16 0 bs)
                   (String.append "  " (char_cells 0 bs))) in
  List.length bs = Z.to_nat (Z.min 16 (len - start))
  /\ String.length text
     = (String.length (pointer_text (lp + start)) + 21 + 3 * List.length bs
        + if Nat.leb 8 (List.length bs) then 1 else 0)%nat
  /\ dump_line lp mem len start
     = if Nat.leb (String.length text + 1) BUFF_SIZE
       then Ok (text, start + Z.min 16 (len - start))
       else Undefined.
Proof.
  intros Hstart bs text.
  pose proof (line_bytes_slice start ltac:(lia)) as Hbs. fold bs in Hbs.
  assert (Hk : List.length bs = Z.to_nat (Z.min 16 (len - start))).
  { destruct Hbs as (Hl & _). lia. }
  split; [exact Hk |]. split.
  - unfold text. rewrite !length_append.
    pose proof (cells_length bs ltac:(lia)) as Hc. rewrite !length_append in Hc.
    cbn [String.length] in *. lia.
  - rewrite (dump_line_spec mem len lp start bs) by (auto; lia). fold text.
    unfold CStr.strcat. cbn [String.length String.append Nat.add].
    destruct (Nat.leb (String.length text + 1) BUFF_SIZE); [| reflexivity].
    cbn [bind]. do 3 f_equal. lia.
Qed.

End DumpFacts.

(** X4.  The layout of a dump line.  For a line that starts at byte [start]
    of a region of [len] bytes and shows k = min(16, len - start) of them,
    when the text fits [Buff]: [dump_line] returns the line and start + k;
    after the address and ": ", byte m of the line stands as two
    hexadecimal digits and a space at column 3m, one further right from
    byte 8 on, and the two digits read back as the byte; its character
    (itself from ' ' to '~', a dot otherwise) stands at column
    19 + 2k + m, one further right from byte 8 on. *)
Theorem dump_line_layout {HO : host} (lp : Z) (mem : bytes) (len start : Z) :
  0 <= start < len ->
  len <= Z.of_nat (List.length mem) ->
  let k := Z.to_nat (Z.min 16 (len - start)) in
  let key := (String.length (pointer_text (lp + start)) + 2)%nat in
  (key + 19 + 3 * k + (if Nat.leb 8 k then 1 else 0) <= 80)%nat ->
  exists line,
    dump_line lp mem len start = Ok (line, start + Z.of_nat k)
    /\ String.length line = (key + 19 + 3 * k + if Nat.leb 8 k then 1 else 0)%nat
    /\ forall m, (m < k)%nat ->
         let gap := if Nat.leb 8 m then 1%nat else 0%nat in
         exists b hi lo,
           nth_error mem (Z.to_nat start + m) = Some b
           /\ String.get (key + 3 * m + gap) line = Some hi
           /\ String.get (key + 3 * m + gap + 1) line = Some lo
           /\ String.get (key + 3 * m + gap + 2) line = Some " "%char
           /\ CStr.digit_in 16 hi = Some (byte.unsigned b / 16)
           /\ CStr.digit_in 16 lo = Some (byte.unsigned b mod 16)
           /\ String.get (key + 19 + 2 * k + m + gap) line = Some (shown b).
Proof.
  intros Hstart Hlen k key Hroom.
  destruct (dump_line_closed lp mem len Hlen start Hstart) as (Hk & Htext & Hline).
  set (bs := slice mem (Z.to_nat start) (Z.to_nat (Z.min 16 (len - start)))) in *.
  set (cells := String.append (hex_cells 16 0 bs)
                  (String.append "  " (char_cells 0 bs))) in *.
  set (addr := String.append (pointer_text (lp + start)) ": ") in *.
  fold k in Hk. rewrite Hk in Htext.
  assert (Hkey : String.length addr = key).
  { unfold addr, key. rewrite length_append. reflexivity. }
  exists (String.append addr cells).
  rewrite Hline. unfold BUFF_SIZE.
  destruct (Nat.leb_spec (String.length (String.append addr cells) + 1) 81)
    as [_ | Hover]; [| unfold key in Hroom; lia].
  split; [do 2 f_equal; lia |]. split; [unfold key; lia |].
  intros m Hm. set (gap := if Nat.leb 8 m then 1%nat else 0%nat).
  destruct (nth_error bs m) as [b |] eqn:Hb;
    [| apply nth_error_None in Hb; lia].
  destruct (cells_layout bs m b ltac:(lia) Hb) as (H0 & H1 & H2 & H3).
  fold cells in H0, H1, H2, H3. rewrite Hk in H3.
  destruct (digit_in_hex_digit b) as (Hhi & Hlo).
  exists b, (hex_digit (byte.unsigned b / 16)), (hex_digit (byte.unsigned b mod 16)).
  destruct (line_bytes_slice mem len Hlen start ltac:(lia)) as (_ & Hnth).
  fold bs in Hnth. rewrite (Hnth m) by lia.
  rewrite <- Hkey.
  replace (String.length addr + 3 * m + gap)%nat
    with (String.length addr + (3 * m + gap))%nat by lia.
  replace (String.length addr + (3 * m + gap) + 1)%nat
    with (String.length addr + (3 * m + gap + 1))%nat by lia.
  replace (String.length addr + (3 * m + gap) + 2)%nat
    with (String.length addr + (3 * m + gap + 2))%nat by lia.
  replace (String.length addr + 19 + 2 * k + m + gap)%nat
    with (String.length addr + (19 + 2 * k + m + gap))%nat by lia.
  rewrite !get_append_right. repeat split; assumption.
Qed.

Lemma dump_line_layout_witness :
  exists line,
    @dump_line ExDbg.linux 4096 ExDbg.region 18 0 = Ok (line, 0 + Z.of_nat 16)
    /\ String.length line = (8 + 19 + 3 * 16 + 1)%nat
    /\ forall m, (m < 16)%nat ->
         let gap := if Nat.leb 8 m then 1%nat else 0%nat in
         exists b hi lo,
           nth_error ExDbg.region (Z.to_nat 0 + m) = Some b
           /\ String.get (8 + 3 * m + gap) line = Some hi
           /\ String.get (8 + 3 * m + gap + 1) line = Some lo
           /\ String.get (8 + 3 * m + gap + 2) line = Some " "%char
           /\ CStr.digit_in 16 hi = Some (byte.unsigned b / 16)
           /\ CStr.digit_in 16 lo = Some (byte.unsigned b mod 16)
           /\ String.get (8 + 19 + 2 * 16 + m + gap) line = Some (shown b).
Proof.
  apply (@dump_line_layout ExDbg.linux 4096 ExDbg.region 18 0).
  - lia.
  - apply Z.leb_le. vm_compute. reflexivity.
  - apply Nat.leb_le. vm_compute. reflexivity.
Defined.

(** X5.  The room a dump line takes.  A line for k bytes has the length of
    the address text plus 21 + 3k characters, one more from 8 bytes on, and
    [Buff] holds 80: a line that is longer is written past the end of
    [Buff].  A full line of 16 bytes has 70 characters besides the address,
    so with a region of 16 bytes or more whose address takes more than 10
    characters [debug_dump] overflows [Buff], whatever the log level. *)
Theorem dump_line_overflow {HO : host} (lp : Z) (mem : bytes) (len : Z) (level : Z) :
  len <= Z.of_nat (List.length mem) ->
  (forall start,
      0 <= start < len ->
      let k := Z.to_nat (Z.min 16 (len - start)) in
      let room := (String.length (pointer_text (lp + start)) + 21 + 3 * k
                   + if Nat.leb 8 k then 1 else 0)%nat in
      (dump_line lp mem len start = Undefined <-> (80 < room)%nat)
      /\ (forall line next, dump_line lp mem len start = Ok (line, next) ->
            String.length line = room /\ next = start + Z.of_nat k))
  /\ (16 <= len ->
      (10 < String.length (pointer_text lp))%nat ->
      debug_dump level lp mem len = Undefined).
Proof.
  intros Hlen.
  assert (Hline : forall start,
      0 <= start < len ->
      let k := Z.to_nat (Z.min 16 (len - start)) in
      let room := (String.length (pointer_text (lp + start)) + 21 + 3 * k
                   + if Nat.leb 8 k then 1 else 0)%nat in
      (dump_line lp mem len start = Undefined <-> (80 < room)%nat)
      /\ (forall line next, dump_line lp mem len start = Ok (line, next) ->
            String.length line = room /\ next = start + Z.of_nat k)).
  { intros start Hstart. cbv zeta.
    destruct (dump_line_closed lp mem len Hlen start Hstart) as (Hk & Htext & Hdump).
    rewrite Hk in Htext.
    match type of Htext with
    | String.length ?t = _ => remember t as text eqn:Etext
    end.
    clear Etext. rewrite Hdump, Htext. unfold BUFF_SIZE.
    set (room := (String.length (pointer_text (lp + start)) + 21
                  + 3 * Z.to_nat (Z.min 16 (len - start))
                  + if Nat.leb 8 (Z.to_nat (Z.min 16 (len - start))) then 1 else 0)%nat)
      in *.
    destruct (Nat.leb_spec (room + 1) 81) as [Hfit | Hover].
    - split; [split; [discriminate | lia] |].
      intros line next H. injection H as <- <-. rewrite Htext. split; [reflexivity | lia].
    - split; [split; [lia | reflexivity] | discriminate]. }
  split; [exact Hline |].
  intros H16 Hptr. unfold debug_dump.
  destruct (Z.to_nat len) as [| fuel] eqn:Hfuel; [lia |].
  cbn [dump_lines].
  destruct (Z.ltb_spec 0 len) as [_ | Hle]; [| lia].
  destruct (Hline 0 ltac:(lia)) as ((_ & Hover) & _).
  rewrite Hover; [reflexivity |].
  rewrite Z.add_0_r.
  replace (Z.to_nat (Z.min 16 (len - 0))) with 16%nat by lia.
  cbn [Nat.leb]. lia.
Qed.

Lemma dump_line_overflow_witness :
  (forall start,
      0 <= start < 18 ->
      let k := Z.to_nat (Z.min 16 (18 - start)) in
      let room := (String.length (@pointer_text ExDbg.linux (140737488351232 + start))
                   + 21 + 3 * k + if Nat.leb 8 k then 1 else 0)%nat in
      (@dump_line ExDbg.linux 140737488351232 ExDbg.region 18 start = Undefined
       <-> (80 < room)%nat)
      /\ (forall line next,
            @dump_line ExDbg.linux 140737488351232 ExDbg.region 18 start = Ok (line, next) ->
            String.length line = room /\ next = start + Z.of_nat k))
  /\ (16 <= 18 ->
      (10 < String.length (@pointer_text ExDbg.linux 140737488351232))%nat ->
      @debug_dump ExDbg.linux 0 140737488351232 ExDbg.region 18 = Undefined).
Proof.
  apply (@dump_line_overflow ExDbg.linux 140737488351232 ExDbg.region 18 0).
  apply Z.leb_le. vm_compute. reflexivity.
Defined.

Example dump_overflows_on_64_bit :
  @debug_dump ExDbg.linux 0 140737488351232 ExDbg.region 18 = Undefined.
Proof. vm_compute. reflexivity. Qed.

Section DumpCount.
Context {HO : host}.
Variables (level lp : Z) (mem : bytes) (len : Z).
Hypothesis len_in_region : len <= Z.of_nat (List.length mem).
Hypothesis short_pointers :
  forall start, 0 <= start < len ->
    (String.length (pointer_text (lp + start)) <= 10)%nat.

Lemma dump_lines_count (fuel : nat) : forall start,
  0 <= start -> len - start <= Z.of_nat fuel ->
  exists out,
    dump_lines fuel level lp mem len start = Ok out
    /\ Z.of_nat (List.length out)
       = if level <? LOG_LEVEL_DEBUG then 0 else (Z.max 0 (len - start) + 15) / 16.
Proof.
  induction fuel as [| fuel IH]; intros start Hstart Hfuel.
  - exists []. split; [reflexivity |].
    replace (Z.max 0 (len - start)) with 0 by lia.
    destruct (level <? LOG_LEVEL_DEBUG); reflexivity.
  - cbn [dump_lines]. destruct (Z.ltb_spec start len) as [Hlt | Hge].
    + destruct (dump_line_closed lp mem len len_in_region start ltac:(lia))
        as (Hk & Htext & Hdump).
      pose proof (short_pointers start ltac:(lia)) as Hptr.
      rewrite Hdump. unfold BUFF_SIZE.
      match goal with
      | |- context [Nat.leb ?a 81] => destruct (Nat.leb_spec a 81) as [_ | Hover]
      end.
      * cbn [bind fst snd].
        destruct (IH (start + Z.min 16 (len - start)) ltac:(lia) ltac:(lia))
          as (rest & Hrest & Hcount).
        rewrite Hrest. cbn [bind]. eexists. split; [reflexivity |].
        rewrite length_app, Nat2Z.inj_add, Hcount. unfold _dprintf.
        destruct (level <? LOG_LEVEL_DEBUG); [reflexivity |].
        cbn [List.length].
        destruct (Z.le_gt_cases 16 (len - start)) as [Hfull | Hpart].
        -- replace (Z.min 16 (len - start)) with 16 by lia.
           replace (Z.max 0 (len - (start + 16))) with (Z.max 0 (len - start) - 1 * 16)
             by lia.
           replace (Z.max 0 (len - start) - 1 * 16 + 15)
             with (Z.max 0 (len - start) + 15 + (- 1) * 16) by lia.
           rewrite Z.div_add by lia. lia.
        -- replace (Z.min 16 (len - start)) with (len - start) by lia.
           replace (Z.max 0 (len - (start + (len - start)))) with 0 by lia.
           replace (Z.max 0 (len - start)) with (len - start) by lia.
           change ((0 + 15) / 16) with 0.
           assert (Hone : (len - start + 15) / 16 = 1).
           { symmetry. apply (Z.div_unique _ 16 1 (len - start - 1)); lia. }
           rewrite Hone. reflexivity.
      * exfalso. rewrite Htext, Hk in Hover.
        assert (Hkle : (Z.to_nat (Z.min 16 (len - start)) <= 16)%nat) by lia.
        destruct (Nat.leb 8 (Z.to_nat (Z.min 16 (len - start)))); lia.
    + exists []. split; [reflexivity |].
      replace (Z.max 0 (len - start)) with 0 by lia.
      destruct (level <? LOG_LEVEL_DEBUG); reflexivity.
Qed.

End DumpCount.

(** X6.  How much [debug_dump] writes.  For a region that holds [len] bytes
    and addresses whose text has at most 10 characters, [debug_dump]
    returns; below the debug level it writes nothing, otherwise it writes
    the header and one line for every 16 bytes or part of 16 bytes; a
    length of 0 or less gives the header alone. *)
Theorem debug_dump_lines {HO : host} (level lp : Z) (mem : bytes) (len : Z) :
  len <= Z.of_nat (List.length mem) ->
  (forall start, 0 <= start < len ->
     (String.length (pointer_text (lp + start)) <= 10)%nat) ->
  exists out,
    debug_dump level lp mem len = Ok out
    /\ Z.of_nat (List.length out)
       = (if level <? LOG_LEVEL_DEBUG then 0 else 1 + (Z.max 0 len + 15) / 16)
    /\ (forall text, In text out -> exists line, text = Stderr line).
Proof.
  intros Hlen Hptr. unfold debug_dump.
  destruct (dump_lines_count level lp mem len Hlen Hptr (Z.to_nat len) 0
              ltac:(lia) ltac:(lia)) as (lines & Hlines & Hcount).
  rewrite Hlines. cbn [bind]. eexists. split; [reflexivity |]. split.
  - rewrite length_app, Nat2Z.inj_add, Hcount, Z.sub_0_r. unfold _dprintf.
    destruct (level <? LOG_LEVEL_DEBUG); reflexivity.
  - intros text Hin. apply in_app_or in Hin as [Hin | Hin].
    + unfold _dprintf in Hin. destruct (level <? LOG_LEVEL_DEBUG); [contradiction |].
      destruct Hin as [<- | []]. eauto.
    + clear Hcount. revert Hin Hlines. generalize 0 at 1. generalize (Z.to_nat len).
      intros fuel. revert lines.
      induction fuel as [| fuel IH]; intros lines start Hin Hlines.
      * injection Hlines as <-. contradiction.
      * cbn [dump_lines] in Hlines. destruct (start <? len).
        -- apply bind_ok in Hlines as (line & _ & Hlines).
           apply bind_ok in Hlines as (rest & Hrest & Hlines). injection Hlines as <-.
           apply in_app_or in Hin as [Hin | Hin]; [| now apply (IH rest (snd line))].
           unfold _dprintf in Hin. destruct (level <? LOG_LEVEL_DEBUG); [contradiction |].
           destruct Hin as [<- | []]. eauto.
        -- injection Hlines as <-. contradiction.
Qed.

Lemma debug_dump_lines_witness :
  exists out,
    @debug_dump ExDbg.linux 7 4096 ExDbg.region 18 = Ok out
    /\ Z.of_nat (List.length out)
       = (if 7 <? @LOG_LEVEL_DEBUG ExDbg.linux then 0 else 1 + (Z.max 0 18 + 15) / 16)
    /\ (forall text, In text out -> exists line, text = Stderr line).
Proof.
  apply (@debug_dump_lines ExDbg.linux 7 4096 ExDbg.region 18).
  - apply Z.leb_le. vm_compute. reflexivity.
  - intros start Hstart.
    assert (Hcase : start = 0 \/ start = 1 \/ start = 2 \/ start = 3 \/ start = 4
                    \/ start = 5 \/ start = 6 \/ start = 7 \/ start = 8 \/ start = 9
                    \/ start = 10 \/ start = 11 \/ start = 12 \/ start = 13
                    \/ start = 14 \/ start = 15 \/ start = 16 \/ start = 17) by lia.
    repeat (destruct Hcase as [-> | Hcase];
            [apply Nat.leb_le; vm_compute; reflexivity |]).
    subst. apply Nat.leb_le. vm_compute. reflexivity.
Defined.

(** ** The dump files *)

Section FileDump.
Local Open Scope string_scope.

Lemma prefix_append (key x : string) : String.prefix key (key ++ x) = true.
Proof.
  induction key as [| a key IH]; cbn [String.append String.prefix].
  - destruct x; reflexivity.
  - destruct (ascii_dec a a); [exact IH | contradiction].
Qed.

Lemma strstr_prefix (key x : string) : CStr.strstr (key ++ x) key = Some O.
Proof.
  unfold CStr.strstr. pose proof (prefix_append key x) as Hp.
  destruct (key ++ x) as [| a s] eqn:Hs.
  - destruct key; [reflexivity | discriminate].
  - cbn [String.index]. now rewrite Hp.
Qed.

Lemma char_at_append (a : string) (c : ascii) (x : string) :
  CStr.char_at (a ++ String c x) (String.length a) = Ok c.
Proof.
  unfold CStr.char_at.
  pose proof (get_append_right a (String c x) O) as Hg. rewrite Nat.add_0_r in Hg.
  now rewrite Hg.
Qed.

Lemma substr_from_append (a : string) (c : ascii) (x : string) :
  Str.substr_from (a ++ String c x) (String.length a + 1) = x.
Proof. induction a as [| b a IH]; [reflexivity | exact IH]. Qed.

Lemma atoi_decimal (n : Z) (rest : string) :
  0 <= n <= CStr.INT_MAX -> ends_number rest ->
  CStr.atoi (decimal n ++ rest) = Ok n.
Proof.
  intros Hn Hrest. unfold CStr.atoi.
  destruct (decimal_head n ltac:(lia)) as (c & s & Hdec & Hdigit & _).
  destruct (digits_decimal n rest ltac:(lia) Hrest) as (k & Hk).
  rewrite Hdec in *. cbn [String.append] in *.
  rewrite (sign_of_digit c _ Hdigit), Hk. cbn [snd].
  unfold CStr.INT_MIN, CStr.INT_MAX in *.
  destruct (Z.leb_spec (- 2 ^ 31) n); [| lia].
  destruct (Z.leb_spec n (2 ^ 31 - 1)); [reflexivity | lia].
Qed.

(** The number after the key that opens the parameter is read. *)
Lemma skip_count_first (key rest : string) (n : Z) :
  0 <= n <= CStr.INT_MAX -> ends_number rest ->
  skip_count key (key ++ "=" ++ decimal n ++ rest) = Ok (Some n).
Proof.
  intros Hn Hrest. unfold skip_count.
  rewrite strstr_prefix.
  change (key ++ "=" ++ decimal n ++ rest)
    with (key ++ String "=" (decimal n ++ rest)).
  rewrite char_at_append. cbn [bind].
  rewrite substr_from_append, atoi_decimal by assumption. reflexivity.
Qed.

Lemma get_put_same (m : skip_map_t) (k : string) (v : Z) :
  Interface.map.get (Interface.map.put m k v) k = Some v.
Proof. apply (@Interface.map.get_put_same _ _ _ (SortedListString.ok Z)). Qed.

Lemma get_put_diff (m : skip_map_t) (k k' : string) (v : Z) :
  k <> k' -> Interface.map.get (Interface.map.put m k' v) k = Interface.map.get m k.
Proof. apply (@Interface.map.get_put_diff _ _ _ (SortedListString.ok Z)). Qed.

Variables (key val : string) (n : Z).
Hypothesis Hcount : skip_count key val = Ok (Some n).

(** The first call for a key behaves as a later call would with the number
    of the parameter in the map. *)
Lemma dump_first_call (ok : bool) (m : skip_map_t) :
  Interface.map.get m key = None ->
  debug_file_dump key (Some val) ok m
  = debug_file_dump key (Some val) ok (Interface.map.put m key n).
Proof.
  intros Hnone. unfold debug_file_dump. rewrite Hcount. cbn [bind]. cbv zeta.
  rewrite Hnone, !get_put_same. reflexivity.
Qed.

Lemma dump_call (ok : bool) (m : skip_map_t) (v : Z) :
  Interface.map.get m key = Some v ->
  debug_file_dump key (Some val) ok m
  = if (v =? -1)%Z then Ok (NotDumped, m)
    else if (0 <? v)%Z then Ok (NotDumped, Interface.map.put m key (v - 1)%Z)
    else if ok then Ok (Dumped (key ++ ".dump"), Interface.map.put m key (-1)%Z)
    else Ok (OpenFailed (key ++ ".dump"), m).
Proof.
  intros Hv. unfold debug_file_dump. rewrite Hcount. cbn [bind]. cbv zeta.
  rewrite !Hv. reflexivity.
Qed.

Lemma dump_calls_done (extra : nat) : forall m,
  Interface.map.get m key = Some (-1)%Z ->
  debug_file_dump_calls extra key (Some val) true m = Ok (repeat NotDumped extra, m).
Proof.
  induction extra as [| extra IH]; intros m Hm; [reflexivity |].
  cbn [debug_file_dump_calls repeat].
  rewrite (dump_call true m _ Hm). rewrite Z.eqb_refl. cbn [bind fst snd].
  rewrite IH by exact Hm. reflexivity.
Qed.

Lemma dump_calls_skips (j extra : nat) : forall (m : skip_map_t) (v : Z),
  Interface.map.get m key = Some v -> v = Z.of_nat j ->
  exists m',
    debug_file_dump_calls (j + 1 + extra) key (Some val) true m
    = Ok ((repeat NotDumped j ++ [Dumped (key ++ ".dump")] ++ repeat NotDumped extra)%list,
          m')
    /\ Interface.map.get m' key = Some (-1)%Z
    /\ forall k, k <> key -> Interface.map.get m' k = Interface.map.get m k.
Proof.
  induction j as [| j IH]; intros m v Hm Hv.
  - cbn [Z.of_nat] in Hv. subst v.
    cbn [Nat.add debug_file_dump_calls repeat List.app].
    rewrite (dump_call true m _ Hm). cbn [Z.eqb Z.ltb Z.compare bind fst snd].
    rewrite dump_calls_done by apply get_put_same. cbn [bind fst snd].
    eexists. split; [reflexivity |]. split; [apply get_put_same |].
    intros k Hk. now apply get_put_diff.
  - cbn [Nat.add debug_file_dump_calls repeat List.app].
    rewrite (dump_call true m _ Hm).
    destruct (Z.eqb_spec v (-1)); [lia |].
    destruct (Z.ltb_spec 0 v); [| lia]. cbn [bind fst snd].
    destruct (IH (Interface.map.put m key (v - 1)%Z) (v - 1)%Z) as (m' & Hcalls & Hdone & Hothers);
      [apply get_put_same | lia |].
    rewrite Hcalls. cbn [bind fst snd]. exists m'.
    split; [reflexivity |]. split; [exact Hdone |].
    intros k Hk. rewrite (Hothers k Hk). now apply get_put_diff.
Qed.

End FileDump.

(** X7.  A dump is written once, after the calls to skip.  With the
    parameter debug-dump starting with key=N (N from 0 to INT_MAX, not
    followed by a digit), a map that has no entry for the key and a file
    that can be opened: the first N calls of [debug_file_dump] for the key
    write nothing, call N + 1 writes the file key.dump, and no later call
    writes anything; the entries of the other keys are not touched. *)
Theorem dump_after_skips (key rest : string) (n : Z) (extra : nat) (m : skip_map_t) :
  0 <= n <= CStr.INT_MAX ->
  ends_number rest ->
  Interface.map.get m key = None ->
  exists m',
    debug_file_dump_calls (Z.to_nat n + 1 + extra) key
      (Some (String.append key (String "=" (String.append (decimal n) rest)))) true m
    = Ok (repeat NotDumped (Z.to_nat n)
          ++ [Dumped (String.append key ".dump")] ++ repeat NotDumped extra, m')
    /\ Interface.map.get m' key = Some (-1)
    /\ forall k, k <> key -> Interface.map.get m' k = Interface.map.get m k.
Proof.
  intros Hn Hrest Hnone.
  pose proof (skip_count_first key rest n Hn Hrest) as Hcount.
  cbn [String.append] in Hcount.
  set (val := String.append key (String "=" (String.append (decimal n) rest))) in *.
  destruct (dump_calls_skips key val n Hcount (Z.to_nat n) extra
              (Interface.map.put m key n) n (get_put_same m key n) ltac:(lia))
    as (m' & Hcalls & Hdone & Hothers).
  exists m'. split; [| split; [exact Hdone |]].
  - rewrite <- Hcalls.
    replace (Z.to_nat n + 1 + extra)%nat with (S (Z.to_nat n + extra)) by lia.
    cbn [debug_file_dump_calls].
    now rewrite (dump_first_call key val n Hcount true m Hnone).
  - intros k Hk. rewrite (Hothers k Hk). now apply get_put_diff.
Qed.

Lemma dump_after_skips_witness :
  exists m',
    debug_file_dump_calls (Z.to_nat 2 + 1 + 2) "enc"
      (Some (String.append "enc" (String "=" (String.append (decimal 2) ",dec=1"))))
      true Interface.map.empty
    = Ok (repeat NotDumped (Z.to_nat 2)
          ++ [Dumped (String.append "enc" ".dump")] ++ repeat NotDumped 2, m')
    /\ Interface.map.get m' "enc"%string = Some (-1)
    /\ forall k, k <> "enc"%string ->
         Interface.map.get m' k = Interface.map.get (Interface.map.empty : skip_map_t) k.
Proof.
  apply (dump_after_skips "enc"%string ",dec=1"%string 2 2 Interface.map.empty).
  - unfold CStr.INT_MAX. lia.
  - reflexivity.
  - reflexivity.
Defined.

Section LaterKey.
Local Open Scope string_scope.

Lemma strstr_comma (first x : string) :
  Str.find first ","%char = None ->
  CStr.strstr (first ++ String "," x) "," = Some (String.length first).
Proof.
  unfold CStr.strstr. induction first as [| a first IH]; intros Hf.
  - cbn [String.append String.index String.prefix String.length].
    destruct (ascii_dec "," ","); [destruct x; reflexivity | contradiction].
  - cbn [Str.find] in Hf. cbn [String.append String.index String.prefix String.length].
    destruct (Ascii.eqb_spec a ",") as [-> | Hne]; [discriminate |].
    destruct (ascii_dec "," a) as [<- | _]; [contradiction |].
    destruct (Str.find first ","%char); [discriminate |].
    now rewrite IH.
Qed.

Lemma strstr_not_prefix (val key : string) :
  String.prefix key val = false -> val <> "" -> CStr.strstr val key <> Some O.
Proof.
  intros Hp Hne. unfold CStr.strstr. destruct val as [| a val]; [contradiction |].
  cbn [String.index]. rewrite Hp.
  destruct (String.index 0 key val); discriminate.
Qed.

Lemma char_at_key_end (first body rest : string) (c : ascii) :
  CStr.char_at (first ++ String "," ((body ++ String c "") ++ rest))
               (String.length first + String.length (body ++ String c ""))
  = Ok c.
Proof.
  replace (first ++ String "," ((body ++ String c "") ++ rest))
    with ((first ++ String "," body) ++ String c rest)
    by (rewrite (append_assoc body), (append_assoc first); reflexivity).
  replace (String.length first + String.length (body ++ String c ""))%nat
    with (String.length (first ++ String "," body))
    by (rewrite !length_append; cbn [String.length]; lia).
  apply char_at_append.
Qed.

End LaterKey.

(** X8.  The number of a key that does not open the parameter is not read.
    Take a parameter debug-dump of the form first,key=tail where [first]
    has no comma, and a key that is not a prefix of the parameter and does
    not end with '='.  The function looks for the '=' as many characters
    after the first comma as the key is long, which is the last character
    of the key: it takes 0 for the number of calls to skip whatever [tail]
    says, and the first call for the key writes the file. *)
Theorem later_key_dumped_at_once (first body tail : string) (c : ascii)
    (m : skip_map_t) :
  let key := String.append body (String c EmptyString) in
  let val := String.append first
               (String "," (String.append key (String "=" tail))) in
  c <> "="%char ->
  Str.find first ","%char = None ->
  String.prefix key val = false ->
  Interface.map.get m key = None ->
  skip_count key val = Ok (Some 0)
  /\ exists m',
       debug_file_dump key (Some val) true m
       = Ok (Dumped (String.append key ".dump"), m')
       /\ Interface.map.get m' key = Some (-1).
Proof.
  intros key val Hc Hfirst Hprefix Hnone.
  assert (Hcount : skip_count key val = Ok (Some 0)).
  { unfold skip_count.
    pose proof (strstr_not_prefix val key Hprefix) as Hnp.
    destruct (CStr.strstr val key) as [[| i] |] eqn:Hs;
      [exfalso; apply Hnp; [unfold val; destruct first; discriminate | reflexivity] | |];
      unfold val at 1; rewrite (strstr_comma first _ Hfirst);
      unfold val, key; rewrite char_at_key_end; cbn [bind];
      (destruct (Ascii.eqb_spec c "="); [contradiction | reflexivity]). }
  split; [exact Hcount |].
  rewrite (dump_first_call key val 0 Hcount true m Hnone).
  rewrite (dump_call key val 0 Hcount true _ 0 (get_put_same m key 0)).
  cbn [Z.eqb Z.ltb Z.compare]. eexists. split; [reflexivity |]. apply get_put_same.
Qed.

Lemma later_key_dumped_at_once_witness :
  skip_count "dec" "enc=2,dec=5" = Ok (Some 0)
  /\ exists m',
       debug_file_dump "dec" (Some "enc=2,dec=5"%string) true Interface.map.empty
       = Ok (Dumped "dec.dump", m')
       /\ Interface.map.get m' "dec"%string = Some (-1).
Proof.
  apply (later_key_dumped_at_once "enc=2"%string "de"%string "5"%string "c"%char
           Interface.map.empty).
  - discriminate.
  - reflexivity.
  - reflexivity.
  - reflexivity.
Defined.

(** ** The converter without a crop, and what it leaves alone *)

Section WholeImage.
Context {CI : codec_info}.

(** Without a crop the converter does what it does for the crop to the
    whole image. *)
Lemma converter_no_crop (dst : video_frame) (sb : spa_buffer) (fmt : spa_video_format)
    (size : spa_rectangle) :
  pw_frame_to_uv_frame_memcpy dst sb fmt size None
  = pw_frame_to_uv_frame_memcpy dst sb fmt size
      (Some (crop_rectangle 0 0 (rect_width size) (rect_height size))).
Proof. reflexivity. Qed.

(** The pixels of a crop, in the order of the frame. *)
Lemma crop_pixels_rgb (dst : video_frame) (meta : option spa_meta_region) (mem : bytes)
    (c : spa_chunk) (fmt : spa_video_format) (size : spa_rectangle)
    (x y w h stride bpp : Z) :
  row_stride c size = Ok stride ->
  holds_image mem c size stride bpp ->
  crop_within size x y w h ->
  (forall n, 0 <= n -> vc_get_linesize n (color_spec dst) = bpp * n) ->
  (swap_red_blue fmt = true -> bpp = 4) ->
  bpp * w * h <= Z.of_nat (List.length (tile_data (tiles0 dst))) < 2 ^ 32 ->
  exists out,
    pw_frame_to_uv_frame_memcpy dst (buffer_of meta mem c) fmt size
      (Some (crop_rectangle x y w h)) = Ok out
    /\ frame_id out = frame_id dst
    /\ tile_width (tiles0 out) = w
    /\ tile_height (tiles0 out) = h
    /\ tile_data_len (tiles0 out) = bpp * w * h
    /\ (forall i, 0 <= i < h ->
          exists seg,
            image_row_segment mem (chunk_offset c) stride bpp x (y + i) w = Ok seg
            /\ frame_row out bpp i = Ok (convert_line (swap_red_blue fmt) seg))
    /\ (forall i j, 0 <= i < h -> 0 <= j < w ->
          exists p,
            image_pixel mem (chunk_offset c) stride bpp (x + j) (y + i) = Ok p
            /\ frame_pixel out bpp j i = Ok (rgb_order fmt p)).
Proof.
  intros Hstride Himg Hcrop Hcodec Hswap Hdst.
  destruct (crop_pixels dst meta mem c fmt size x y w h stride bpp
              Hstride Himg Hcrop Hcodec Hdst Hswap)
    as (out & Hout & Hw & Hh & Hrows & Hpix).
  exists out. split; [exact Hout |].
  destruct (converter_frame_id _ _ _ _ _ _ Hout) as (Hid & _).
  split; [exact Hid |]. split; [exact Hw |]. split; [exact Hh |]. split.
  - revert Hout. unfold pw_frame_to_uv_frame_memcpy, buffer_of. cbn [datas].
    intros Hout. apply bind_ok in Hout as (s & _ & Hout).
    apply bind_ok in Hout as (o & _ & Hout). injection Hout as <-.
    cbn [tiles0 set_tiles0 tile_data_len out_width out_height crop_rectangle
         region_size rect_width rect_height].
    destruct Hcrop as (_ & _ & Hw0 & Hh0 & _).
    destruct Himg as (Hbpp & _).
    rewrite Hcodec by exact Hw0. apply u32_small.
    assert (0 <= bpp * w) by nia. split; [nia | lia].
  - split; [exact Hrows |].
    intros i j Hi Hj. destruct (Hpix i j Hi Hj) as (p & Hp & Hlen & Hf).
    exists p. split; [exact Hp |]. rewrite Hf. f_equal.
    destruct (swap_red_blue fmt) eqn:Hs.
    + rewrite <- Hs. apply convert_pixel. rewrite Hlen, (Hswap eq_refl). reflexivity.
    + symmetry. apply (convert_line_copy fmt p Hs).
Qed.

End WholeImage.

(** X9.  Without a crop the converter copies the whole image.  For a source
    image of size W x H and a frame with room for it, the converter called
    with no crop region returns a frame whose tile has width W, height H
    and data length bpp * W * H; row i of the frame is the first W pixels of
    source row i (without the padding of the stride), and pixel (j, i) is
    pixel (j, i) of the source in the channel order of the frame; crop
    metadata the buffer may carry plays no part. *)
Theorem full_frame_copy {CI : codec_info} (dst : video_frame)
    (meta : option spa_meta_region) (mem : bytes) (c : spa_chunk)
    (fmt : spa_video_format) (size : spa_rectangle) (stride bpp : Z) :
  row_stride c size = Ok stride ->
  holds_image mem c size stride bpp ->
  (forall n, 0 <= n -> vc_get_linesize n (color_spec dst) = bpp * n) ->
  (swap_red_blue fmt = true -> bpp = 4) ->
  bpp * rect_width size * rect_height size
    <= Z.of_nat (List.length (tile_data (tiles0 dst))) < 2 ^ 32 ->
  exists out,
    pw_frame_to_uv_frame_memcpy dst (buffer_of meta mem c) fmt size None = Ok out
    /\ tile_width (tiles0 out) = rect_width size
    /\ tile_height (tiles0 out) = rect_height size
    /\ tile_data_len (tiles0 out) = bpp * rect_width size * rect_height size
    /\ (forall i, 0 <= i < rect_height size ->
          exists seg,
            image_row_segment mem (chunk_offset c) stride bpp 0 i (rect_width size) = Ok seg
            /\ frame_row out bpp i = Ok (convert_line (swap_red_blue fmt) seg))
    /\ (forall i j, 0 <= i < rect_height size -> 0 <= j < rect_width size ->
          exists p,
            image_pixel mem (chunk_offset c) stride bpp j i = Ok p
            /\ frame_pixel out bpp j i = Ok (rgb_order fmt p)).
Proof.
  intros Hstride Himg Hcodec Hswap Hdst.
  assert (Hcrop : crop_within size 0 0 (rect_width size) (rect_height size)).
  { destruct Himg as (_ & HW & HH & _). unfold crop_within. lia. }
  destruct (crop_pixels_rgb dst meta mem c fmt size 0 0 (rect_width size)
              (rect_height size) stride bpp Hstride Himg Hcrop Hcodec Hswap Hdst)
    as (out & Hout & _ & Hw & Hh & Hlen & Hrows & Hpix).
  exists out. rewrite converter_no_crop.
  split; [exact Hout |]. split; [exact Hw |]. split; [exact Hh |].
  split; [exact Hlen |]. split.
  - intros i Hi. destruct (Hrows i Hi) as (seg & Hseg & Hrow).
    exists seg. rewrite Z.add_0_l in Hseg. auto.
  - intros i j Hi Hj. destruct (Hpix i j Hi Hj) as (p & Hp & Hf).
    exists p. rewrite !Z.add_0_l in Hp. auto.
Qed.

Lemma full_frame_copy_witness :
  exists out,
    @pw_frame_to_uv_frame_memcpy Ex.four_bytes ExPw.frame_3x2
      (buffer_of (Some {| region := crop_rectangle 1 1 2 1 |}) Ex.image
         (Ex.chunk_with_stride 12))
      SPA_VIDEO_FORMAT_BGRx Ex.image_size None = Ok out
    /\ tile_width (tiles0 out) = rect_width Ex.image_size
    /\ tile_height (tiles0 out) = rect_height Ex.image_size
    /\ tile_data_len (tiles0 out)
       = 4 * rect_width Ex.image_size * rect_height Ex.image_size
    /\ (forall i, 0 <= i < rect_height Ex.image_size ->
          exists seg,
            image_row_segment Ex.image
              (chunk_offset (Ex.chunk_with_stride 12)) 12 4 0 i
              (rect_width Ex.image_size) = Ok seg
            /\ frame_row out 4 i
               = Ok (convert_line (swap_red_blue SPA_VIDEO_FORMAT_BGRx) seg))
    /\ (forall i j, 0 <= i < rect_height Ex.image_size ->
                    0 <= j < rect_width Ex.image_size ->
          exists p,
            image_pixel Ex.image (chunk_offset (Ex.chunk_with_stride 12)) 12 4 j i = Ok p
            /\ frame_pixel out 4 j i = Ok (rgb_order SPA_VIDEO_FORMAT_BGRx p)).
Proof.
  apply (@full_frame_copy Ex.four_bytes ExPw.frame_3x2
           (Some {| region := crop_rectangle 1 1 2 1 |}) Ex.image
           (Ex.chunk_with_stride 12) SPA_VIDEO_FORMAT_BGRx Ex.image_size 12 4).
  - reflexivity.
  - unfold holds_image. cbn. lia.
  - intros n _. reflexivity.
  - intros _. reflexivity.
  - split; [apply Z.leb_le | apply Z.ltb_lt]; vm_compute; reflexivity.
Defined.

(** ** What the converter writes *)

Section Footprint.
Context {A : Type}.

Lemma nth_error_splice_after (buf : list A) (pos : nat) (bs : list A) (p : nat) :
  (pos + List.length bs <= List.length buf)%nat ->
  (pos + List.length bs <= p)%nat ->
  nth_error (splice buf pos bs) p = nth_error buf p.
Proof.
  intros Hfit Hp. unfold splice.
  assert (Hf : List.length (firstn pos buf) = pos) by (rewrite length_firstn; lia).
  rewrite nth_error_app2 by lia. rewrite Hf.
  rewrite nth_error_app2 by lia. rewrite nth_error_skipn. f_equal. lia.
Qed.

End Footprint.

Lemma u32_le (z : Z) : 0 <= z -> 0 <= u32 z <= z.
Proof.
  intros Hz. unfold u32. split; [apply Z.mod_pos_bound; lia |].
  apply Z.mod_le; lia.
Qed.

(** The row loop writes inside the rows it copies, and nowhere else. *)
Lemma copy_rows_footprint (src : bytes) (offset skip stride start_y linesize : Z)
    (swap : bool) (n : nat) : forall (i : Z) (dst out : bytes),
  0 <= i ->
  copy_rows n i src offset skip stride start_y linesize swap dst = Ok out ->
  List.length out = List.length dst
  /\ (forall p, linesize * (i + Z.of_nat n) <= Z.of_nat p ->
        nth_error out p = nth_error dst p)
  /\ (forall k, i <= k < i + Z.of_nat n ->
        0 <= linesize /\ u32 (linesize * k) + linesize <= Z.of_nat (List.length dst)).
Proof.
  induction n as [| n IH]; intros i dst out Hi H.
  - injection H as <-. repeat split; auto; intros; lia.
  - cbn [copy_rows] in H.
    apply bind_ok in H as (line & Hread & H).
    apply bind_ok in H as (dst' & Hwrite & H).
    unfold read_bytes in Hread.
    destruct (in_bounds src _ linesize) eqn:Hin; [| discriminate].
    injection Hread as <-. apply in_bounds_iff in Hin as (Hpos & Hls & Hfit).
    set (line := convert_line swap
                   (slice src (Z.to_nat (src_row_pos offset skip stride start_y i))
                          (Z.to_nat linesize))) in *.
    assert (Hline : List.length line = Z.to_nat linesize).
    { unfold line. rewrite length_convert_line. apply length_slice. lia. }
    unfold write_bytes in Hwrite.
    destruct (in_bounds dst _ _) eqn:Hout; [| discriminate].
    injection Hwrite as <-. apply in_bounds_iff in Hout as (Hd1 & _ & Hd2).
    unfold dst_row_pos in *. rewrite Hline in Hd2.
    assert (Hfits : (Z.to_nat (u32 (linesize * i)) + List.length line
                     <= List.length dst)%nat) by lia.
    apply IH in H as (Hlen & Hkeep & Hrows); [| lia].
    rewrite length_splice in Hlen, Hrows by exact Hfits.
    split; [exact Hlen |]. split.
    + intros p Hp. rewrite Hkeep by lia.
      apply nth_error_splice_after; [exact Hfits |].
      pose proof (u32_le (linesize * i) ltac:(nia)). nia.
    + intros k Hk. destruct (Z.eq_dec k i) as [-> | Hne].
      * split; lia.
      * apply Hrows. lia.
Qed.

(** X10.  What the converter touches.  Whenever the converter returns, the
    frame it returns is the frame it was given but for the tile: same
    identity, codec, rate, interlacing and tile count; the tile has the size
    of the output and data of the same capacity, and every byte at or past
    linesize * height is as it was.  And it returns only if the rows fit:
    with rows to copy the line size is not negative, and the frame has
    linesize * height bytes (when that is less than 2^32). *)
Theorem converter_footprint {CI : codec_info} (dst out : video_frame) (sb : spa_buffer)
    (fmt : spa_video_format) (size : spa_rectangle) (crop : option spa_region) :
  pw_frame_to_uv_frame_memcpy dst sb fmt size crop = Ok out ->
  let linesize := vc_get_linesize (out_width size crop) (color_spec dst) in
  let height := out_height size crop in
  frame_id out = frame_id dst
  /\ color_spec out = color_spec dst
  /\ frame_fps out = frame_fps dst
  /\ interlacing out = interlacing dst
  /\ tile_count out = tile_count dst
  /\ tile_width (tiles0 out) = out_width size crop
  /\ tile_height (tiles0 out) = height
  /\ List.length (tile_data (tiles0 out)) = List.length (tile_data (tiles0 dst))
  /\ (forall p, linesize * Z.max 0 height <= Z.of_nat p ->
        nth_error (tile_data (tiles0 out)) p = nth_error (tile_data (tiles0 dst)) p)
  /\ (0 < height ->
      0 <= linesize
      /\ (linesize * height < 2 ^ 32 ->
          linesize * height <= Z.of_nat (List.length (tile_data (tiles0 dst))))).
Proof.
  unfold pw_frame_to_uv_frame_memcpy.
  destruct (datas sb) as [| [[mem |] [c |]] rest]; try discriminate.
  intros H. apply bind_ok in H as (stride & _ & H).
  apply bind_ok in H as (data_out & Hrows & H). injection H as <-.
  apply copy_rows_footprint in Hrows as (Hlen & Hkeep & Hfit); [| lia].
  cbn [frame_id color_spec frame_fps interlacing tile_count tiles0 set_tiles0
       tile_width tile_height tile_data].
  repeat (split; [reflexivity |]). split; [exact Hlen |]. split.
  - intros p Hp. apply Hkeep. rewrite Z.add_0_l.
    replace (Z.of_nat (Z.to_nat (out_height size crop)))
      with (Z.max 0 (out_height size crop)) by lia. exact Hp.
  - intros Hh. destruct (Hfit (out_height size crop - 1) ltac:(lia)) as (Hls & Hlast).
    split; [exact Hls |]. intros Hsmall.
    rewrite u32_small in Hlast by nia. nia.
Qed.

Lemma converter_footprint_witness :
  exists out,
    @pw_frame_to_uv_frame_memcpy Ex.four_bytes ExPw.frame_3x2
      (buffer_of None Ex.image (Ex.chunk_with_stride 12)) SPA_VIDEO_FORMAT_RGBA
      Ex.image_size (Some (crop_rectangle 1 1 2 1)) = Ok out
    /\ frame_id out = frame_id ExPw.frame_3x2
    /\ List.length (tile_data (tiles0 out)) = 24%nat
    /\ (forall p, 4 * 2 * Z.max 0 1 <= Z.of_nat p ->
          nth_error (tile_data (tiles0 out)) p
          = nth_error (tile_data (tiles0 ExPw.frame_3x2)) p).
Proof.
  eexists. split; [vm_compute; reflexivity |].
  match goal with
  | |- frame_id ?o = _ /\ _ =>
      pose proof (@converter_footprint Ex.four_bytes ExPw.frame_3x2 o
                    (buffer_of None Ex.image (Ex.chunk_with_stride 12))
                    SPA_VIDEO_FORMAT_RGBA Ex.image_size
                    (Some (crop_rectangle 1 1 2 1)) eq_refl) as H
  end.
  cbv zeta in H. destruct H as (Hid & _ & _ & _ & _ & _ & _ & Hlen & Hkeep & _).
  split; [exact Hid |]. split; [exact Hlen |]. exact Hkeep.
Defined.

(** ** From a buffer delivered to the frame grabbed *)

Lemma pop_back_app {A : Type} (l : list A) (x : A) : pop_back (l ++ [x]) = Some (x, l).
Proof.
  induction l as [| a l IH]; [reflexivity |].
  cbn [app pop_back]. now rewrite IH.
Qed.

Lemma length_zeroes (n : Z) : List.length (zeroes n) = Z.to_nat n.
Proof. unfold zeroes. apply repeat_length. Qed.

Lemma video_desc_eq_color (a b : video_desc) :
  video_desc_eq a b = true -> desc_color_spec a = desc_color_spec b.
Proof.
  unfold video_desc_eq. rewrite !andb_true_iff.
  intros (((((_ & _) & H) & _) & _) & _). now apply Z.eqb_eq.
Qed.

Section Pipeline.
Context {CI : codec_info}.
Variables (w : world) (b : pw_buffer) (meta : option spa_meta_region) (mem : bytes)
  (c : spa_chunk) (pool : list video_frame) (f : video_frame)
  (x y cw ch stride bpp : Z).

Let ss := session w.
Let raw := info_raw (format (pw ss)).
Let shape := set_desc_size cw ch (desc ss).

Hypothesis Hready : stream_ready w = [b].
Hypothesis Hbuffer : buffer b = Some (buffer_of meta mem c).
Hypothesis Hpayload : chunk_size c <> 0.
Hypothesis Hoption : crop (user_options ss) = true.
Hypothesis Hmeta : meta = Some {| region := crop_rectangle x y cw ch |}.
Hypothesis Hsize : 0 < cw /\ 0 < ch.
Hypothesis Hstride : row_stride c (info_size raw) = Ok stride.
Hypothesis Himg : holds_image mem c (info_size raw) stride bpp.
Hypothesis Hcrop : crop_within (info_size raw) x y cw ch.
Hypothesis Hcodec : forall n, 0 <= n -> vc_get_linesize n (desc_color_spec (desc ss)) = bpp * n.
Hypothesis Hswap : swap_red_blue (info_format raw) = true -> bpp = 4.
Hypothesis Hsmall : bpp * cw * ch < 2 ^ 32.
Hypothesis Hpool : blank_frames ss = pool ++ [f].
Hypothesis Hroom :
  video_desc_eq (video_desc_from_frame f) shape = true ->
  bpp * cw * ch <= Z.of_nat (List.length (tile_data (tiles0 f))) < 2 ^ 32.
Hypothesis Hqueue : sending_frames ss = [].

Lemma pipeline_acquire :
  on_process_acquire w
  = Ok (Got b (buffer_of meta mem c) f,
        set_session (set_blank_frames pool ss)
          (emit (EvDequeue b)
             {| session := ss; next_frame_id := next_frame_id w;
                stream_ready := []; trace := trace w |})).
Proof.
  unfold on_process_acquire, pw_stream_dequeue_buffer.
  rewrite Hready, Hbuffer. cbn [buffer_of datas data assert bind empty_payload chunk].
  destruct (Z.eqb_spec (chunk_size c) 0) as [He | _]; [contradiction |].
  cbn [session emit]. fold ss. rewrite Hpool, pop_back_app. reflexivity.
Qed.

Lemma pipeline_crop_region (w1 : world) :
  session w1 = set_blank_frames pool ss ->
  crop_region_of (session w1) (buffer_of meta mem c) = Some (crop_rectangle x y cw ch).
Proof.
  intros ->. unfold crop_region_of. cbn [user_options set_blank_frames].
  rewrite Hoption, Hmeta. cbn [buffer_of video_crop_meta].
  unfold spa_meta_region_is_valid.
  cbn [region crop_rectangle region_size rect_width rect_height].
  destruct (Z.eqb_spec cw 0); [lia |]. destruct (Z.eqb_spec ch 0); [lia |].
  reflexivity.
Qed.

(** The frame the conversion writes into has room for the crop. *)
Lemma pipeline_fill (w1 : world) :
  session w1 = set_blank_frames pool ss ->
  exists out w2,
    on_process_fill (buffer_of meta mem c) f w1 = Ok (out, w2)
    /\ session w2 = set_desc shape (set_blank_frames pool ss)
    /\ stream_ready w2 = stream_ready w1
    /\ tile_width (tiles0 out) = cw
    /\ tile_height (tiles0 out) = ch
    /\ tile_data_len (tiles0 out) = bpp * cw * ch
    /\ (forall i j, 0 <= i < ch -> 0 <= j < cw ->
          exists p,
            image_pixel mem (chunk_offset c) stride bpp (x + j) (y + i) = Ok p
            /\ frame_pixel out bpp j i = Ok (rgb_order (info_format raw) p)).
Proof.
  intros Hs1. pose proof (pipeline_crop_region w1 Hs1) as Hregion.
  unfold on_process_fill. cbv zeta. rewrite Hregion.
  cbn [desc_for_crop crop_rectangle region_size rect_width rect_height].
  rewrite Hs1. cbn [desc set_blank_frames set_desc session set_session pw format].
  fold shape. fold raw.
  assert (Hconv : forall dst,
            desc_color_spec (video_desc_from_frame dst) = desc_color_spec (desc ss) ->
            bpp * cw * ch <= Z.of_nat (List.length (tile_data (tiles0 dst))) < 2 ^ 32 ->
            exists out,
              pw_frame_to_uv_frame_memcpy dst (buffer_of meta mem c) (info_format raw)
                (info_size raw) (Some (crop_rectangle x y cw ch)) = Ok out
              /\ tile_width (tiles0 out) = cw
              /\ tile_height (tiles0 out) = ch
              /\ tile_data_len (tiles0 out) = bpp * cw * ch
              /\ (forall i j, 0 <= i < ch -> 0 <= j < cw ->
                    exists p,
                      image_pixel mem (chunk_offset c) stride bpp (x + j) (y + i) = Ok p
                      /\ frame_pixel out bpp j i = Ok (rgb_order (info_format raw) p))).
  { intros dst Hcs Hdst.
    destruct (crop_pixels_rgb dst meta mem c (info_format raw) (info_size raw)
                x y cw ch stride bpp Hstride Himg Hcrop) as (out & Hout & _ & Hrest);
      auto.
    - intros n Hn. cbn [video_desc_from_frame desc_color_spec] in Hcs.
      rewrite Hcs. now apply Hcodec.
    - exists out. destruct Hrest as (Hw & Hh & Hlen & _ & Hpix). auto. }
  destruct (video_desc_eq (video_desc_from_frame f) shape) eqn:Heq; cbn [negb].
  - destruct (Hconv f) as (out & Hout & Hrest).
    + apply video_desc_eq_color in Heq. rewrite Heq. reflexivity.
    + now apply Hroom.
    + rewrite Hout. cbn [bind]. exists out. eexists. split; [reflexivity |].
      cbn [session stream_ready]. auto.
  - unfold reset_frame, fresh_frame_id, vf_free.
    cbn [session emit desc set_desc set_session next_frame_id stream_ready trace].
    destruct (Hconv (vf_alloc_desc_data (next_frame_id w1) shape))
      as (out & Hout & Hrest).
    + reflexivity.
    + cbn [vf_alloc_desc_data tiles0 tile_data shape set_desc_size desc_width
           desc_height desc_color_spec].
      rewrite length_zeroes, Hcodec by lia.
      destruct Himg as (Hbpp & _). assert (0 <= bpp * cw) by nia. split; nia.
    + rewrite Hout. cbn [bind]. exists out. eexists. split; [reflexivity |].
      cbn [session stream_ready]. auto.
Qed.

End Pipeline.

(** X11.  From the buffer to the caller.  A session whose hand-off queue is
    empty gets one buffer with a payload and valid crop metadata (x, y, w,
    h) inside the negotiated image, the crop option being on; the frame at
    the back of the pool either has another shape than the crop (it is then
    reallocated) or has room for the crop.  Then the handler returns, the
    buffer is given back to the service, the descriptor has the size of the
    crop, and the next grab returns at once a frame of w x h pixels whose
    pixel (j, i) is pixel (x + j, y + i) of the image in the buffer, in the
    channel order of the frame. *)
Theorem delivered_crop_is_grabbed {CI : codec_info} (w : world) (b : pw_buffer)
    (meta : option spa_meta_region) (mem : bytes) (c : spa_chunk)
    (pool : list video_frame) (f : video_frame) (x y cw ch stride bpp : Z) :
  let ss := session w in
  let raw := info_raw (format (pw ss)) in
  stream_ready w = [b] ->
  buffer b = Some (buffer_of meta mem c) ->
  chunk_size c <> 0 ->
  crop (user_options ss) = true ->
  meta = Some {| region := crop_rectangle x y cw ch |} ->
  0 < cw /\ 0 < ch ->
  row_stride c (info_size raw) = Ok stride ->
  holds_image mem c (info_size raw) stride bpp ->
  crop_within (info_size raw) x y cw ch ->
  (forall n, 0 <= n -> vc_get_linesize n (desc_color_spec (desc ss)) = bpp * n) ->
  (swap_red_blue (info_format raw) = true -> bpp = 4) ->
  bpp * cw * ch < 2 ^ 32 ->
  blank_frames ss = pool ++ [f] ->
  (video_desc_eq (video_desc_from_frame f) (set_desc_size cw ch (desc ss)) = true ->
   bpp * cw * ch <= Z.of_nat (List.length (tile_data (tiles0 f))) < 2 ^ 32) ->
  sending_frames ss = [] ->
  exists w1 w2 out,
    on_process w = Ok w1
    /\ stream_calls (trace w1) = stream_calls (trace w) ++ [EvDequeue b; EvQueueBuffer b]
    /\ desc (session w1) = set_desc_size cw ch (desc ss)
    /\ vidcap_screen_pw_grab w1 = ((Some out, 0), w2)
    /\ tile_width (tiles0 out) = cw
    /\ tile_height (tiles0 out) = ch
    /\ tile_data_len (tiles0 out) = bpp * cw * ch
    /\ (forall i j, 0 <= i < ch -> 0 <= j < cw ->
          exists p,
            image_pixel mem (chunk_offset c) stride bpp (x + j) (y + i) = Ok p
            /\ frame_pixel out bpp j i = Ok (rgb_order (info_format raw) p)).
Proof.
  intros ss raw Hready Hbuffer Hpayload Hoption Hmeta Hsize Hstride Himg Hcrop
    Hcodec Hswap Hsmall Hpool Hroom Hqueue.
  pose proof (pipeline_acquire w b meta mem c pool f Hready Hbuffer Hpayload Hpool)
    as Hacq.
  set (w0 := set_session (set_blank_frames pool (session w))
               (emit (EvDequeue b)
                  {| session := session w; next_frame_id := next_frame_id w;
                     stream_ready := []; trace := trace w |})) in Hacq.
  destruct (pipeline_fill w meta mem c pool f x y cw ch stride bpp Hoption Hmeta Hsize
              Hstride Himg Hcrop Hcodec Hswap Hsmall Hroom w0 eq_refl)
    as (out & w2 & Hfill & Hs2 & Hr2 & Hw & Hh & Hlen & Hpix).
  assert (Hq2 : sending_frames (session w2) = []).
  { rewrite Hs2. cbn. exact Hqueue. }
  destruct (push_ok b out w2) as (w3 & Hpush); [rewrite Hq2; cbn; lia |].
  pose proof (push_spec b out w2 w3 Hpush) as (_ & Hs3 & Hr3 & _ & Ht3).
  assert (Hit : on_process_iteration w = Ok (true, w3)).
  { unfold on_process_iteration. rewrite Hacq. cbn [bind fst snd].
    rewrite Hfill. cbn [bind fst snd]. rewrite Hpush. reflexivity. }
  assert (Hend : on_process_iteration w3 = Ok (false, w3)).
  { unfold on_process_iteration, on_process_acquire, pw_stream_dequeue_buffer.
    rewrite Hr3, Hr2. reflexivity. }
  assert (Hproc : on_process w = Ok w3).
  { unfold on_process. rewrite Hready. cbn [List.length on_process_loop].
    rewrite Hit. cbn [bind fst snd]. rewrite Hend. reflexivity. }
  pose proof (iteration_spec w w3 true Hit) as Hcalls. rewrite Hready in Hcalls.
  destruct Hcalls as (_ & _ & Hcalls).
  assert (Hq3 : sending_frames (session w3) = [out]).
  { rewrite Hs3, Hq2. reflexivity. }
  exists w3, (snd (vidcap_screen_pw_grab w3)), out.
  split; [exact Hproc |]. split; [exact Hcalls |]. split.
  { rewrite Hs3, Hs2. reflexivity. }
  split; [| auto].
  unfold vidcap_screen_pw_grab.
  destruct (grab_return_spec w3) as (Hnone & _ & Hsn & _).
  pose proof (grab_pop_spec (grab_return_in_flight w3) Hnone) as Hpop.
  cbv zeta in Hpop. destruct Hpop as (_ & _ & _ & _ & _ & _ & _ & _ & Hq).
  rewrite Hsn, Hq3 in Hq. destruct Hq as (Hret & _ & Hwait).
  destruct (grab_timed_pop (grab_return_in_flight w3)) as [[ret waited] w4].
  cbn [fst snd] in Hret, Hwait. subst ret waited. reflexivity.
Qed.

Lemma delivered_crop_is_grabbed_witness :
  exists w1 w2 out,
    @on_process Ex.four_bytes ExPw.cropped_ready = Ok w1
    /\ stream_calls (trace w1)
       = stream_calls (trace ExPw.cropped_ready)
         ++ [EvDequeue (ExPw.cropped_buffer 0); EvQueueBuffer (ExPw.cropped_buffer 0)]
    /\ desc (session w1) = set_desc_size 2 1 (desc (session ExPw.cropped_ready))
    /\ vidcap_screen_pw_grab w1 = ((Some out, 0), w2)
    /\ tile_width (tiles0 out) = 2
    /\ tile_height (tiles0 out) = 1
    /\ tile_data_len (tiles0 out) = 4 * 2 * 1
    /\ (forall i j, 0 <= i < 1 -> 0 <= j < 2 ->
          exists p,
            image_pixel Ex.image (chunk_offset (Ex.chunk_with_stride 12)) 12 4
              (1 + j) (1 + i) = Ok p
            /\ frame_pixel out 4 j i
               = Ok (rgb_order
                       (info_format
                          (info_raw (format (pw (session ExPw.cropped_ready))))) p)).
Proof.
  apply (@delivered_crop_is_grabbed Ex.four_bytes ExPw.cropped_ready
           (ExPw.cropped_buffer 0)
           (Some {| region := crop_rectangle 1 1 2 1 |}) Ex.image
           (Ex.chunk_with_stride 12) [vf_alloc 0 1; vf_alloc 1 1] (vf_alloc 2 1)
           1 1 2 1 12 4).
  - reflexivity.
  - reflexivity.
  - discriminate.
  - reflexivity.
  - reflexivity.
  - lia.
  - reflexivity.
  - unfold holds_image. cbn. lia.
  - unfold crop_within. cbn. lia.
  - intros n _. reflexivity.
  - intros _. reflexivity.
  - lia.
  - reflexivity.
  - intros H. vm_compute in H. discriminate.
  - reflexivity.
Defined.

(** ** The frame the caller holds *)

Lemma in_flight_frames_inj (a b : screen_cast_session) :
  in_flight_frames a = in_flight_frames b -> in_flight_frame a = in_flight_frame b.
Proof.
  unfold in_flight_frames.
  destruct (in_flight_frame a), (in_flight_frame b); intros H; try discriminate;
    [injection H as -> |]; reflexivity.
Qed.

Lemma moves_flight (l : label) (h h' : holdings) :
  moves l h h' -> grab_label l = false ->
  match h, h' with
  | Hold _ _ fl _ _ _ _ _ _ _, Hold _ _ fl' _ _ _ _ _ _ _ => fl' = fl
  end.
Proof. intros Hm Hl. destruct Hm; try reflexivity; try discriminate; now destruct h. Qed.

Section Held.
Context {CI : codec_info}.

Lemma run_keeps_flight (sched : list label) : forall (s s' : system),
  accounted (holdings_of s) ->
  forallb (fun l => negb (grab_label l)) sched = true ->
  run sched s = Ok s' ->
  in_flight_frame (session (sys_world s')) = in_flight_frame (session (sys_world s)).
Proof.
  induction sched as [| l sched IH]; intros s s' Hacc Hl Hrun.
  - injection Hrun as <-. reflexivity.
  - cbn [forallb] in Hl. apply andb_true_iff in Hl as (Hl & Hrest).
    apply negb_true_iff in Hl.
    cbn [run] in Hrun. apply bind_ok in Hrun as (s1 & Hstep & Hrun).
    pose proof (step_moves l s s1 (accounted_grab_ready s Hacc) Hstep) as Hm.
    apply moves_flight in Hm; [| exact Hl]. unfold holdings_of in Hm.
    apply in_flight_frames_inj in Hm.
    rewrite (IH s1 s' (step_accounted l s s1 Hacc Hstep) Hrest Hrun). exact Hm.
Qed.

End Held.

(** X12.  The frame grab returned stays the caller's until the next grab.
    From any state the two threads can reach in which a frame is in flight,
    whatever the service and the handler do next (buffers delivered,
    formats negotiated, frames acquired, converted and pushed), as long as
    grab is not called again: the in-flight slot still holds that frame, the
    frame has not been freed, and no frame of the pool, of the queue or in
    the hands of the handler is that frame. *)
Theorem in_flight_frame_is_left_alone {CI : codec_info} (s s' : system)
    (sched : list label) (f : video_frame) :
  reachable s ->
  in_flight_frame (session (sys_world s)) = Some f ->
  forallb (fun l => negb (grab_label l)) sched = true ->
  run sched s = Ok s' ->
  in_flight_frame (session (sys_world s')) = Some f
  /\ ~ In (frame_id f) (freed_ids (trace (sys_world s')))
  /\ ~ In (frame_id f)
         (map frame_id (blank_frames (session (sys_world s'))
                        ++ sending_frames (session (sys_world s'))
                        ++ handler_frames (handler s'))).
Proof.
  intros Hr Hf Hl Hrun.
  pose proof (reachable_accounted s Hr) as Hacc.
  pose proof (run_keeps_flight sched s s' Hacc Hl Hrun) as Hkeep.
  rewrite Hf in Hkeep. split; [exact Hkeep |].
  pose proof (run_accounted sched s s' Hacc Hrun) as Hacc'.
  unfold holdings_of, accounted in Hacc'. destruct Hacc' as (Hcount & _).
  unfold in_flight_frames in Hcount. rewrite Hkeep in Hcount.
  specialize (Hcount (frame_id f)).
  rewrite !map_app, !count_occ_app in Hcount. cbn [map count_occ] in Hcount.
  destruct (Nat.eq_dec (frame_id f) (frame_id f)) as [_ | Hne]; [| contradiction].
  assert (Hle : ((if (frame_id f <? next_frame_id (sys_world s'))%nat then 1 else 0)
                 <= 1)%nat) by (destruct (_ <? _)%nat; lia).
  split.
  - apply (count_occ_not_In Nat.eq_dec). lia.
  - rewrite !map_app. intros Hin. apply in_app_or in Hin as [Hin | Hin];
      [| apply in_app_or in Hin as [Hin | Hin]];
      apply (count_occ_In Nat.eq_dec) in Hin; lia.
Qed.

Lemma in_flight_frame_is_left_alone_witness :
  in_flight_frame (session (sys_world ExPw.after_more)) = Some ExPw.held_frame
  /\ ~ In (frame_id ExPw.held_frame) (freed_ids (trace (sys_world ExPw.after_more)))
  /\ ~ In (frame_id ExPw.held_frame)
         (map frame_id (blank_frames (session (sys_world ExPw.after_more))
                        ++ sending_frames (session (sys_world ExPw.after_more))
                        ++ handler_frames (handler ExPw.after_more))).
Proof.
  apply (@in_flight_frame_is_left_alone Ex.four_bytes ExPw.after_grab ExPw.after_more
           ExPw.more_deliveries ExPw.held_frame).
  - apply (@reachable_from_init Ex.four_bytes ExPw.grabbed_once).
    vm_compute. reflexivity.
  - vm_compute. reflexivity.
  - reflexivity.
  - vm_compute. reflexivity.
Defined.

(** ** The end of a session *)

Lemma allocated_ids_app (a b : list event) :
  allocated_ids (a ++ b) = allocated_ids a ++ allocated_ids b.
Proof. apply flat_map_app. Qed.

Section Ended.
Context {CI : codec_info}.

Lemma param_changed_connection (w : world) (id : Z) (param : option spa_pod) :
  same_connection (pw (session w)) (pw (session (on_stream_param_changed w id param))).
Proof.
  unfold on_stream_param_changed, same_connection.
  destruct param as [pod |]; [| auto].
  destruct (negb (id =? SPA_PARAM_Format)); [auto |].
  cbn [media_type media_subtype].
  destruct (negb (pod_media_type pod =? SPA_MEDIA_TYPE_video)
            || negb (pod_media_subtype pod =? SPA_MEDIA_SUBTYPE_raw)); cbn; auto.
Qed.

(** Every allocation is in the trace, and no step touches the connection. *)
Lemma step_logged (l : label) (s s' : system) (p : pw_) :
  grab_ready s ->
  step l s = Ok s' ->
  allocated_ids (trace (sys_world s)) = seq 0 (next_frame_id (sys_world s))
  /\ same_connection p (pw (session (sys_world s))) ->
  allocated_ids (trace (sys_world s')) = seq 0 (next_frame_id (sys_world s'))
  /\ same_connection p (pw (session (sys_world s'))).
Proof.
  intros Hready Hstep (Hlog & Hconn). destruct l; cbn [step] in Hstep.
  - injection Hstep as <-. split; assumption.
  - destruct (handler s); try discriminate. injection Hstep as <-.
    destruct (param_changed_spec (sys_world s) id param)
      as (_ & _ & _ & Hnx & _ & _ & Hal & _).
    cbn [sys_world]. rewrite Hal, Hnx. split; [exact Hlog |].
    destruct (param_changed_connection (sys_world s) id param) as (H1 & H2 & H3 & H4 & H5).
    destruct Hconn as (C1 & C2 & C3 & C4 & C5).
    unfold same_connection. repeat split; congruence.
  - destruct (handler s); try discriminate.
    destruct (pushing_back s && comes_to_pool (sys_world s)); [discriminate |].
    apply bind_ok in Hstep as ([a w1] & Hacq & Hstep). injection Hstep as <-.
    apply acquire_spec in Hacq. cbn [fst snd sys_world].
    destruct (stream_ready (sys_world s)) as [| b rest].
    + destruct Hacq as (_ & ->). split; assumption.
    + destruct Hacq as (_ & Hnx & [(_ & Hs & Ht) | (sb & f & _ & _ & _ & Hs & Ht)]);
        rewrite Hnx, Ht, allocated_ids_app, Hs; cbn; rewrite app_nil_r; split; auto.
  - destruct (handler s) as [| b sb f |]; try discriminate.
    apply bind_ok in Hstep as ([f1 w1] & Hfill & Hstep). injection Hstep as <-.
    apply fill_spec in Hfill as (Hs & _ & Hfill). cbn [fst snd sys_world].
    rewrite Hs. cbn [pw set_desc].
    destruct Hfill as [(_ & _ & _ & Hnx & Ht) | (_ & _ & _ & Hnx & Ht)];
      rewrite Hnx, Ht; [split; assumption |].
    rewrite allocated_ids_app, Hlog, seq_S. split; [reflexivity | assumption].
  - destruct (handler s) as [| | b f]; try discriminate.
    apply bind_ok in Hstep as (w1 & Hpush & Hstep). injection Hstep as <-.
    apply push_spec in Hpush as (_ & Hs & _ & Hnx & Ht). cbn [sys_world].
    rewrite Hs, Hnx, Ht, allocated_ids_app. cbn. rewrite app_nil_r. split; auto.
  - destruct (grabber s); try discriminate. injection Hstep as <-.
    split; assumption.
  - destruct (grabber s); try discriminate. injection Hstep as <-.
    destruct (grab_return_spec (sys_world s)) as (_ & _ & _ & _ & _ & Hpw & Hnx & _ & Ht).
    cbn [sys_world]. rewrite Hpw, Hnx, Ht. split; auto.
  - destruct (grabber s) eqn:Hg; try discriminate. injection Hstep as <-.
    pose proof (grab_pop_spec (sys_world s) (Hready Hg)) as Hpop. cbv zeta in Hpop.
    destruct Hpop as (_ & _ & _ & _ & Hpw & Hnx & _ & Ht & _).
    cbn [sys_world]. rewrite Hpw, Hnx, Ht, allocated_ids_app. cbn.
    rewrite app_nil_r. split; auto.
Qed.

Lemma run_logged (sched : list label) (p : pw_) : forall (s s' : system),
  accounted (holdings_of s) ->
  run sched s = Ok s' ->
  allocated_ids (trace (sys_world s)) = seq 0 (next_frame_id (sys_world s))
  /\ same_connection p (pw (session (sys_world s))) ->
  allocated_ids (trace (sys_world s')) = seq 0 (next_frame_id (sys_world s'))
  /\ same_connection p (pw (session (sys_world s'))).
Proof.
  induction sched as [| l sched IH]; intros s s' Hacc Hrun Hlog.
  - injection Hrun as <-. exact Hlog.
  - cbn [run] in Hrun. apply bind_ok in Hrun as (s1 & Hstep & Hrun).
    apply (IH s1 s' (step_accounted l s s1 Hacc Hstep) Hrun).
    apply (step_logged l s s1 p (accounted_grab_ready s Hacc) Hstep Hlog).
Qed.

End Ended.

(** What a successful init leaves: three allocations, and the handles of
    the loop, the context and the stream. *)
Lemma started_logged (fmt : option string) (portal_fd portal_node : Z) (s : system) :
  started fmt portal_fd portal_node = Some s ->
  allocated_ids (trace (sys_world s)) = seq 0 (next_frame_id (sys_world s))
  /\ same_connection {| fd := portal_fd; node := portal_node; loop := Some 0%nat;
                        context := Some 1%nat; stream := Some 2%nat;
                        format := zero_video_info |}
       (pw (session (sys_world s)))
  /\ portal_fd <> -1.
Proof.
  unfold started, vidcap_screen_pw_init.
  destruct (parse_params fmt new_screen_cast_session) as [[st sess] logs].
  change (Z.to_nat QUEUE_SIZE) with 3%nat.
  destruct st; cbn; try discriminate.
  destruct (Z.eqb_spec portal_fd (-1)) as [| Hfd]; cbn; [discriminate |].
  intros H. injection H as <-. cbn. unfold same_connection. cbn. auto 10.
Qed.

(** X13.  done releases everything, the service first.  For a session in any
    state the two threads can reach without a data race (no [push_back] of
    grab overlapped by the handler in the pool), the handler not being in
    the middle of a buffer: done stops the loop, then destroys the stream,
    the context and the loop, then closes the descriptor of the portal if it
    is above 0, and only after these calls frees the frames.  It frees every
    frame that is still held, so that over the life of the session every
    frame that was allocated is freed, and none is freed twice. *)
Theorem done_frees_every_frame {CI : codec_info} (s : system) :
  reachable s ->
  handler s = Idle ->
  let w := sys_world s in
  let t := vidcap_screen_pw_done (session w) in
  Permutation (freed_ids (trace w) ++ teardown_frees t) (allocated_ids (trace w))
  /\ NoDup (freed_ids (trace w) ++ teardown_frees t)
  /\ teardown_calls t
     = [Call_pw_thread_loop_stop; Call_pw_stream_destroy; Call_pw_context_destroy;
        Call_pw_thread_loop_destroy]
       ++ (if fd (pw (session w)) >? 0 then [Call_close (fd (pw (session w)))] else [])
  /\ exists frees,
       t = map Torn (teardown_calls t) ++ Portal_destroyed :: map Freed frees.
Proof.
  intros Hr Hidle w t.
  pose proof (reachable_accounted s Hr) as Hacc.
  destruct Hr as (fmt & pfd & pnode & s0 & sched & Hstart & Hrun).
  destruct (started_logged fmt pfd pnode s0 Hstart) as (Hlog0 & Hconn0 & _).
  destruct (started_accounted fmt pfd pnode s0 Hstart) as (Hacc0 & _).
  destruct (run_logged sched _ s0 s Hacc0 Hrun (conj Hlog0 Hconn0)) as (Hlog & Hconn).
  fold w in Hlog, Hconn.
  destruct Hconn as (_ & _ & Hloop & Hctx & Hstream). cbn in Hloop, Hctx, Hstream.
  assert (Hfrees : teardown_frees t
                   = map frame_id (sending_frames (session w))
                     ++ map frame_id (blank_frames (session w))
                     ++ map frame_id (in_flight_frames (session w))).
  { unfold t, vidcap_screen_pw_done, teardown_frees.
    rewrite !flat_map_app.
    assert (Hno : forall l, flat_map (fun e => match e with Freed id => [id] | _ => [] end)
                              (map Torn l) = []).
    { intros l. induction l as [| a l IH]; [reflexivity | exact IH]. }
    assert (Hall : forall l : list video_frame,
              flat_map (fun e => match e with Freed id => [id] | _ => [] end)
                (map (fun f => Freed (frame_id f)) l) = map frame_id l).
    { intros l. induction l as [| a l IH]; [reflexivity |]. cbn. now rewrite IH. }
    rewrite Hno, !Hall. reflexivity. }
  assert (Hcalls : teardown_calls t = pw_destructor (pw (session w))).
  { unfold t, vidcap_screen_pw_done, teardown_calls.
    rewrite !flat_map_app.
    assert (Hall : forall l, flat_map (fun e => match e with Torn c => [c] | _ => [] end)
                               (map Torn l) = l).
    { intros l. induction l as [| a l IH]; [reflexivity |]. cbn. now rewrite IH. }
    assert (Hno : forall l : list video_frame,
              flat_map (fun e => match e with Torn c => [c] | _ => [] end)
                (map (fun f => Freed (frame_id f)) l) = []).
    { intros l. induction l as [| a l IH]; [reflexivity | exact IH]. }
    rewrite Hall, !Hno. cbn. now rewrite app_nil_r. }
  assert (Hcount : forall id,
            count_occ Nat.eq_dec (freed_ids (trace w) ++ teardown_frees t) id
            = count_occ Nat.eq_dec (allocated_ids (trace w)) id).
  { intros id. unfold holdings_of, accounted in Hacc. destruct Hacc as (Hcount & _).
    specialize (Hcount id). rewrite Hidle in Hcount. cbn [handler_frames] in Hcount.
    fold w in Hcount. rewrite Hfrees, Hlog.
    rewrite !map_app, !count_occ_app in *. cbn [map count_occ] in Hcount.
    assert (Hseq : count_occ Nat.eq_dec (seq 0 (next_frame_id w)) id
                   = if (id <? next_frame_id w)%nat then 1%nat else 0%nat).
    { destruct (Nat.ltb_spec id (next_frame_id w)) as [Hlt | Hge].
      - apply (proj1 (NoDup_count_occ' Nat.eq_dec _) (seq_NoDup _ _)).
        apply in_seq. lia.
      - apply count_occ_not_In. rewrite in_seq. lia. }
    rewrite Hseq. lia. }
  split; [apply (Permutation_count_occ Nat.eq_dec); exact Hcount |].
  split.
  - apply (NoDup_count_occ Nat.eq_dec). intros id. rewrite Hcount, Hlog.
    apply (proj1 (NoDup_count_occ Nat.eq_dec _) (seq_NoDup _ _)).
  - split.
    + rewrite Hcalls. unfold pw_destructor. rewrite Hloop, Hctx, Hstream. reflexivity.
    + exists (map frame_id (sending_frames (session w))
              ++ map frame_id (blank_frames (session w))
              ++ map frame_id (in_flight_frames (session w))).
      rewrite Hcalls. unfold t, vidcap_screen_pw_done.
      rewrite !map_app, !map_map. reflexivity.
Qed.

Lemma done_frees_every_frame_witness :
  let w := sys_world ExPw.captured in
  let t := vidcap_screen_pw_done (session w) in
  Permutation (freed_ids (trace w) ++ teardown_frees t) (allocated_ids (trace w))
  /\ NoDup (freed_ids (trace w) ++ teardown_frees t)
  /\ teardown_calls t
     = [Call_pw_thread_loop_stop; Call_pw_stream_destroy; Call_pw_context_destroy;
        Call_pw_thread_loop_destroy]
       ++ (if fd (pw (session w)) >? 0 then [Call_close (fd (pw (session w)))] else [])
  /\ exists frees,
       t = map Torn (teardown_calls t) ++ Portal_destroyed :: map Freed frees.
Proof.
  apply (@done_frees_every_frame Ex.four_bytes ExPw.captured).
  - apply (@reachable_from_init Ex.four_bytes Ex.capture). vm_compute. reflexivity.
  - vm_compute. reflexivity.
Defined.

(** ** The options, one by one *)

Section OptionItems.
Local Open Scope string_scope.

Lemma find_colon_uint (d : Decimal.uint) :
  Str.find (DecimalString.NilEmpty.string_of_uint d) ":"%char = None.
Proof.
  induction d; cbn [DecimalString.NilEmpty.string_of_uint Str.find];
    try reflexivity;
    match goal with
    | |- context [Ascii.eqb ?a ?b] =>
        let v := eval vm_compute in (Ascii.eqb a b) in
        change (Ascii.eqb a b) with v
    end; cbv iota; now rewrite IHd.
Qed.

Lemma find_colon_decimal (n : Z) : 0 <= n -> Str.find (decimal n) ":"%char = None.
Proof.
  intros Hn. destruct (decimal_nonneg n Hn) as (-> & _). apply find_colon_uint.
Qed.

(** Reading the decimal text of a rate gives the rate. *)
Lemma extract_decimal (n old : Z) :
  0 <= n <= UINT32_MAX -> Str.extract_uint32 (decimal n) old = (true, n).
Proof.
  intros Hn. unfold Str.extract_uint32.
  destruct (decimal_head n ltac:(lia)) as (c & s & Hdec & Hdigit & _).
  destruct (digits_decimal n "" ltac:(lia) I) as (k & Hk).
  rewrite append_nil in Hk. rewrite Hdec in *.
  destruct (digit_char c Hdigit) as (Hsp & Hm & Hp & _).
  cbn [Str.skipws]. rewrite Hsp, Hm, Hp, Hk. cbn [Nat.eqb].
  destruct (Z.ltb_spec UINT32_MAX n); [lia | reflexivity].
Qed.

Lemma parse_param_item (i : option_item) (o : user_options_t) :
  option_writable i ->
  parse_param (option_text i) o = Continue (option_effect o i)
  /\ Str.find (option_text i) ":"%char = None.
Proof.
  destruct i as [| | capitals n | path]; cbn [option_writable option_text option_effect];
    intros Hi.
  - split; reflexivity.
  - split; reflexivity.
  - split.
    + destruct capitals; unfold parse_param; cbn [String.append];
        (replace (String.eqb _ "help") with false by reflexivity);
        (replace (String.eqb _ "cursor") with false by reflexivity);
        (replace (String.eqb _ "nocrop") with false by reflexivity);
        cbn [Str.find Ascii.eqb Bool.eqb Nat.eqb Str.substr_to Str.substr_from
             String.eqb orb];
        rewrite extract_decimal by exact Hi; reflexivity.
    + destruct capitals; cbn [String.append Str.find Ascii.eqb Bool.eqb];
        rewrite find_colon_decimal by lia; reflexivity.
  - split; [reflexivity |].
    cbn [String.append Str.find Ascii.eqb Bool.eqb]. now rewrite Hi.
Qed.

Lemma apply_option_items (items : list option_item) : forall o,
  Forall option_writable items ->
  apply_options (map option_text items) o = Some (fold_left option_effect items o)
  /\ Forall (fun p => Str.find p ":"%char = None) (map option_text items).
Proof.
  induction items as [| i items IH]; intros o Hw; [split; [reflexivity | constructor] |].
  inversion Hw as [| ? ? Hi Hrest]; subst.
  destruct (parse_param_item i o Hi) as (Hp & Hc).
  destruct (IH (option_effect o i) Hrest) as (Happ & Hnc).
  cbn [map apply_options fold_left]. rewrite Hp. split; [exact Happ |].
  constructor; assumption.
Qed.

Lemma parse_param_return (p : string) (o : user_options_t)
    (status : vidcap_init_status) (entry : log_entry) :
  parse_param p o = Return status entry -> status <> VIDCAP_INIT_OK.
Proof.
  unfold parse_param.
  destruct (String.eqb p "help"); [intros H; injection H as <- _; discriminate |].
  destruct (String.eqb p "cursor"); [discriminate |].
  destruct (String.eqb p "nocrop"); [discriminate |].
  destruct (Str.find p "="%char) as [i |];
    [destruct (Nat.eqb i 0);
     [| destruct (String.eqb _ "fps" || String.eqb _ "FPS"); [discriminate |];
        destruct (String.eqb _ "restore"); [discriminate |]] |];
    intros H; injection H as <- _; discriminate.
Qed.

(** The loop returns at the first option that returns, whatever follows
    it. *)
Lemma parse_params_loop_return (bad tail : string) (status : vidcap_init_status)
    (entry : log_entry) (ps : list string) :
  bad <> "" ->
  Str.find bad ":"%char = None ->
  tail = "" \/ (exists r, tail = String ":" r) ->
  forall (o o' : user_options_t) (fuel : nat),
  Forall (fun p => Str.find p ":"%char = None) ps ->
  apply_options ps o = Some o' ->
  parse_param bad o' = Return status entry ->
  (String.length (String.concat ":" (ps ++ [bad]) ++ tail) <= fuel)%nat ->
  parse_params_loop fuel (String.concat ":" (ps ++ [bad]) ++ tail) o
  = (status, o', [entry]%list).
Proof.
  intros Hbad Hcolon Htail.
  destruct (getline_from_no_colon bad Hcolon) as (Hg1 & Hg2).
  assert (Hline : exists rest, Str.getline (bad ++ tail) ":"%char = Some (bad, rest)).
  { destruct bad as [| a bad']; [contradiction |].
    unfold Str.getline. cbn [String.append].
    destruct Htail as [-> | (r & ->)].
    - exists "". change (String a (bad' ++ "")) with (String a bad' ++ "").
      rewrite append_nil. f_equal. exact Hg1.
    - exists r. f_equal. apply (Hg2 r). }
  induction ps as [| p ps IH]; intros o o' fuel Hnc Happ Hret Hfuel.
  - cbn [apply_options] in Happ. injection Happ as <-.
    cbn [List.app String.concat] in *.
    destruct Hline as (rest & Hline).
    destruct fuel as [| fuel].
    + destruct bad; [contradiction | cbn in Hfuel; lia].
    + cbn [parse_params_loop]. now rewrite Hline, Hret.
  - inversion Hnc as [| ? ? Hp Hrest]; subst.
    cbn [apply_options] in Happ.
    destruct (parse_param p o) as [o1 |] eqn:Hpp; [| discriminate].
    assert (Hne : p <> "") by (intros ->; discriminate).
    destruct (getline_from_no_colon p Hp) as (_ & Hp2).
    assert (Hcat : String.concat ":" ((p :: ps) ++ [bad]) ++ tail
                   = p ++ String ":" (String.concat ":" (ps ++ [bad]) ++ tail)).
    { cbn [List.app]. destruct (ps ++ [bad])%list as [| q qs] eqn:Hq.
      - destruct ps; discriminate.
      - change (String.concat ":" (p :: q :: qs))
          with (p ++ String ":" (String.concat ":" (q :: qs))).
        now rewrite append_assoc. }
    rewrite Hcat in *. rewrite length_append in Hfuel. cbn [String.length] in Hfuel.
    destruct fuel as [| fuel]; [lia |].
    cbn [parse_params_loop].
    assert (Hgl : Str.getline (p ++ String ":" (String.concat ":" (ps ++ [bad]) ++ tail))
                    ":"%char
                  = Some (p, String.concat ":" (ps ++ [bad]) ++ tail)).
    { destruct p as [| a p']; [contradiction |].
      unfold Str.getline. cbn [String.append]. f_equal. apply (Hp2 _). }
    rewrite Hgl, Hpp. apply IH; [exact Hrest | exact Happ | exact Hret | lia].
Qed.

Lemma options_round_trip_loop (items : list option_item) (o : user_options_t) :
  Forall option_writable items ->
  parse_params_loop (String.length (String.concat ":" (map option_text items)))
    (String.concat ":" (map option_text items)) o
  = (VIDCAP_INIT_OK, fold_left option_effect items o, []%list).
Proof.
  intros Hw. destruct (apply_option_items items o Hw) as (Happ & Hnc).
  apply (parse_params_loop_concat _ _ _ _ Hnc Happ (le_n _)).
Qed.

End OptionItems.

Section BadRate.
Local Open Scope string_scope.

Lemma fold_left_no_fps (items : list option_item) : forall o,
  forallb (fun i => negb (sets_fps i)) items = true ->
  fps (fold_left option_effect items o) = fps o.
Proof.
  induction items as [| i items IH]; intros o H; [reflexivity |].
  cbn [forallb] in H. apply andb_true_iff in H as (Hi & Hrest).
  cbn [fold_left]. rewrite (IH _ Hrest). destruct i; try reflexivity; discriminate.
Qed.

(** C10, amended.  Take an options string of valid options with an option
    fps=<v> or FPS=<v> whose <v> does not read as a number.  Then init does
    not fail and reports nothing, and the extraction stores 0, unless <v> is
    blank: then it stores nothing and the option keeps the value the options
    before it gave.  The options after it are read as usual, and the rate
    advertised is the fps option when that is above 0, and the default of 30
    otherwise.  So the option is 0 and the rate advertised 30 when no later
    option sets a rate and either <v> is not blank or no earlier option sets
    one. *)
Theorem bad_fps_value_is_ignored (pre post : list option_item) (capitals : bool)
    (v : string) (portal_fd portal_node connect_res : Z) :
  Str.parses_as_number v = false ->
  Str.find v ":"%char = None ->
  Forall option_writable (pre ++ post) ->
  portal_fd <> -1 ->
  let before := fold_left option_effect pre default_user_options in
  let stored := if blank v then fps before else 0 in
  let o := fold_left option_effect post (set_fps stored before) in
  exists w p,
    vidcap_screen_pw_init false
      (Some (String.concat ":"
               (map option_text pre
                ++ [String.append (if capitals then "FPS=" else "fps=") v]
                ++ map option_text post)))
      portal_fd portal_node connect_res
    = {| init_status := VIDCAP_INIT_OK; init_state := Some w;
         init_logs := []; init_advertised := Some p |}
    /\ user_options (session w) = o
    /\ ef_framerate_def p
       = SPA_FRACTION (if fps o >? 0 then fps o else DEFAULT_EXPECTING_FPS) 1
    /\ (forallb (fun i => negb (sets_fps i)) post = true ->
        blank v = false \/ forallb (fun i => negb (sets_fps i)) pre = true ->
        fps (user_options (session w)) = 0
        /\ ef_framerate_def p = SPA_FRACTION DEFAULT_EXPECTING_FPS 1).
Proof.
  intros Hv Hcolon Hothers Hfd before stored o.
  apply Forall_app in Hothers as (Hpre & Hpost).
  destruct (apply_option_items pre default_user_options Hpre) as (H1 & Hnc1).
  fold before in H1.
  destruct (apply_option_items post (set_fps stored before) Hpost) as (H2 & Hnc2).
  fold o in H2.
  assert (Happ : apply_options
                   (map option_text pre
                    ++ [String.append (if capitals then "FPS=" else "fps=") v]
                    ++ map option_text post)
                   default_user_options = Some o).
  { rewrite apply_options_app, H1. cbn [List.app apply_options].
    rewrite parse_param_fps, (extract_not_a_number v (fps before) Hv). exact H2. }
  assert (Hnc : Forall (fun p => Str.find p ":"%char = None)
                  (map option_text pre
                   ++ [String.append (if capitals then "FPS=" else "fps=") v]
                   ++ map option_text post)).
  { apply Forall_app. split; [exact Hnc1 |]. constructor; [| exact Hnc2].
    destruct capitals; cbn; now rewrite Hcolon. }
  pose proof (parse_params_loop_concat _ default_user_options o _ Hnc Happ (le_n _))
    as Hloop.
  unfold vidcap_screen_pw_init, parse_params.
  change (Z.to_nat QUEUE_SIZE) with 3%nat.
  cbn [user_options new_screen_cast_session]. rewrite Hloop.
  destruct (Z.eqb_spec portal_fd (-1)) as [Heq | _]; [contradiction |].
  cbn [start_pipewire]. eexists. eexists. split; [reflexivity |].
  split; [reflexivity |]. split; [reflexivity |].
  intros Hlater Hbad.
  assert (Hfps : fps o = 0).
  { unfold o. rewrite (fold_left_no_fps post _ Hlater). cbn [fps set_fps].
    unfold stored. destruct (blank v); [| reflexivity].
    destruct Hbad as [Hbad | Hbad]; [discriminate |].
    unfold before. now rewrite (fold_left_no_fps pre _ Hbad). }
  cbn. unfold framerate_def. cbn. rewrite Hfps. split; reflexivity.
Qed.

Lemma bad_fps_value_is_ignored_witness :
  let before := fold_left option_effect [Opt_cursor; Opt_fps false 25]
                  default_user_options in
  let stored := if blank "abc" then fps before else 0 in
  let o := fold_left option_effect [Opt_restore "token"] (set_fps stored before) in
  exists w p,
    vidcap_screen_pw_init false
      (Some (String.concat ":"
               (map option_text [Opt_cursor; Opt_fps false 25]
                ++ [String.append (if false then "FPS=" else "fps=") "abc"]
                ++ map option_text [Opt_restore "token"])))
      5 6 0
    = {| init_status := VIDCAP_INIT_OK; init_state := Some w;
         init_logs := []; init_advertised := Some p |}
    /\ user_options (session w) = o
    /\ ef_framerate_def p
       = SPA_FRACTION (if fps o >? 0 then fps o else DEFAULT_EXPECTING_FPS) 1
    /\ (forallb (fun i => negb (sets_fps i)) [Opt_restore "token"] = true ->
        blank "abc" = false
        \/ forallb (fun i => negb (sets_fps i)) [Opt_cursor; Opt_fps false 25] = true ->
        fps (user_options (session w)) = 0
        /\ ef_framerate_def p = SPA_FRACTION DEFAULT_EXPECTING_FPS 1).
Proof.
  apply (bad_fps_value_is_ignored [Opt_cursor; Opt_fps false 25] [Opt_restore "token"]
           false "abc" 5 6 0).
  - reflexivity.
  - reflexivity.
  - repeat constructor; cbn; unfold UINT32_MAX; lia.
  - discriminate.
Defined.

(** An earlier rate and then an empty value: the value does not read as a
    number, init succeeds, and the option is still 25, which is the rate
    advertised. *)
Lemma empty_fps_value_keeps_the_rate :
  Str.parses_as_number "" = false
  /\ exists w p,
       vidcap_screen_pw_init false (Some "fps=25:fps=") 5 6 0
       = {| init_status := VIDCAP_INIT_OK; init_state := Some w;
            init_logs := []; init_advertised := Some p |}
       /\ fps (user_options (session w)) = 25
       /\ ef_framerate_def p = SPA_FRACTION 25 1.
Proof.
  split; [reflexivity |]. eexists. eexists. split; [reflexivity |].
  split; reflexivity.
Qed.

(** A value that is not a number after an earlier rate stores 0. *)
Example fps_not_a_number_after_number :
  fps (user_options (snd (fst (parse_params (Some "fps=25:fps=abc")
                                            new_screen_cast_session)))) = 0.
Proof. vm_compute. reflexivity. Qed.

End BadRate.

(** X14.  The options, read back.  For a list of valid options (cursor,
    nocrop, fps=<n> or FPS=<n> with n a number a uint32_t holds, written in
    decimal, restore=<path> with a path that has no colon) joined by colons,
    [parse_params] returns VIDCAP_INIT_OK, logs nothing and leaves the
    options every item asks for, the later item winning when two set the
    same option; the empty text leaves the options as they are. *)
Theorem options_round_trip (items : list option_item) (s : screen_cast_session) :
  Forall option_writable items ->
  parse_params (Some (String.concat ":" (map option_text items))) s
  = (VIDCAP_INIT_OK,
     set_user_options (fold_left option_effect items (user_options s)) s, []).
Proof.
  intros Hw. unfold parse_params.
  now rewrite (options_round_trip_loop items (user_options s) Hw).
Qed.

Lemma options_round_trip_witness :
  parse_params
    (Some (String.concat ":"
             (map option_text
                [Opt_fps false 25; Opt_cursor; Opt_restore "a=b"; Opt_fps true 60;
                 Opt_nocrop])))
    new_screen_cast_session
  = (VIDCAP_INIT_OK,
     set_user_options
       (fold_left option_effect
          [Opt_fps false 25; Opt_cursor; Opt_restore "a=b"; Opt_fps true 60; Opt_nocrop]
          (user_options new_screen_cast_session))
       new_screen_cast_session, []).
Proof.
  apply (options_round_trip
           [Opt_fps false 25; Opt_cursor; Opt_restore "a=b"; Opt_fps true 60; Opt_nocrop]
           new_screen_cast_session).
  repeat constructor; cbn; unfold UINT32_MAX; lia.
Defined.

(** X15.  The rate asked for is the rate advertised.  For valid options and a
    portal that gives a descriptor, init returns VIDCAP_INIT_OK whatever
    [pw_stream_connect] returns, with the options the items ask for; the
    preferred frame rate of the format it connects with is the fps option
    when that is above 0 and 30 otherwise, over 1, between the bounds 0 and
    600 it always advertises: a rate above 600 is advertised as it is. *)
Theorem fps_option_is_advertised (items : list option_item)
    (portal_fd portal_node connect_res : Z) :
  Forall option_writable items ->
  portal_fd <> -1 ->
  let o := fold_left option_effect items default_user_options in
  exists w p,
    vidcap_screen_pw_init false (Some (String.concat ":" (map option_text items)))
      portal_fd portal_node connect_res
    = {| init_status := VIDCAP_INIT_OK; init_state := Some w;
         init_logs := []; init_advertised := Some p |}
    /\ user_options (session w) = o
    /\ ef_framerate_def p = SPA_FRACTION (if fps o >? 0 then fps o
                                         else DEFAULT_EXPECTING_FPS) 1
    /\ ef_framerate_min p = SPA_FRACTION 0 1
    /\ ef_framerate_max p = SPA_FRACTION 600 1.
Proof.
  intros Hw Hfd o.
  pose proof (options_round_trip_loop items default_user_options Hw) as Hloop.
  unfold vidcap_screen_pw_init, parse_params.
  change (Z.to_nat QUEUE_SIZE) with 3%nat.
  cbn [user_options new_screen_cast_session]. rewrite Hloop. fold o.
  destruct (Z.eqb_spec portal_fd (-1)) as [Heq | _]; [contradiction |].
  cbn [start_pipewire]. eexists. eexists. split; [reflexivity |].
  cbn. auto.
Qed.

Lemma fps_option_is_advertised_witness :
  let o := fold_left option_effect [Opt_cursor; Opt_fps false 1000] default_user_options in
  exists w p,
    vidcap_screen_pw_init false
      (Some (String.concat ":" (map option_text [Opt_cursor; Opt_fps false 1000])))
      5 6 (-1)
    = {| init_status := VIDCAP_INIT_OK; init_state := Some w;
         init_logs := []; init_advertised := Some p |}
    /\ user_options (session w) = o
    /\ ef_framerate_def p = SPA_FRACTION (if fps o >? 0 then fps o
                                         else DEFAULT_EXPECTING_FPS) 1
    /\ ef_framerate_min p = SPA_FRACTION 0 1
    /\ ef_framerate_max p = SPA_FRACTION 600 1.
Proof.
  apply (fps_option_is_advertised [Opt_cursor; Opt_fps false 1000] 5 6 (-1)).
  - repeat constructor; cbn; unfold UINT32_MAX; lia.
  - discriminate.
Defined.

(** X16.  init ends at the first option that returns.  After any valid
    options, an option that makes [parse_params] return (help, or an option
    that is not valid), alone at the end or followed by a colon and any
    text: init returns the status of that option (VIDCAP_INIT_NOERR for
    help, VIDCAP_INIT_FAIL otherwise, never VIDCAP_INIT_OK) and logs that
    option alone; what follows is not read.  The session exists, with the
    options read so far, but no frame has been allocated and nothing of the
    service has been created or connected. *)
Theorem init_ends_at_first_return (items : list option_item) (bad tail : string)
    (status : vidcap_init_status) (entry : log_entry)
    (portal_fd portal_node connect_res : Z) :
  Forall option_writable items ->
  bad <> EmptyString ->
  Str.find bad ":"%char = None ->
  tail = EmptyString \/ (exists r, tail = String ":" r) ->
  parse_param bad (fold_left option_effect items default_user_options)
  = Return status entry ->
  exists w,
    vidcap_screen_pw_init false
      (Some (String.append (String.concat ":" (map option_text items ++ [bad])) tail))
      portal_fd portal_node connect_res
    = {| init_status := status; init_state := Some w;
         init_logs := [entry]; init_advertised := None |}
    /\ status <> VIDCAP_INIT_OK
    /\ user_options (session w) = fold_left option_effect items default_user_options
    /\ blank_frames (session w) = []
    /\ trace w = []
    /\ pw_destructor (pw (session w)) = [].
Proof.
  intros Hw Hbad Hcolon Htail Hret.
  destruct (apply_option_items items default_user_options Hw) as (Happ & Hnc).
  pose proof (parse_params_loop_return bad tail status entry (map option_text items)
                Hbad Hcolon Htail default_user_options _ _ Hnc Happ Hret (le_n _))
    as Hloop.
  pose proof (parse_param_return _ _ _ _ Hret) as Hstatus.
  unfold vidcap_screen_pw_init, parse_params.
  cbn [user_options new_screen_cast_session]. rewrite Hloop.
  exists (set_session
            (set_user_options (fold_left option_effect items default_user_options)
               new_screen_cast_session) new_world).
  split; [destruct status; try reflexivity; contradiction |].
  split; [exact Hstatus |]. repeat split.
Qed.

Lemma init_ends_at_first_return_witness :
  exists w,
    vidcap_screen_pw_init false
      (Some (String.append
               (String.concat ":" (map option_text [Opt_cursor] ++ ["fps"%string]))
               ":nocrop:help"))
      5 6 0
    = {| init_status := VIDCAP_INIT_FAIL; init_state := Some w;
         init_logs := [LogInvalidOption "fps"]; init_advertised := None |}
    /\ VIDCAP_INIT_FAIL <> VIDCAP_INIT_OK
    /\ user_options (session w) = fold_left option_effect [Opt_cursor] default_user_options
    /\ blank_frames (session w) = []
    /\ trace w = []
    /\ pw_destructor (pw (session w)) = [].
Proof.
  apply (init_ends_at_first_return [Opt_cursor] "fps"%string ":nocrop:help"%string
           VIDCAP_INIT_FAIL (LogInvalidOption "fps") 5 6 0).
  - repeat constructor.
  - discriminate.
  - reflexivity.
  - right. eexists. reflexivity.
  - reflexivity.
Defined.

(** ** Negotiation *)

Section Renegotiation.
Context {CI : codec_info}.

Lemma param_changed_twice (w : world) (id : Z) (param : option spa_pod) :
  let w1 := on_stream_param_changed w id param in
  let w2 := on_stream_param_changed w1 id param in
  session w2 = session w1
  /\ exists req, trace w1 = trace w ++ req /\ trace w2 = trace w1 ++ req
                 /\ (List.length req <= 1)%nat.
Proof.
  unfold on_stream_param_changed.
  destruct param as [pod |];
    [| cbn; split; [reflexivity | exists []; rewrite !app_nil_r; auto]].
  destruct (negb (id =? SPA_PARAM_Format));
    [cbn; split; [reflexivity | exists []; rewrite !app_nil_r; auto] |].
  cbn [media_type media_subtype].
  destruct (negb (pod_media_type pod =? SPA_MEDIA_TYPE_video)
            || negb (pod_media_subtype pod =? SPA_MEDIA_SUBTYPE_raw)).
  - cbn. split; [reflexivity | exists []; rewrite !app_nil_r; auto].
  - cbn. split; [reflexivity |]. eexists. split; [reflexivity |].
    split; [reflexivity | cbn; lia].
Qed.

End Renegotiation.

(** X17.  A format announced again changes nothing.  [on_stream_param_changed]
    called a second time with the same arguments leaves the session as the
    first call left it and asks the service for the same buffers again (at
    most one request per call).  No call touches the pool, the hand-off
    queue, the frame in flight, the options or the connection, and none
    allocates or frees a frame: frames of the old shape are replaced later,
    by the handler of the buffers. *)
Theorem renegotiation_changes_nothing {CI : codec_info}
    (w : world) (id : Z) (param : option spa_pod) :
  let w1 := on_stream_param_changed w id param in
  let w2 := on_stream_param_changed w1 id param in
  session w2 = session w1
  /\ (exists req, trace w1 = trace w ++ req /\ trace w2 = trace w1 ++ req
                  /\ (List.length req <= 1)%nat)
  /\ blank_frames (session w1) = blank_frames (session w)
  /\ sending_frames (session w1) = sending_frames (session w)
  /\ in_flight_frame (session w1) = in_flight_frame (session w)
  /\ user_options (session w1) = user_options (session w)
  /\ same_connection (pw (session w)) (pw (session w1))
  /\ allocated_ids (trace w1) = allocated_ids (trace w)
  /\ freed_ids (trace w1) = freed_ids (trace w).
Proof.
  intros w1 w2.
  destruct (param_changed_twice w id param) as (Hs & Hreq).
  destruct (param_changed_spec w id param)
    as (Hfl & Hbl & Hsn & _ & _ & Hfr & Hal & _ & _).
  split; [exact Hs |]. split; [exact Hreq |].
  split; [exact Hbl |]. split; [exact Hsn |]. split; [exact Hfl |].
  split; [| split; [apply param_changed_connection | split; [exact Hal | exact Hfr]]].
  unfold w1, on_stream_param_changed.
  destruct param as [pod |]; [| reflexivity].
  destruct (negb (id =? SPA_PARAM_Format)); [reflexivity |].
  cbn [media_type media_subtype].
  destruct (negb (pod_media_type pod =? SPA_MEDIA_TYPE_video)
            || negb (pod_media_subtype pod =? SPA_MEDIA_SUBTYPE_raw)); reflexivity.
Qed.

(** X18.  What a negotiated format asks for.  For a pod of a raw video format
    the description takes the size of the pod, is progressive with one
    tile, and its rate is the frame rate of the pod, numerator by
    denominator in the division of [double], the maximal frame rate when
    that one has numerator 0, and 60 when both have; no denominator is
    tested, and a denominator of 0 gives an infinite rate.  The service is
    asked for 2 buffers (2 to 10) of one block, of the stride of a line and
    of the size of a line times the height as a 32-bit signed number, with
    the crop metadata exactly when the crop option is on.  When that product
    is below 2^31 the size is the length of the pixel buffer of a frame
    allocated for the description; at 2^31 or above the size asked for is
    negative. *)
Theorem negotiated_request {CI : codec_info} (w : world) (pod : spa_pod) :
  pod_media_type pod = SPA_MEDIA_TYPE_video ->
  pod_media_subtype pod = SPA_MEDIA_SUBTYPE_raw ->
  let w1 := on_stream_param_changed w SPA_PARAM_Format (Some pod) in
  let raw := pod_raw pod in
  let d := desc (session w1) in
  let linesize := vc_get_linesize (rect_width (info_size raw))
                    (uv_codec_from_pw_fmt (info_format raw)) in
  let len := tile_data_len (tiles0 (vf_alloc_desc_data 0 d)) in
  desc_width d = rect_width (info_size raw)
  /\ desc_height d = rect_height (info_size raw)
  /\ desc_color_spec d = uv_codec_from_pw_fmt (info_format raw)
  /\ desc_interlacing d = PROGRESSIVE
  /\ desc_tile_count d = 1
  /\ desc_fps d
     = (if num (info_framerate raw) =? 0
        then if num (info_max_framerate raw) =? 0 then double_of_uint32 60
             else fps_of_fraction (info_max_framerate raw)
        else fps_of_fraction (info_framerate raw))
  /\ info_raw (format (pw (session w1))) = raw
  /\ len = linesize * rect_height (info_size raw)
  /\ trace w1
     = trace w ++ [EvUpdateParams 2 2 10 1 (s32 len) linesize
                     (crop (user_options (session w)))]
  /\ (0 <= len < 2 ^ 31 -> s32 len = len)
  /\ (2 ^ 31 <= len < 2 ^ 32 -> s32 len < 0).
Proof.
  intros Hvideo Hraw w1 raw d linesize len.
  subst len d w1 linesize raw. unfold on_stream_param_changed.
  change (SPA_PARAM_Format =? SPA_PARAM_Format) with true.
  cbn [negb media_type media_subtype].
  rewrite Hvideo, Hraw, !Z.eqb_refl. cbn [negb orb].
  cbn [session set_session emit desc set_desc trace pw set_pw format set_format info_raw
       desc_width desc_height desc_color_spec desc_interlacing desc_tile_count desc_fps
       user_options vf_alloc_desc_data tiles0 tile_data_len].
  repeat (split; [reflexivity |]).
  split; [destruct (num (info_framerate (pod_raw pod)) =? 0),
                   (num (info_max_framerate (pod_raw pod)) =? 0); reflexivity |].
  repeat (split; [reflexivity |]).
  unfold s32. split; intros Hlen.
  - rewrite Z.mod_small; lia.
  - match goal with
    | |- (?x + 2 ^ 31) mod 2 ^ 32 - 2 ^ 31 < 0 =>
        replace (x + 2 ^ 31) with (x - 2 ^ 31 + 1 * 2 ^ 32) by lia
    end.
    rewrite Z.mod_add by lia. rewrite Z.mod_small; lia.
Qed.

Lemma negotiated_request_witness :
  let w := sys_world Ex.init in
  let pod := Ex.pod_rgba in
  let w1 := @on_stream_param_changed Ex.four_bytes w SPA_PARAM_Format (Some pod) in
  let raw := pod_raw pod in
  let d := desc (session w1) in
  let linesize := @vc_get_linesize Ex.four_bytes (rect_width (info_size raw))
                    (@uv_codec_from_pw_fmt Ex.four_bytes (info_format raw)) in
  let len := tile_data_len (tiles0 (@vf_alloc_desc_data Ex.four_bytes 0 d)) in
  desc_width d = rect_width (info_size raw)
  /\ desc_height d = rect_height (info_size raw)
  /\ desc_color_spec d = @uv_codec_from_pw_fmt Ex.four_bytes (info_format raw)
  /\ desc_interlacing d = PROGRESSIVE
  /\ desc_tile_count d = 1
  /\ desc_fps d
     = (if num (info_framerate raw) =? 0
        then if num (info_max_framerate raw) =? 0 then double_of_uint32 60
             else fps_of_fraction (info_max_framerate raw)
        else fps_of_fraction (info_framerate raw))
  /\ info_raw (format (pw (session w1))) = raw
  /\ len = linesize * rect_height (info_size raw)
  /\ trace w1
     = trace w ++ [EvUpdateParams 2 2 10 1 (s32 len) linesize
                     (crop (user_options (session w)))]
  /\ (0 <= len < 2 ^ 31 -> s32 len = len)
  /\ (2 ^ 31 <= len < 2 ^ 32 -> s32 len < 0).
Proof.
  apply (@negotiated_request Ex.four_bytes (sys_world Ex.init) Ex.pod_rgba);
    reflexivity.
Defined.

(** A frame rate of 30/0 is stored as infinity; 30000/1001 as the nearest
    [double], which is that of 60000/2002 as well. *)
Example rate_of_zero_denominator :
  fps_of_fraction (SPA_FRACTION 30 0) = PrimFloat.infinity
  /\ fps_of_fraction (SPA_FRACTION 30000 1001) = fps_of_fraction (SPA_FRACTION 60000 2002)
  /\ desc_fps (desc (session
                     (@on_stream_param_changed Ex.four_bytes (sys_world Ex.init)
                        SPA_PARAM_Format
                        (Some {| pod_media_type := SPA_MEDIA_TYPE_video;
                                 pod_media_subtype := SPA_MEDIA_SUBTYPE_raw;
                                 pod_raw := {| info_format := SPA_VIDEO_FORMAT_RGBA;
                                               info_size := Ex.image_size;
                                               info_framerate := SPA_FRACTION 30 0;
                                               info_max_framerate := SPA_FRACTION 0 1 |}
                              |}))))
     = PrimFloat.infinity.
Proof. repeat split; vm_compute; reflexivity. Qed.

(** ** The handler and the pool *)

Lemma converted_buffers_cons (e e' : event) (t : list event) :
  converted_buffers (e :: e' :: t)
  = match e, e' with
    | EvPush _, EvQueueBuffer b => [b]
    | _, _ => []
    end ++ converted_buffers (e' :: t).
Proof. destruct e, e'; reflexivity. Qed.

Lemma converted_buffers_app (a b : list event) :
  match b with EvQueueBuffer _ :: _ => False | _ => True end ->
  converted_buffers (a ++ b) = converted_buffers a ++ converted_buffers b.
Proof.
  intros Hb. induction a as [| e a IH]; [reflexivity |].
  destruct a as [| e' a'].
  - cbn [List.app]. destruct b as [| e' b']; [destruct e; reflexivity |].
    rewrite converted_buffers_cons.
    destruct e, e'; try contradiction; reflexivity.
  - cbn [List.app] in *. rewrite !converted_buffers_cons, IH, app_assoc. reflexivity.
Qed.

Section Backpressure.
Context {CI : codec_info}.

(** One turn of the loop with a buffer ready: a drop, with the pool and the
    queue as they were, or a conversion that takes the frame at the back of
    the pool and adds one to the queue. *)
Lemma iteration_backpressure (w w' : world) (c : bool) (b : pw_buffer)
    (rest : list pw_buffer) :
  stream_ready w = b :: rest ->
  on_process_iteration w = Ok (c, w') ->
  c = true /\ stream_ready w' = rest
  /\ (((payload_empty b = true \/ blank_frames (session w) = [])
       /\ blank_frames (session w') = blank_frames (session w)
       /\ sending_frames (session w') = sending_frames (session w)
       /\ converted_buffers (trace w') = converted_buffers (trace w))
      \/ (payload_empty b = false
          /\ (exists f, blank_frames (session w) = blank_frames (session w') ++ [f])
          /\ (exists f', sending_frames (session w')
                         = sending_frames (session w) ++ [f'])
          /\ (List.length (sending_frames (session w)) < 3)%nat
          /\ converted_buffers (trace w') = converted_buffers (trace w) ++ [b])).
Proof.
  intros Hready. unfold on_process_iteration, on_process_acquire, pw_stream_dequeue_buffer.
  rewrite Hready. unfold payload_empty.
  destruct (buffer b) as [sb |]; [| discriminate].
  destruct (datas sb) as [| d [| ? ?]]; try discriminate.
  destruct (data d); cbn [assert bind]; [| discriminate].
  cbn [existsb]. rewrite orb_false_r.
  destruct (empty_payload d).
  - intros H. injection H as <- <-. cbn [fst snd].
    split; [reflexivity |]. split; [reflexivity |]. left.
    split; [left; reflexivity |]. split; [reflexivity |]. split; [reflexivity |].
    cbn [trace emit pw_stream_queue_buffer]. rewrite <- app_assoc.
    rewrite converted_buffers_app by exact I. cbn. apply app_nil_r.
  - cbn [session emit].
    pose proof (pop_back_spec (blank_frames (session w))) as Hpop.
    destruct (pop_back (blank_frames (session w))) as [[f bl] |].
    + cbn [bind fst snd]. intros H.
      apply bind_ok in H as ([f1 w2] & Hfill & H). cbn [fst snd] in H.
      apply bind_ok in H as (w3 & Hpush & H). injection H as <- <-.
      apply fill_spec in Hfill as (Hs2 & Hr2 & Hfill).
      apply push_spec in Hpush as (Hlen & Hs3 & Hr3 & _ & Ht3).
      cbn [session set_session stream_ready emit trace] in *.
      split; [reflexivity |]. split; [congruence |]. right.
      split; [reflexivity |].
      rewrite Hs3, Hs2. cbn [blank_frames sending_frames set_sending_frames set_desc
                             set_blank_frames].
      split; [exists f; exact Hpop |]. split; [exists f1; reflexivity |].
      rewrite Hs2 in Hlen. cbn [sending_frames set_desc set_blank_frames] in Hlen.
      split; [exact Hlen |].
      rewrite Ht3.
      destruct Hfill as [(_ & _ & _ & _ & Ht2) | (_ & _ & _ & _ & Ht2)];
        rewrite Ht2; cbn [trace]; rewrite <- ?app_assoc;
        rewrite converted_buffers_app by exact I; reflexivity.
    + intros H. injection H as <- <-. cbn [fst snd].
      split; [reflexivity |]. split; [reflexivity |]. left.
      split; [right; exact Hpop |]. split; [reflexivity |]. split; [reflexivity |].
      cbn [trace emit pw_stream_queue_buffer]. rewrite <- app_assoc.
      rewrite converted_buffers_app by exact I. cbn. apply app_nil_r.
Qed.

Lemma loop_backpressure (fuel : nat) : forall (w w' : world),
  (List.length (stream_ready w) < fuel)%nat ->
  on_process_loop fuel w = Ok w' ->
  let live := filter (fun b => negb (payload_empty b)) (stream_ready w) in
  let n := Nat.min (List.length live) (List.length (blank_frames (session w))) in
  stream_ready w' = []
  /\ converted_buffers (trace w') = converted_buffers (trace w) ++ firstn n live
  /\ blank_frames (session w')
     = firstn (List.length (blank_frames (session w)) - n) (blank_frames (session w))
  /\ List.length (sending_frames (session w'))
     = (List.length (sending_frames (session w)) + n)%nat
  /\ (n = 0%nat \/ (List.length (sending_frames (session w)) + n <= 3)%nat).
Proof.
  induction fuel as [| fuel IH]; intros w w' Hfuel H; [lia |].
  cbn [on_process_loop] in H.
  apply bind_ok in H as ([c w1] & Hit & H). cbn [fst snd] in H.
  destruct (stream_ready w) as [| b rest] eqn:Hready.
  - apply iteration_spec in Hit. rewrite Hready in Hit.
    destruct Hit as (-> & ->). injection H as <-.
    cbn. rewrite app_nil_r, Nat.sub_0_r, firstn_all, Nat.add_0_r.
    repeat (split; [reflexivity || assumption |]). left. reflexivity.
  - destruct (iteration_backpressure w w1 c b rest Hready Hit) as (-> & Hr1 & Hcase).
    apply IH in H; [| rewrite Hr1; cbn in Hfuel; lia].
    rewrite Hr1 in H. cbv zeta in H.
    destruct H as (Hr & Hconv & Hblank & Hsend & Hbound).
    split; [exact Hr |].
    destruct Hcase as [(Hdrop & Hb1 & Hs1 & Hc1) | (Hlive & (f & Hb1) & (f' & Hs1) & Hlt & Hc1)].
    + rewrite Hb1, Hs1, Hc1 in *.
      destruct Hdrop as [Hempty | Hpool].
      * cbn [filter]. rewrite Hempty. cbn [negb]. auto.
      * rewrite Hpool in *. rewrite !Nat.min_0_r in *. cbn [firstn] in *.
        rewrite Hconv, Hblank, Hsend. auto.
    + cbn [filter]. rewrite Hlive. cbn [negb].
      set (live := filter (fun b0 => negb (payload_empty b0)) rest) in *.
      rewrite Hb1, length_app. cbn [List.length].
      set (bl := blank_frames (session w1)) in *.
      replace (Nat.min (S (List.length live)) (List.length bl + 1))
        with (S (Nat.min (List.length live) (List.length bl))) by lia.
      set (n := Nat.min (List.length live) (List.length bl)) in *.
      rewrite Hs1, length_app in *. cbn [List.length] in *.
      split; [rewrite Hconv, Hc1, <- app_assoc; reflexivity |].
      split; [| split; [lia | right; lia]].
      rewrite Hblank, firstn_app.
      replace (List.length bl + 1 - S n)%nat with (List.length bl - n)%nat by lia.
      replace (List.length bl - n - List.length bl)%nat with 0%nat by lia.
      cbn [firstn]. now rewrite app_nil_r.
Qed.

End Backpressure.

(** X19.  The handler converts as long as the pool lasts.  When a call of
    [on_process] returns, it has taken every buffer the stream had ready.
    Of those whose payload is not empty it has converted and pushed the
    first ones, in the order of their arrival, as many as the pool had
    frames, and dropped the others; each conversion took one frame from the
    back of the pool and added one to the hand-off queue, which then holds
    no more than 3.  Nothing is converted out of an empty pool. *)
Theorem handler_converts_while_pool_lasts {CI : codec_info} (w w' : world) :
  on_process w = Ok w' ->
  let live := filter (fun b => negb (payload_empty b)) (stream_ready w) in
  let n := Nat.min (List.length live) (List.length (blank_frames (session w))) in
  stream_ready w' = []
  /\ converted_buffers (trace w') = converted_buffers (trace w) ++ firstn n live
  /\ blank_frames (session w')
     = firstn (List.length (blank_frames (session w)) - n) (blank_frames (session w))
  /\ List.length (sending_frames (session w'))
     = (List.length (sending_frames (session w)) + n)%nat
  /\ (n = 0%nat \/ (List.length (sending_frames (session w)) + n <= 3)%nat).
Proof.
  intros H. apply (loop_backpressure _ w w' (Nat.lt_succ_diag_r _) H).
Qed.

Lemma handler_converts_while_pool_lasts_witness :
  let w := ExPw.one_frame_left in
  let w' := ExPw.after_process ExPw.one_frame_left in
  let live := filter (fun b => negb (payload_empty b)) (stream_ready w) in
  let n := Nat.min (List.length live) (List.length (blank_frames (session w))) in
  stream_ready w' = []
  /\ converted_buffers (trace w') = converted_buffers (trace w) ++ firstn n live
  /\ blank_frames (session w')
     = firstn (List.length (blank_frames (session w)) - n) (blank_frames (session w))
  /\ List.length (sending_frames (session w'))
     = (List.length (sending_frames (session w)) + n)%nat
  /\ (n = 0%nat \/ (List.length (sending_frames (session w)) + n <= 3)%nat).
Proof.
  apply (@handler_converts_while_pool_lasts Ex.four_bytes ExPw.one_frame_left
           (ExPw.after_process ExPw.one_frame_left)).
  vm_compute. reflexivity.
Defined.

(** Of three buffers with one frame in the pool, the first is converted. *)
Example one_of_three_converted :
  converted_buffers (trace (ExPw.after_process ExPw.one_frame_left))
  = [Ex.full_buffer 0]
  /\ dropped_buffers (trace (ExPw.after_process ExPw.one_frame_left))
     = [Ex.full_buffer 1; Ex.full_buffer 2].
Proof. vm_compute. split; reflexivity. Qed.

(** ** init, then done *)

Lemma parse_params_new (fmt : option string) :
  exists status o logs,
    parse_params fmt new_screen_cast_session
    = (status, set_user_options o new_screen_cast_session, logs).
Proof.
  unfold parse_params. destruct fmt as [text |].
  - destruct (parse_params_loop _ text _) as [[status o] logs].
    exists status, o, logs. reflexivity.
  - exists VIDCAP_INIT_OK, default_user_options, []. reflexivity.
Qed.

(** X20.  init, then done.  Whatever init of either module returns, done
    called on the session it left frees exactly the frames init allocated,
    each once, and init itself frees none.  After VIDCAP_INIT_OK these are
    the three frames of the pool and done stops the loop, destroys the
    stream, the context and the loop; the screen module then closes the
    descriptor of the portal when it is above 0, the pipewire module closes
    nothing.  After any other status init allocated no frame or the three
    of the pool, nothing was advertised and done calls nothing of the
    service.  With the audio flag init leaves no session. *)
Theorem init_then_done (audio : bool) (fmt : option string)
    (portal_fd portal_node connect_res : Z) :
  done_after_init (vidcap_screen_pw_init audio fmt portal_fd portal_node connect_res)
    (if portal_fd >? 0 then [Call_close portal_fd] else [])
  /\ done_after_init (vidcap_pw_init audio fmt connect_res) [].
Proof.
  unfold done_after_init, vidcap_screen_pw_init, vidcap_pw_init.
  destruct audio; [split; split; reflexivity |].
  destruct (parse_params_new fmt) as (status & o & logs & ->).
  change (Z.to_nat QUEUE_SIZE) with 3%nat.
  destruct status; try (split; cbn; repeat split; auto; discriminate).
  split.
  - destruct (Z.eqb_spec portal_fd (-1)) as [-> | Hfd].
    + cbn. repeat split; auto.
    + cbn [start_pipewire init_state init_status init_advertised].
      unfold vidcap_screen_pw_done, teardown_frees, teardown_calls, pw_destructor.
      cbn [session set_session pw set_pw loop stream context fd is_set
           sending_frames blank_frames in_flight_frames].
      destruct (portal_fd >? 0); cbn; repeat split; discriminate.
  - cbn. repeat split; discriminate.
Qed.

(** A portal that fails makes the screen module fail; the pipewire module
    does not ask it. *)
Example pipewire_module_needs_no_portal :
  init_status (vidcap_screen_pw_init false (Some "fps=25"%string) (-1) 0 0)
  = VIDCAP_INIT_FAIL
  /\ init_status (vidcap_pw_init false (Some "fps=25"%string) (-1)) = VIDCAP_INIT_OK.
Proof. split; reflexivity. Qed.
